(** * nussl: the training-loop orchestration of [nussl/ml/train/trainer.py]

    A shallow embedding of the trainer module and of the part of the
    ignite [Engine] it drives, followed by the properties of the
    bookkeeping, checkpointing and reporting handlers.

    Conventions of the embedding:
    - Python dictionaries keyed by metric names are [gmap string _];
      every loop [for key in d] of the module updates one entry per key
      and is a [map_fold].
    - Metric values (Python floats) are idealised as rationals [Q];
      [np.mean] is the exact arithmetic mean.
    - The list objects held in [iter_history] are shared with
      [past_iter_history]; they live in a store and are named by their
      index in it.
    - Exceptions are the [Raise] outcome of a computation; the state and
      the effects performed before the exception are kept.
    - Files, the logger and the TensorBoard writer are an effect trace.
      A directory exists when the trace has made it; the directories
      found when the process starts are in the trace it starts with.  A
      file is written exactly when its directory exists: nothing else
      makes a write fail, and [os.makedirs] does not fail.
    - The logging frequency of [cache_dataset] is a binary64 float, and
      its product with the length of the dataset is rounded as the
      machine rounds it. *)

From Stdlib Require Import QArith Qabs Qround Ascii String.
From stdpp Require Import gmap strings list fin_maps.

Local Open Scope string_scope.
Local Open Scope list_scope.
Local Open Scope nat_scope.

(** ** Python values and builtins *)

Module Py.

Inductive exn : Type :=
  | KeyError (key : string)
  | IndexError
  | AttributeError (attr : string)
  | RuntimeError (msg : string)
  | ValueError (msg : string)
  | OverflowError (msg : string)
  | UserError (msg : string).

Inductive result (A : Type) : Type :=
  | Ok (a : A)
  | Raise (e : exn).
Arguments Ok {A} a.
Arguments Raise {A} e.

Definition is_ok {A} (r : result A) : bool :=
  match r with Ok _ => true | Raise _ => false end.

Definition bind {A B} (r : result A) (k : A → result B) : result B :=
  match r with Ok a => k a | Raise e => Raise e end.

#[export] Instance result_ret : MRet result := λ A a, Ok a.

#[export] Instance result_bind : MBind result := λ A B k r, bind r k.

(** [d[key]] on a dictionary. *)
Definition getitem {V} (d : gmap string V) (key : string) : result V :=
  match d !! key with Some v => Ok v | None => Raise (KeyError key) end.

(** [l[-1]] on a list. *)
Definition last_item {A} (l : list A) : result A :=
  match last l with Some x => Ok x | None => Raise IndexError end.

(** [sum(l)] over rationals. *)
Definition Qsum (l : list Q) : Q := foldr Qplus 0%Q l.

(** [np.mean(l)]; the lists the module averages are never empty. *)
Definition mean (l : list Q) : Q :=
  Qred (Qsum l / inject_Z (Z.of_nat (length l))).

(** [min(l)]: the first of the smallest elements; [None] is Python's
    [ValueError] on an empty sequence. *)
Definition Qmin_pick (m y : Q) : Q := if Qle_bool m y then m else y.

Definition min (l : list Q) : option Q :=
  match l with
  | [] => None
  | x :: l' => Some (foldl Qmin_pick x l')
  end.

(** [int(x)] for a rational: truncation towards zero. *)
Definition int (x : Q) : Z := Z.quot (Qnum x) (Z.pos (Qden x)).

(** [posixpath.join]. *)
Definition startswith_sep (s : string) : bool :=
  match s with String c _ => bool_decide (c = "/"%char) | "" => false end.

Fixpoint endswith_sep (s : string) : bool :=
  match s with
  | "" => false
  | String c "" => bool_decide (c = "/"%char)
  | String _ s' => endswith_sep s'
  end.

Definition join2 (path b : string) : string :=
  if startswith_sep b then b
  else if bool_decide (path = "") || endswith_sep path then path +:+ b
  else path +:+ "/" +:+ b.

Definition os_path_join (a : string) (p : list string) : string :=
  foldl join2 a p.

(** [s.replace(old, new)] for a non-empty [old]: every occurrence, left
    to right, without overlap.  [skip] counts the characters of a match
    that are still to be dropped. *)
Fixpoint replace_go (old new : string) (skip : nat) (s : string) : string :=
  match s with
  | "" => ""
  | String c s' =>
      match skip with
      | S k => replace_go old new k s'
      | O =>
          if String.prefix old s
          then new +:+ replace_go old new (String.length old - 1) s'
          else String c (replace_go old new 0 s')
      end
  end.

Definition str_replace (s old new : string) : string :=
  replace_go old new 0 s.

(** [f"{n:04d}"]: decimal, zero-padded to four characters. *)
Definition digit_char (d : nat) : ascii :=
  ascii_of_nat (48 + d).

Fixpoint decimal_go (fuel n : nat) (acc : string) : string :=
  match fuel with
  | O => acc
  | S fuel' =>
      let acc' := String (digit_char (n mod 10)) acc in
      if n / 10 =? 0 then acc' else decimal_go fuel' (n / 10) acc'
  end.

Definition decimal (n : nat) : string := decimal_go (S n) n "".

Fixpoint zeros (k : nat) : string :=
  match k with O => "" | S k' => String "0"%char (zeros k') end.

Definition zfill (width : nat) (s : string) : string :=
  zeros (width - String.length s) +:+ s.

Definition format_04d (n : nat) : string := zfill 4 (decimal n).

(** [time.strftime("%H:%M:%S", time.gmtime(t))] for a whole number of
    seconds. *)
Definition format_hms (t : nat) : string :=
  zfill 2 (decimal ((t / 3600) mod 24)) +:+ ":" +:+
  zfill 2 (decimal ((t / 60) mod 60)) +:+ ":" +:+
  zfill 2 (decimal (t mod 60)).

(** [f"{x:04f}"]: six decimals, rounded half to even. *)
Definition round_half_even (x : Q) : Z :=
  let n := Qnum x in
  let d := Z.pos (Qden x) in
  let q := (n `div` d)%Z in
  let r := (n `mod` d)%Z in
  match (2 * r ?= d)%Z with
  | Lt => q
  | Gt => (q + 1)%Z
  | Eq => if Z.even q then q else (q + 1)%Z
  end.

Definition format_04f (x : Q) : string :=
  let n := round_half_even (Qabs x * inject_Z 1000000) in
  (if (Qnum x <? 0)%Z then "-" else "") +:+
  decimal (Z.to_nat (n `div` 1000000)) +:+ "." +:+
  zfill 6 (decimal (Z.to_nat (n `mod` 1000000))).

(** The directory a file path lies in: what precedes the last
    separator, nothing when there is none. *)
Fixpoint parentdir_go (s : string) : option string :=
  match s with
  | "" => None
  | String c s' =>
      match parentdir_go s' with
      | Some h => Some (String c h)
      | None => if bool_decide (c = "/"%char) then Some "" else None
      end
  end.

Definition parentdir (s : string) : string := default "" (parentdir_go s).

(** A directory path and the directories above it, as [os.makedirs]
    makes them. *)
Fixpoint ancestors_go (fuel : nat) (p : string) : list string :=
  match fuel with
  | O => []
  | S fuel' =>
      match p with
      | "" => []
      | _ => p :: ancestors_go fuel' (parentdir p)
      end
  end.

Definition ancestors (p : string) : list string :=
  ancestors_go (String.length p) p.

(** *** Floats

    A Python float is an IEEE binary64 number.  A finite one is written
    [Finite x] for any rational [x] it is the nearest double of, as a
    decimal literal is read.  An operation rounds its exact result to
    the nearest double, ties to even, and overflows to infinity. *)
Inductive float : Type :=
  | Finite (x : Q)
  | Inf (negative : bool)
  | NaN.

(** [floor(log2(x))] for a positive rational. *)
Definition ilog2 (x : Q) : Z :=
  let l := (Z.log2 (Qnum x) - Z.log2 (Z.pos (Qden x)))%Z in
  if Qle_bool (2 ^ l) x then l else (l - 1)%Z.

(** The double nearest to a rational: 53 significant bits, the smallest
    exponent that of the subnormal numbers. *)
Definition round64 (x : Q) : float :=
  if Qeq_bool x 0 then Finite 0
  else
    let a := Qabs x in
    let e := Z.max (ilog2 a - 52) (-1074) in
    let m := round_half_even (a / 2 ^ e) in
    let v := (inject_Z m * 2 ^ e)%Q in
    if Qle_bool (2 ^ 1024) v then Inf (Qnum x <? 0)%Z
    else Finite (Qred (if (Qnum x <? 0)%Z then - v else v)).

Definition double (f : float) : float :=
  match f with Finite x => round64 x | _ => f end.

(** [a * b] on floats. *)
Definition float_mul (a b : float) : float :=
  match double a, double b with
  | NaN, _ | _, NaN => NaN
  | Inf s, Inf t => Inf (xorb s t)
  | Inf s, Finite y | Finite y, Inf s =>
      if Qeq_bool y 0 then NaN else Inf (xorb s (Qnum y <? 0)%Z)
  | Finite x, Finite y => round64 (x * y)
  end.

(** [float(n)] for an integer, as in [n * x]. *)
Definition float_of_int (n : Z) : result float :=
  match round64 (inject_Z n) with
  | Inf _ => Raise (OverflowError "int too large to convert to float")
  | f => Ok f
  end.

(** [int(x)] for a float. *)
Definition int_of_float (f : float) : result Z :=
  match double f with
  | Finite x => Ok (int x)
  | Inf _ => Raise (OverflowError "cannot convert float infinity to integer")
  | NaN => Raise (ValueError "cannot convert float NaN to integer")
  end.

End Py.

Import Py.

(** ** The tensor runtime

    The part of torch the trainer calls: device descriptors, the
    availability of CUDA, and moving a tensor.  This is a collaborator of
    the repository, modelled here from its documented behaviour. *)

Module Torch.

Inductive device : Type := Device (type : string) (index : option nat).

Definition device_type (d : device) : string :=
  match d with Device t _ => t end.

Definition cpu : device := Device "cpu" None.

Definition device_types : list string :=
  ["cpu"; "cuda"; "mkldnn"; "opengl"; "opencl"; "ideep"; "hip"; "msnpu"; "xla"].

Fixpoint split_colon (s : string) : string * option string :=
  match s with
  | "" => ("", None)
  | String c s' =>
      if bool_decide (c = ":"%char) then ("", Some s')
      else let '(a, b) := split_colon s' in (String c a, b)
  end.

Definition digit_value (c : ascii) : option nat :=
  let n := nat_of_ascii c in
  if bool_decide (48 ≤ n ≤ 57) then Some (n - 48) else None.

Fixpoint parse_digits (acc : nat) (s : string) : option nat :=
  match s with
  | "" => Some acc
  | String c s' =>
      match digit_value c with
      | Some d => parse_digits (10 * acc + d) s'
      | None => None
      end
  end.

(** A device index: decimal digits, with no zero in front of others. *)
Definition parse_index (s : string) : option nat :=
  match s with
  | "" => None
  | String "0" (String _ _) => None
  | _ => parse_digits 0 s
  end.

(** [torch.device(s)] for a string: a known device type, optionally
    followed by [:index]; anything else is a [RuntimeError]. *)
Definition torch_device (s : string) : result device :=
  let '(t, rest) := split_colon s in
  if bool_decide (t ∈ device_types) then
    match rest with
    | None => Ok (Device t None)
    | Some i =>
        match parse_index i with
        | Some n => Ok (Device t (Some n))
        | None => Raise (RuntimeError "Invalid device string")
        end
    end
  else Raise (RuntimeError "Invalid device string").

(** What the process finds at run time: whether CUDA is usable, and which
    non-CPU devices a tensor can be moved to. *)
Record Runtime : Type := {
  cuda_is_available : bool;
  device_present : device → bool
}.

Inductive dtype : Type := Float32 | Float64 | Int64 | Bool8.

Record tensor : Type := {
  tensor_dtype : dtype;
  tensor_device : device;
  tensor_data : nat
}.

(** [t.float()] *)
Definition tensor_float (t : tensor) : tensor :=
  {| tensor_dtype := Float32; tensor_device := tensor_device t;
     tensor_data := tensor_data t |}.

(** [t.to(device)]: moving to the CPU always works; any other device must
    be present. *)
Definition tensor_to (rt : Runtime) (d : device) (t : tensor) : result tensor :=
  if bool_decide (device_type d = "cpu") || device_present rt d
  then Ok {| tensor_dtype := tensor_dtype t; tensor_device := d;
             tensor_data := tensor_data t |}
  else Raise (RuntimeError "device not available").

(** A batch entry: a tensor, or anything else. *)
Inductive entry : Type :=
  | Tensor (t : tensor)
  | Other (payload : string).

Definition is_tensor (e : entry) : bool :=
  match e with Tensor _ => true | Other _ => false end.

End Torch.

Import Torch.

(** ** Collaborators of the trainer

    The dataset descriptor, the model and the optimizer are used only
    through the attributes and methods named here. *)

Record TrainData : Type := {
  stft_params : string;
  sample_rate : N;
  num_channels : nat;
  folder : string;
  transform : list string
}.

(** A module with a [save] method (a SeparationModel). *)
Inductive Module' : Type := SeparationModel (weights : string).

(** The model handed to the trainer: the module itself, or the module
    wrapped in [nn.DataParallel]. *)
Inductive Model : Type :=
  | Bare (m : Module')
  | DataParallel (module : Module').

Record Optimizer : Type := { state_dict : string }.

Record StateDict : Type := {
  sd_epoch : nat;
  sd_epoch_length : nat;
  sd_max_epochs : nat;
  sd_output : gmap string Q;
  sd_metrics : gmap string Q;
  sd_seed : nat
}.

Record Metadata : Type := {
  md_stft_params : string;
  md_sample_rate : N;
  md_num_channels : nat;
  md_folder : string;
  md_transforms : list string;
  md_trainer_state_dict : StateDict;
  md_trainer_state_epoch_history : gmap string (list Q)
}.

(** What the process does to the outside: log records, the file system,
    the TensorBoard writer. *)
Inductive effect : Type :=
  | LoggingInfo (msg : string)
  | MakeDirs (path : string)
  | ModelSave (path : string) (m : Module') (metadata : Metadata)
  | TorchSave (path : string) (optimizer_state : string)
  | AddScalar (logdir tag : string) (value : Q) (step : nat).

(** ** The engine

    The part of ignite's [Engine] the trainer relies on: the run state,
    the event loop of [Engine.run], and handlers called in registration
    order. *)

Module Ignite.

Inductive Events : Type :=
  | STARTED
  | EPOCH_STARTED
  | ITERATION_STARTED
  | ITERATION_COMPLETED
  | EPOCH_COMPLETED
  | COMPLETED.

#[export] Instance Events_eq_dec : EqDecision Events.
Proof. solve_decision. Defined.

(** [engine.state].  The three histories, [saved_model_path] and
    [output_folder] are the attributes the trainer's handlers attach to
    it; [store] holds the list objects that [iter_history] and
    [past_iter_history] refer to. *)
Record State : Type := mkState {
  iteration : nat;
  epoch : nat;
  max_epochs : nat;
  epoch_length : nat;
  seed : nat;
  metrics : gmap string Q;
  batch : gmap string entry;
  output : gmap string Q;
  store : list (list Q);
  epoch_history : gmap string (list Q);
  iter_history : gmap string nat;
  past_iter_history : gmap string (list nat);
  saved_model_path : option string;
  output_folder : option string
}.

Definition set_iteration (v : nat) (st : State) : State :=
  {| iteration := v;
     epoch := epoch st;
     max_epochs := max_epochs st;
     epoch_length := epoch_length st;
     seed := seed st;
     metrics := metrics st;
     batch := batch st;
     output := output st;
     store := store st;
     epoch_history := epoch_history st;
     iter_history := iter_history st;
     past_iter_history := past_iter_history st;
     saved_model_path := saved_model_path st;
     output_folder := output_folder st |}.

Definition set_epoch (v : nat) (st : State) : State :=
  {| iteration := iteration st;
     epoch := v;
     max_epochs := max_epochs st;
     epoch_length := epoch_length st;
     seed := seed st;
     metrics := metrics st;
     batch := batch st;
     output := output st;
     store := store st;
     epoch_history := epoch_history st;
     iter_history := iter_history st;
     past_iter_history := past_iter_history st;
     saved_model_path := saved_model_path st;
     output_folder := output_folder st |}.

Definition set_batch (v : gmap string entry) (st : State) : State :=
  {| iteration := iteration st;
     epoch := epoch st;
     max_epochs := max_epochs st;
     epoch_length := epoch_length st;
     seed := seed st;
     metrics := metrics st;
     batch := v;
     output := output st;
     store := store st;
     epoch_history := epoch_history st;
     iter_history := iter_history st;
     past_iter_history := past_iter_history st;
     saved_model_path := saved_model_path st;
     output_folder := output_folder st |}.

Definition set_output (v : gmap string Q) (st : State) : State :=
  {| iteration := iteration st;
     epoch := epoch st;
     max_epochs := max_epochs st;
     epoch_length := epoch_length st;
     seed := seed st;
     metrics := metrics st;
     batch := batch st;
     output := v;
     store := store st;
     epoch_history := epoch_history st;
     iter_history := iter_history st;
     past_iter_history := past_iter_history st;
     saved_model_path := saved_model_path st;
     output_folder := output_folder st |}.

Definition set_store (v : list (list Q)) (st : State) : State :=
  {| iteration := iteration st;
     epoch := epoch st;
     max_epochs := max_epochs st;
     epoch_length := epoch_length st;
     seed := seed st;
     metrics := metrics st;
     batch := batch st;
     output := output st;
     store := v;
     epoch_history := epoch_history st;
     iter_history := iter_history st;
     past_iter_history := past_iter_history st;
     saved_model_path := saved_model_path st;
     output_folder := output_folder st |}.

Definition set_epoch_history (v : gmap string (list Q)) (st : State) : State :=
  {| iteration := iteration st;
     epoch := epoch st;
     max_epochs := max_epochs st;
     epoch_length := epoch_length st;
     seed := seed st;
     metrics := metrics st;
     batch := batch st;
     output := output st;
     store := store st;
     epoch_history := v;
     iter_history := iter_history st;
     past_iter_history := past_iter_history st;
     saved_model_path := saved_model_path st;
     output_folder := output_folder st |}.

Definition set_iter_history (v : gmap string nat) (st : State) : State :=
  {| iteration := iteration st;
     epoch := epoch st;
     max_epochs := max_epochs st;
     epoch_length := epoch_length st;
     seed := seed st;
     metrics := metrics st;
     batch := batch st;
     output := output st;
     store := store st;
     epoch_history := epoch_history st;
     iter_history := v;
     past_iter_history := past_iter_history st;
     saved_model_path := saved_model_path st;
     output_folder := output_folder st |}.

Definition set_past_iter_history (v : gmap string (list nat)) (st : State) : State :=
  {| iteration := iteration st;
     epoch := epoch st;
     max_epochs := max_epochs st;
     epoch_length := epoch_length st;
     seed := seed st;
     metrics := metrics st;
     batch := batch st;
     output := output st;
     store := store st;
     epoch_history := epoch_history st;
     iter_history := iter_history st;
     past_iter_history := v;
     saved_model_path := saved_model_path st;
     output_folder := output_folder st |}.

Definition set_saved_model_path (v : option string) (st : State) : State :=
  {| iteration := iteration st;
     epoch := epoch st;
     max_epochs := max_epochs st;
     epoch_length := epoch_length st;
     seed := seed st;
     metrics := metrics st;
     batch := batch st;
     output := output st;
     store := store st;
     epoch_history := epoch_history st;
     iter_history := iter_history st;
     past_iter_history := past_iter_history st;
     saved_model_path := v;
     output_folder := output_folder st |}.

Definition set_output_folder (v : option string) (st : State) : State :=
  {| iteration := iteration st;
     epoch := epoch st;
     max_epochs := max_epochs st;
     epoch_length := epoch_length st;
     seed := seed st;
     metrics := metrics st;
     batch := batch st;
     output := output st;
     store := store st;
     epoch_history := epoch_history st;
     iter_history := iter_history st;
     past_iter_history := past_iter_history st;
     saved_model_path := saved_model_path st;
     output_folder := v |}.

(** The world outside the engines: the effects performed so far, the
    number of calls made to step functions (a step function is a closure
    over the model being trained, so what it returns depends on how many
    steps were taken before), and what the two timers of the stdout
    handler read, in whole seconds. *)
Record World : Type := mkWorld {
  trace : list effect;
  calls : nat;
  epoch_time : nat;
  overall_time : nat
}.

Definition emit (e : effect) (w : World) : World :=
  {| trace := trace w ++ [e]; calls := calls w;
     epoch_time := epoch_time w; overall_time := overall_time w |}.

Definition tick (w : World) : World :=
  {| trace := trace w; calls := S (calls w);
     epoch_time := epoch_time w; overall_time := overall_time w |}.

(** Computations on an engine: state, effects and exceptions. *)
Definition M (A : Type) : Type := State → World → result A * State * World.

#[export] Instance M_ret : MRet M := λ A a st w, (Ok a, st, w).

#[export] Instance M_bind : MBind M := λ A B k m st w,
  match m st w with
  | (Ok a, st', w') => k a st' w'
  | (Raise e, st', w') => (Raise e, st', w')
  end.

Definition raise {A} (e : exn) : M A := λ st w, (Raise e, st, w).

Definition lift {A} (r : result A) : M A := λ st w, (r, st, w).

Definition get_state : M State := λ st w, (Ok st, st, w).

Definition modify (f : State → State) : M unit := λ st w, (Ok tt, f st, w).

Definition perform (e : effect) : M unit := λ st w, (Ok tt, st, emit e w).

Definition Handler : Type := M unit.

(** Handlers of one event run in registration order; an exception in one
    of them ends the sequence. *)
Fixpoint run_handlers (hs : list Handler) : M unit :=
  match hs with
  | [] => mret tt
  | h :: hs' => h ;; run_handlers hs'
  end.

(** An engine: its step function and its handlers.  A handler of a
    built-in event receives the engine, and may call [engine.fire_event]
    on the events registered with [register_events]; it is given the
    handlers of those events. *)
Record Engine (Custom : Type) : Type := {
  process_function : nat → gmap string entry → result (gmap string Q);
  custom_handlers : Custom → list Handler;
  event_handlers : Events → list ((Custom → list Handler) → Handler)
}.
Arguments process_function {Custom} _.
Arguments custom_handlers {Custom} _.
Arguments event_handlers {Custom} _.

Section Run.
Context {Custom : Type}.
Variable engine : Engine Custom.

(** [engine._fire_event(event)] for a built-in event. *)
Definition fire_event (ev : Events) : M unit :=
  run_handlers (map (λ h, h (custom_handlers engine)) (event_handlers engine ev)).

(** One call of the step function on [engine.state.batch]. *)
Definition call_process_function : M (gmap string Q) := λ st w,
  (process_function engine (calls w) (batch st), st, tick w).

(** [engine._run_once_on_dataset()]: one pass over the data. *)
Fixpoint run_once_on_dataset (data : list (gmap string entry)) : M unit :=
  match data with
  | [] => mret tt
  | b :: data' =>
      modify (set_batch b) ;;
      modify (λ st, set_iteration (S (iteration st)) st) ;;
      fire_event ITERATION_STARTED ;;
      out ← call_process_function ;
      modify (set_output out) ;;
      fire_event ITERATION_COMPLETED ;;
      run_once_on_dataset data'
  end.

(** One turn of the loop of [engine._internal_run()]. *)
Definition run_epoch (data : list (gmap string entry)) : M unit :=
  modify (λ st, set_epoch (S (epoch st)) st) ;;
  fire_event EPOCH_STARTED ;;
  run_once_on_dataset data ;;
  fire_event EPOCH_COMPLETED.

(** The loop itself; [n] epochs remain. *)
Fixpoint run_epochs (data : list (gmap string entry)) (n : nat) : M unit :=
  match n with
  | O => mret tt
  | S n' => run_epoch data ;; run_epochs data n'
  end.

Definition internal_run (data : list (gmap string entry)) : M unit :=
  fire_event STARTED ;;
  st ← get_state ;
  run_epochs data (max_epochs st - epoch st) ;;
  fire_event COMPLETED.

(** The state [Engine.run] starts from. *)
Definition initial_state (data : list (gmap string entry)) (max_epochs seed : nat) : State :=
  {| iteration := 0; epoch := 0; max_epochs := max_epochs;
     epoch_length := length data; seed := seed;
     metrics := ∅; batch := ∅; output := ∅; store := [];
     epoch_history := ∅; iter_history := ∅; past_iter_history := ∅;
     saved_model_path := None; output_folder := None |}.

(** [engine.run(data, max_epochs)]: the outcome, the final
    [engine.state] and the world after the run.  Data of length zero
    is refused before anything else happens; no run state is made
    then, and the state given back is a blank one. *)
Definition run (data : list (gmap string entry)) (max_epochs seed : nat)
    (w : World) : result unit * State * World :=
  match data with
  | [] =>
      (Raise (ValueError
                "Input data has zero size. Please provide non-empty data"),
       initial_state data max_epochs seed, w)
  | _ => internal_run data (initial_state data max_epochs seed) w
  end.

End Run.

(** [engine.add_event_handler(event, handler)] *)
Definition add_event_handler {Custom} (engine : Engine Custom) (ev : Events)
    (h : (Custom → list Handler) → Handler) : Engine Custom :=
  {| process_function := process_function engine;
     custom_handlers := custom_handlers engine;
     event_handlers := λ ev',
       if bool_decide (ev' = ev) then event_handlers engine ev' ++ [h]
       else event_handlers engine ev' |}.

(** The same for an event registered with [register_events]. *)
Definition add_custom_handler {Custom} `{EqDecision Custom}
    (engine : Engine Custom) (ev : Custom) (h : Handler) : Engine Custom :=
  {| process_function := process_function engine;
     custom_handlers := λ ev',
       if bool_decide (ev' = ev) then custom_handlers engine ev' ++ [h]
       else custom_handlers engine ev';
     event_handlers := event_handlers engine |}.

(** The engine with the handlers [hs] registered on its own events. *)
Definition with_custom_handlers {Custom} (engine : Engine Custom)
    (hs : Custom → list Handler) : Engine Custom :=
  {| process_function := process_function engine;
     custom_handlers := hs;
     event_handlers := event_handlers engine |}.

(** [Engine(process_function)] *)
Definition new_engine {Custom}
    (f : nat → gmap string entry → result (gmap string Q)) : Engine Custom :=
  {| process_function := f;
     custom_handlers := λ _, [];
     event_handlers := λ _, [] |}.

(** [Events.X(every=n)]: the handler runs when the iteration count is a
    multiple of [n]. *)
Definition every (n : nat) (h : Handler) : Handler :=
  st ← get_state ;
  if Nat.eqb (iteration st `mod` n) 0 then h else mret tt.

End Ignite.

Import Ignite.

(** ** The trainer module *)

Inductive ValidationEvents : Type :=
  | VALIDATION_STARTED
  | VALIDATION_COMPLETED.

Inductive BackwardsEvents : Type :=
  | BACKWARDS_COMPLETED.

(** The events the train engine registers besides the built-in ones. *)
Inductive TrainerEvents : Type :=
  | Validation (ev : ValidationEvents)
  | Backwards (ev : BackwardsEvents).

#[export] Instance ValidationEvents_eq_dec : EqDecision ValidationEvents.
Proof. solve_decision. Defined.

#[export] Instance BackwardsEvents_eq_dec : EqDecision BackwardsEvents.
Proof. solve_decision. Defined.

#[export] Instance TrainerEvents_eq_dec : EqDecision TrainerEvents.
Proof. solve_decision. Defined.

(** *** cache_dataset *)

Record Dataset : Type := {
  items : list (gmap string entry);
  cache_populated : bool
}.

(** [dummy_process] returns nothing; no handler of the cache engine reads
    the output, which is kept as the empty dictionary. *)
Definition dummy_process (call : nat) (data : gmap string entry)
    : result (gmap string Q) := Ok ∅.

Definition progress_message (iteration epoch_length : nat) : string :=
  "Cached " +:+ decimal iteration +:+ " / " +:+ decimal epoch_length +:+
  " batches".

Definition log_progress : Handler :=
  st ← get_state ;
  perform (LoggingInfo (progress_message (iteration st) (epoch_length st))).

(** [max(int(len(dataset) * log_frequency), 1)]: the length is
    converted to a float, the product is a float product, and [int]
    drops its fractional part. *)
Definition log_interval (len : nat) (log_frequency : float) : result nat :=
  l ← float_of_int (Z.of_nat len) ;
  i ← int_of_float (float_mul l log_frequency) ;
  Ok (Z.to_nat (Z.max i 1)).

(** The engine with [log_progress] attached, [log_frequency] being the
    interval already computed. *)
Definition cache_engine (log_frequency : nat) : Engine Empty_set :=
  let cache := new_engine dummy_process in
  add_event_handler cache ITERATION_STARTED (λ _, every log_frequency log_progress).

(** The dataset given back is the dataset after the call; when the call
    raises, the dataset is as it was. *)
Definition cache_dataset (dataset : Dataset) (log_frequency : float) (w : World)
    : result Dataset * World :=
  match log_interval (length (items dataset)) log_frequency with
  | Raise e => (Raise e, w)
  | Ok log_frequency =>
      match run (cache_engine log_frequency) (items dataset) 1 0 w with
      | (Ok _, _, w') =>
          (Ok {| items := items dataset; cache_populated := true |}, w')
      | (Raise e, _, w') => (Raise e, w')
      end
  end.

(** *** create_train_and_validation_engines *)

Section Factory.
Variable rt : Runtime.

(** [device = torch.device(device)], then the fall back to the CPU. *)
Definition resolve_device (device : string) : result Torch.device :=
  device ← torch_device device ;
  if negb (cuda_is_available rt) then Ok cpu else Ok device.

Definition prepare_entry (device : Torch.device) (e : entry) : result entry :=
  match e with
  | Tensor t => t' ← tensor_to rt device (tensor_float t) ; Ok (Tensor t')
  | Other _ => Ok e
  end.

(** The loop of [prepare_batch] over the keys of the batch.  A move can
    only fail at the first tensor, before any entry is replaced. *)
Definition move_entries (device : Torch.device) (batch : gmap string entry)
    : result (gmap string entry) :=
  map_fold (λ key e (acc : result (gmap string entry)),
              batch ← acc ;
              e' ← prepare_entry device e ;
              Ok (<[key := e']> batch))
           (Ok batch) batch.

Definition prepare_batch (device : Torch.device) : Handler := λ st w,
  let batch := batch st in
  match move_entries device batch with
  | Ok batch => (Ok tt, set_batch batch st, w)
  | Raise e => (Raise e, st, w)
  end.

Definition book_keeping : Handler :=
  modify (set_epoch_history ∅) ;;
  modify (set_iter_history ∅) ;;
  modify (set_past_iter_history ∅).

(** The body of the loop of [add_to_iter_history] for one key of the
    output. *)
Definition record_output (key : string) (v : Q) (st : State) : State :=
  let st :=
    match iter_history st !! key with
    | Some _ => st
    | None =>
        set_iter_history (<[key := length (store st)]> (iter_history st))
          (set_store (store st ++ [[]]) st)
    end in
  let st :=
    match past_iter_history st !! key with
    | Some _ => st
    | None => set_past_iter_history (<[key := []]> (past_iter_history st)) st
    end in
  match iter_history st !! key with
  | Some l =>
      let st := set_store (alter (λ vs, vs ++ [v]) l (store st)) st in
      set_past_iter_history
        (alter (λ ls, ls ++ [l]) key (past_iter_history st)) st
  | None => st
  end.

Definition add_to_iter_history : Handler :=
  modify (λ st, map_fold record_output st (output st)).

Definition clear_iter_history : Handler :=
  modify (set_iter_history ∅).

Definition attach_bookkeeping {Custom} (engine : Engine Custom)
    (device : Torch.device) : Engine Custom :=
  let engine := add_event_handler engine ITERATION_STARTED (λ _, prepare_batch device) in
  let engine := add_event_handler engine STARTED (λ _, book_keeping) in
  let engine := add_event_handler engine ITERATION_COMPLETED (λ _, add_to_iter_history) in
  add_event_handler engine EPOCH_STARTED (λ _, clear_iter_history).

Definition create_train_and_validation_engines
    (train_func : nat → gmap string entry → result (gmap string Q))
    (val_func : option (nat → gmap string entry → result (gmap string Q)))
    (device : string)
    : result (Engine TrainerEvents * option (Engine Empty_set)) :=
  let trainer : Engine TrainerEvents := new_engine train_func in
  let validator : option (Engine Empty_set) := new_engine <$> val_func in
  device ← resolve_device device ;
  let trainer := attach_bookkeeping trainer device in
  let validator := (λ v, attach_bookkeeping v device) <$> validator in
  Ok (trainer, validator).

End Factory.

(** *** add_validate_and_checkpoint *)

(** The list object [state.iter_history[key]] refers to. *)
Definition deref (st : State) (l : nat) : list Q :=
  default [] (store st !! l).

(** The loops that append the mean of every key of an engine's iteration
    history to the epoch history, under [prefix ++ key]. *)
Definition append_means (prefix : string) (src : State)
    (epoch_history : gmap string (list Q)) : gmap string (list Q) :=
  map_fold (λ key l epoch_history,
              let _key := prefix +:+ key in
              <[_key := default [] (epoch_history !! _key) ++ [mean (deref src l)]]>
                epoch_history)
           epoch_history (iter_history src).

(** [cur == min(...)] when the key is there, [True] otherwise. *)
Definition resolve_is_best (epoch_history : gmap string (list Q)) : result bool :=
  match epoch_history !! "validation/loss" with
  | Some losses =>
      cur ← last_item losses ;
      match Py.min losses with
      | Some m => Ok (Qeq_bool cur m)
      | None => Raise (ValueError "min() arg is an empty sequence")
      end
  | None => Ok true
  end.

Definition latest_path (output_folder : string) : string :=
  os_path_join output_folder ["checkpoints"; "latest.model.pth"].

Definition best_path (output_folder : string) : string :=
  os_path_join output_folder ["checkpoints"; "best.model.pth"].

Definition output_paths (output_folder : string) (is_best : bool) : list string :=
  [latest_path output_folder] ++
  (if is_best then [best_path output_folder] else []).

Definition make_metadata (train_data : TrainData) (st : State) : Metadata :=
  {| md_stft_params := stft_params train_data;
     md_sample_rate := sample_rate train_data;
     md_num_channels := num_channels train_data;
     md_folder := folder train_data;
     md_transforms := transform train_data;
     md_trainer_state_dict :=
       {| sd_epoch := epoch st;
          sd_epoch_length := epoch_length st;
          sd_max_epochs := max_epochs st;
          sd_output := output st;
          sd_metrics := metrics st;
          sd_seed := seed st |};
     md_trainer_state_epoch_history := epoch_history st |}.

Definition unwrap (model : Model) : Module' :=
  match model with
  | DataParallel module => module
  | Bare m => m
  end.

Definition optimizer_path (_path : string) : string :=
  str_replace _path "model.pth" "optimizer.pth".

(** The directories the trace has made. *)
Definition made_dirs (tr : list effect) : list string :=
  omap (λ e, match e with MakeDirs p => Some p | _ => None end) tr.

(** A directory exists when it has been made, by itself or on the way
    to a directory below it; the working directory, named by the empty
    string, always exists. *)
Definition dir_exists (w : World) (d : string) : bool :=
  bool_decide (d = "") ||
  bool_decide (d ∈ flat_map ancestors (made_dirs (trace w))).

(** [os.makedirs(path, exist_ok=True)] *)
Definition makedirs (path : string) : M unit := perform (MakeDirs path).

(** [torch.save(obj, path)], which [model.save] comes down to as well:
    the file [write] stands for is written when the directory of [path]
    exists; otherwise nothing is written and a [RuntimeError] is
    raised. *)
Definition torch_save (path : string) (write : effect) : M unit := λ st w,
  if dir_exists w (parentdir path) then (Ok tt, st, emit write w)
  else (Raise (RuntimeError ("Parent directory " +:+ parentdir path +:+
                             " does not exist.")), st, w).

Section Checkpoint.
Variable output_folder : string.
Variable model : Model.
Variable optimizer : Optimizer.
Variable train_data : TrainData.
Variable val_data : list (gmap string entry).
Variable validator : option (Engine Empty_set).

(** [validator.run(val_data)], seen from the trainer: the validator's
    final state is what the handler reads next. *)
Definition run_validator (v : Engine Empty_set) : M State := λ st w,
  match run v val_data 1 0 w with
  | (Ok _, vstate, w') => (Ok vstate, st, w')
  | (Raise e, _, w') => (Raise e, st, w')
  end.

Definition validation_step : M bool :=
  match validator with
  | Some v =>
      vstate ← run_validator v ;
      modify (λ st, set_epoch_history
                      (append_means "validation/" vstate (epoch_history st)) st) ;;
      st ← get_state ;
      lift (resolve_is_best (epoch_history st))
  | None => mret true
  end.

Definition train_step : M unit :=
  modify (λ st, set_epoch_history
                  (append_means "train/" st (epoch_history st)) st).

Fixpoint save_checkpoints (metadata : Metadata) (paths : list string) : M unit :=
  match paths with
  | [] => mret tt
  | _path :: paths' =>
      makedirs (os_path_join output_folder ["checkpoints"]) ;;
      torch_save _path (ModelSave _path (unwrap model) metadata) ;;
      torch_save (optimizer_path _path)
        (TorchSave (optimizer_path _path) (state_dict optimizer)) ;;
      save_checkpoints metadata paths'
  end.

(** Everything the handler does before it fires
    [VALIDATION_COMPLETED]; the result is [is_best]. *)
Definition checkpoint (handlers : TrainerEvents → list Handler) : M bool :=
  run_handlers (handlers (Validation VALIDATION_STARTED)) ;;
  is_best ← validation_step ;
  train_step ;;
  let output_paths := output_paths output_folder is_best in
  st ← get_state ;
  let metadata := make_metadata train_data st in
  save_checkpoints metadata output_paths ;;
  modify (set_saved_model_path (last output_paths)) ;;
  modify (set_output_folder (Some output_folder)) ;;
  mret is_best.

Definition validate_and_checkpoint (handlers : TrainerEvents → list Handler)
    : Handler :=
  checkpoint handlers ;;
  run_handlers (handlers (Validation VALIDATION_COMPLETED)).

Definition add_validate_and_checkpoint (trainer : Engine TrainerEvents)
    : Engine TrainerEvents :=
  add_event_handler trainer EPOCH_COMPLETED validate_and_checkpoint.

End Checkpoint.

(** *** add_stdout_handler *)

Definition summary (epoch_number total_epochs : nat) (train_loss : Q)
    (validation_loss epoch_time overall_time saved_model_path folder : string)
    : string :=
  "

EPOCH SUMMARY 
~~~~~~~~~~~~~~~~~~~~~~~~~~~~~~ 
- Epoch number: " +:+ format_04d epoch_number +:+ " / " +:+
  format_04d total_epochs +:+ " 
- Training loss:   " +:+ format_04f train_loss +:+ " 
- Validation loss: " +:+ validation_loss +:+ " 
- Epoch took: " +:+ epoch_time +:+ " 
- Time since start: " +:+ overall_time +:+ " 
~~~~~~~~~~~~~~~~~~~~~~~~~~~~~~ 
Saving to " +:+ saved_model_path +:+ ". 
Output @ " +:+ folder +:+ " 
".

Definition getattr {A} (name : string) (a : option A) : result A :=
  match a with Some x => Ok x | None => Raise (AttributeError name) end.

Definition log_epoch_to_stdout : Handler := λ st w,
  let epoch_time := format_hms (epoch_time w) in
  let overall_time := format_hms (overall_time w) in
  let epoch_number := epoch st in
  let total_epochs := max_epochs st in
  let validation_loss :=
    match getitem (epoch_history st) "validation/loss" ≫= last_item with
    | Ok v => format_04f v
    | Raise _ => "N/A"
    end in
  let logging_str :=
    train_loss ← getitem (epoch_history st) "train/loss" ≫= last_item ;
    saved_model_path ← getattr "saved_model_path" (saved_model_path st) ;
    folder ← getattr "output_folder" (output_folder st) ;
    Ok (summary epoch_number total_epochs train_loss validation_loss
                epoch_time overall_time saved_model_path folder) in
  match logging_str with
  | Ok logging_str => (Ok tt, st, emit (LoggingInfo logging_str) w)
  | Raise e => (Raise e, st, w)
  end.

(** The two timers only keep time; their handlers change neither the
    state nor the trace and are left out. *)
Definition add_stdout_handler (trainer : Engine TrainerEvents)
    : Engine TrainerEvents :=
  add_custom_handler trainer (Validation VALIDATION_COMPLETED) log_epoch_to_stdout.

(** *** add_tensorboard_handler *)

Definition log_to_tensorboard (output_folder : string) : Handler :=
  st ← get_state ;
  let writer := os_path_join output_folder ["tensorboard"] in
  map_fold (λ key values (acc : M unit),
              acc ;;
              v ← lift (last_item values) ;
              perform (AddScalar writer key v (epoch st)))
           (mret tt) (epoch_history st).

Definition add_tensorboard_handler (output_folder : string)
    (engine : Engine TrainerEvents) : Engine TrainerEvents :=
  add_custom_handler engine (Validation VALIDATION_COMPLETED)
    (log_to_tensorboard output_folder).

(** ** Notions used in the statements *)

Definition outcome_of {A} (r : result A * State * World) : result A := r.1.1.
Definition state_of {A} (r : result A * State * World) : State := r.1.2.
Definition world_of {A} (r : result A * State * World) : World := r.2.

(** This epoch's values of a key so far: the contents of the list object
    [iter_history[key]], nothing when the key is absent. *)
Definition values (st : State) (key : string) : list Q :=
  match iter_history st !! key with
  | Some l => deref st l
  | None => []
  end.

(** The entries of [past_iter_history[key]], nothing when the key is
    absent. *)
Definition entries (st : State) (key : string) : list nat :=
  default [] (past_iter_history st !! key).

(** The lists of [iter_history] are allocated objects, one per key. *)
Definition wf_histories (st : State) : Prop :=
  (∀ key l, iter_history st !! key = Some l → l < length (store st)) ∧
  (∀ key1 key2 l, iter_history st !! key1 = Some l →
                  iter_history st !! key2 = Some l → key1 = key2).

(** The state after the iteration-completed events of a sequence of
    step outputs, as far as [add_to_iter_history] is concerned. *)
Definition after_iterations (outs : list (gmap string Q)) (st : State) (w : World)
    : State :=
  foldl (λ st out, state_of (add_to_iter_history (set_output out st) w)) st outs.

(** The outputs of the step function [f] during one pass over [data]
    that starts when [c] steps have been taken; every batch is prepared
    by [prep] first. *)
Fixpoint pass_outputs (prep : gmap string entry → result (gmap string entry))
    (f : nat → gmap string entry → result (gmap string Q)) (c : nat)
    (data : list (gmap string entry)) : result (list (gmap string Q)) :=
  match data with
  | [] => Ok []
  | b :: data' =>
      b' ← prep b ;
      out ← f c b' ;
      outs ← pass_outputs prep f (S c) data' ;
      Ok (out :: outs)
  end.

(** The values of [key] in a sequence of outputs, in order. *)
Definition key_values (key : string) (outs : list (gmap string Q)) : list Q :=
  omap (λ out : gmap string Q, out !! key) outs.

(** A handler that only looks: it leaves the run state alone and calls no
    step function. *)
Definition observer (h : Handler) : Prop :=
  ∀ st w, state_of (h st w) = st ∧ calls (world_of (h st w)) = calls w.

(** A training script: the two engines, the checkpoint handler, and the
    handlers [subscribers] registered on the trainer's own events. *)
Definition training_setup (rt : Runtime)
    (train_func : nat → gmap string entry → result (gmap string Q))
    (val_func : option (nat → gmap string entry → result (gmap string Q)))
    (device : string) (subscribers : TrainerEvents → list Handler)
    (output_folder : string) (model : Model) (optimizer : Optimizer)
    (train_data : TrainData) (val_data : list (gmap string entry))
    : result (Engine TrainerEvents) :=
  engines ← create_train_and_validation_engines rt train_func val_func device ;
  Ok (add_validate_and_checkpoint output_folder model optimizer train_data
        val_data engines.2 (with_custom_handlers engines.1 subscribers)).

(** The number of steps taken during one epoch of training followed by
    validation. *)
Definition steps_per_epoch {A} (val_func : option A)
    (data val_data : list (gmap string entry)) : nat :=
  length data + match val_func with Some _ => length val_data | None => 0 end.

(** The outputs of a pass that starts after [c] steps; nothing if the
    pass fails. *)
Definition outputs_from (prep : gmap string entry → result (gmap string entry))
    (f : nat → gmap string entry → result (gmap string Q)) (c : nat)
    (data : list (gmap string entry)) : list (gmap string Q) :=
  match pass_outputs prep f c data with
  | Ok outs => outs
  | Raise _ => []
  end.

(** The entry of the epoch history for a key after an epoch in which the
    key took the values [vs]: nothing is appended when there are none. *)
Definition appended (old : option (list Q)) (vs : list Q) : option (list Q) :=
  match vs with
  | [] => old
  | _ => Some (default [] old ++ [mean vs])
  end.

(** What [save_checkpoints] writes for a list of model paths when no
    write fails. *)
Definition checkpoint_writes (output_folder : string) (model : Model)
    (optimizer : Optimizer) (metadata : Metadata) (paths : list string)
    : list effect :=
  flat_map (λ _path,
              [MakeDirs (os_path_join output_folder ["checkpoints"]);
               ModelSave _path (unwrap model) metadata;
               TorchSave (optimizer_path _path) (state_dict optimizer)])
           paths.

(** The states the handlers of one event are called with, in order. *)
Fixpoint observed_states (hs : list Handler) (st : State) (w : World)
    : list State :=
  match hs with
  | [] => []
  | h :: hs' =>
      st :: match h st w with
            | (Ok _, st', w') => observed_states hs' st' w'
            | (Raise _, _, _) => []
            end
  end.

(** The interval between progress messages as the specification words
    it: [ceil(length × frequency)], at least 1. *)
Definition log_interval_spec (len : nat) (log_frequency : Q) : nat :=
  Z.to_nat (Z.max (Qceiling (inject_Z (Z.of_nat len) * log_frequency)) 1).

(** The iterations of a pass of [len] items at which a handler filtered
    with [every n] runs. *)
Definition logged_iterations (n len : nat) : list nat :=
  filter (λ i, i `mod` n = 0) (seq 1 len).

(** Projections of an effect trace. *)
Definition log_lines (tr : list effect) : list string :=
  omap (λ e, match e with LoggingInfo msg => Some msg | _ => None end) tr.

Definition model_files (tr : list effect) : list string :=
  omap (λ e, match e with ModelSave p _ _ => Some p | _ => None end) tr.

Definition optimizer_files (tr : list effect) : list string :=
  omap (λ e, match e with TorchSave p _ => Some p | _ => None end) tr.

(** What [prepare_batch] makes of an entry when the move succeeds. *)
Definition prepared (device : Torch.device) (e : entry) : entry :=
  match e with
  | Tensor t =>
      Tensor {| tensor_dtype := Float32; tensor_device := device;
                tensor_data := tensor_data t |}
  | Other _ => e
  end.

(** An epoch history as the checkpoint handler builds it: every key is
    qualified by [train/], or by [validation/] when there is a validator,
    and no list is empty. *)
Definition qualified_history (with_validator : bool)
    (epoch_history : gmap string (list Q)) : Prop :=
  ∀ k l, epoch_history !! k = Some l →
    l ≠ [] ∧
    ((∃ key, k = "train/" +:+ key) ∨
     (with_validator = true ∧ ∃ key, k = "validation/" +:+ key)).

(** A string occurs in another. *)
Definition occurs (old s : string) : Prop :=
  ∃ a b, s = a +:+ old +:+ b.

(** ** Concrete runs *)

Module Examples.

Definition cpu_only : Runtime :=
  {| cuda_is_available := false; device_present := λ _, false |}.

(** A machine with one GPU. *)
Definition one_gpu : Runtime :=
  {| cuda_is_available := true;
     device_present := λ d,
       match d with
       | Device t (Some (S _)) => false
       | Device t _ => String.eqb t "cuda"
       end |}.

(** A process that starts with no directory made and no step taken. *)
Definition world0 : World :=
  {| trace := []; calls := 0; epoch_time := 3; overall_time := 32 |}.

(** The same after [c] steps. *)
Definition world_at (c : nat) : World :=
  {| trace := []; calls := c; epoch_time := 3; overall_time := 32 |}.

(** The same with the directory [runs/optimizer.pth/checkpoints] found
    at the start. *)
Definition stray_dir_world : World :=
  {| trace := [MakeDirs "runs/optimizer.pth/checkpoints"]; calls := 0;
     epoch_time := 3; overall_time := 32 |}.

Definition item : gmap string entry :=
  {[ "mix_magnitude" :=
       Tensor {| tensor_dtype := Float64; tensor_device := cpu;
                 tensor_data := 7 |};
     "path" := Other "mix.wav" ]}.

Definition train_data : TrainData :=
  {| stft_params := "STFTParams(512, 128, 'hann')"; sample_rate := 44100%N;
     num_channels := 1; folder := "data/train"; transform := ["Cache"] |}.

Definition model : Model := DataParallel (SeparationModel "weights").

Definition optimizer : Optimizer := {| state_dict := "adam" |}.

Definition no_subscribers : TrainerEvents → list Handler := λ _, [].

Definition stdout_subscribers : TrainerEvents → list Handler := λ ev,
  if bool_decide (ev = Validation VALIDATION_COMPLETED)
  then [log_epoch_to_stdout] else [].

(** A training step whose loss is the number of steps taken so far. *)
Definition train_func (c : nat) (b : gmap string entry) : result (gmap string Q) :=
  Ok {[ "loss" := inject_Z (Z.of_nat c) ]}.

(** A validation step over one batch per epoch after two training steps:
    the losses of scenario C, [0.9, 0.5, 0.6, 0.4, 0.4]. *)
Definition val_func (c : nat) (b : gmap string entry) : result (gmap string Q) :=
  Ok {[ "loss" := nth (c / 3) [9 # 10; 5 # 10; 6 # 10; 4 # 10; 4 # 10]%Q 0%Q ]}.

(** A training step that reports no key named [loss]. *)
Definition l1_func (c : nat) (b : gmap string entry) : result (gmap string Q) :=
  Ok {[ "L1Loss" := (1 # 2)%Q ]}.

(** A training step that raises at its fifteenth call: with eight
    batches per epoch and no validation, iteration 7 of epoch 2. *)
Definition failing_func (c : nat) (b : gmap string entry) : result (gmap string Q) :=
  if c =? 14 then Raise (UserError "step failed")
  else Ok {[ "loss" := (1 # 2)%Q ]}.

Definition validator : Engine Empty_set :=
  attach_bookkeeping cpu_only (new_engine val_func) cpu.

Definition trainer (f : nat → gmap string entry → result (gmap string Q))
    (validator : option (Engine Empty_set))
    (subscribers : TrainerEvents → list Handler) (output_folder : string)
    : Engine TrainerEvents :=
  add_validate_and_checkpoint output_folder model optimizer train_data [item]
    validator
    (with_custom_handlers (attach_bookkeeping cpu_only (new_engine f) cpu)
       subscribers).

(** A state in the middle of an epoch: one value of [loss] so far. *)
Definition mid_epoch : State :=
  {| iteration := 2; epoch := 1; max_epochs := 3; epoch_length := 2;
     seed := 0; metrics := ∅; batch := item;
     output := {[ "loss" := (1 # 4)%Q ]};
     store := [[(1 # 2)%Q]];
     epoch_history := ∅;
     iter_history := {[ "loss" := 0 ]};
     past_iter_history := {[ "loss" := [0] ]};
     saved_model_path := None; output_folder := None |}.

(** A state at the end of an epoch with no entry for [train/loss]. *)
Definition no_train_loss : State :=
  {| iteration := 2; epoch := 1; max_epochs := 3; epoch_length := 2;
     seed := 0; metrics := ∅; batch := item; output := ∅; store := [];
     epoch_history := {[ "train/L1Loss" := [(1 # 2)%Q] ]};
     iter_history := ∅; past_iter_history := ∅;
     saved_model_path := Some "out/checkpoints/best.model.pth";
     output_folder := Some "out" |}.

(** The same with an entry for [train/loss] and none for validation. *)
Definition no_validation_loss : State :=
  {| iteration := 2; epoch := 1; max_epochs := 3; epoch_length := 2;
     seed := 0; metrics := ∅; batch := item; output := ∅; store := [];
     epoch_history := {[ "train/loss" := [(583591 # 1000000)%Q] ]};
     iter_history := ∅; past_iter_history := ∅;
     saved_model_path := Some "out/checkpoints/best.model.pth";
     output_folder := Some "out" |}.

Definition dataset (n : nat) : Dataset :=
  {| items := replicate n item; cache_populated := false |}.

(** Scenario C: five epochs of two training steps and one validation
    step each. *)
Definition scenario_C_trainer : Engine TrainerEvents :=
  trainer train_func (Some validator) no_subscribers "out".

Definition scenario_C : result unit * State * World :=
  run scenario_C_trainer [item; item] 5 0 world0.

(** Scenario D: eight batches per epoch, no validation, and a step that
    raises at iteration 7 of epoch 2. *)
Definition scenario_D_data : list (gmap string entry) :=
  replicate 6 item ++ item :: [item].

Definition scenario_D_trainer : Engine TrainerEvents :=
  trainer failing_func None no_subscribers "out".

Definition scenario_D_first_epoch : result unit * State * World :=
  run_epochs scenario_D_trainer scenario_D_data 1
    (initial_state scenario_D_data 3 0) world0.

Definition scenario_D : result unit * State * World :=
  run scenario_D_trainer scenario_D_data 3 0 world0.

(** A run whose training step reports [L1Loss] only, with the stdout
    handler subscribed. *)
Definition l1_run : result unit * State * World :=
  run (trainer l1_func None stdout_subscribers "out") [item] 3 0 world0.

(** The checkpoint handler with an output folder named after a model
    file. *)
Definition bad_folder : result unit * State * World :=
  validate_and_checkpoint "runs/model.pth" model optimizer train_data []
    None no_subscribers mid_epoch world0.

Definition bad_folder_stray_dir : result unit * State * World :=
  validate_and_checkpoint "runs/model.pth" model optimizer train_data []
    None no_subscribers mid_epoch stray_dir_world.

(** The checkpoint handler at the end of an epoch, with the stdout
    handler subscribed. *)
Definition end_of_epoch : State :=
  {| iteration := 2; epoch := 1; max_epochs := 3; epoch_length := 2;
     seed := 0; metrics := ∅; batch := item;
     output := {[ "loss" := (1 # 4)%Q ]};
     store := [[(1 # 2)%Q; (1 # 4)%Q]];
     epoch_history := ∅;
     iter_history := {[ "loss" := 0 ]};
     past_iter_history := {[ "loss" := [0; 0] ]};
     saved_model_path := None; output_folder := None |}.


Definition accuracy_func (c : nat) (b : gmap string entry)
    : result (gmap string Q) := Ok {[ "accuracy" := (3 # 4)%Q ]}.

(** The end of a third epoch, the first two having recorded validation
    losses. *)
Definition third_epoch : State :=
  {| iteration := 6; epoch := 3; max_epochs := 5; epoch_length := 2;
     seed := 0; metrics := ∅; batch := item;
     output := {[ "loss" := (1 # 4)%Q ]};
     store := [[(1 # 2)%Q; (1 # 4)%Q]];
     epoch_history := {[ "validation/loss" := [(9 # 10)%Q; (1 # 2)%Q] ]};
     iter_history := {[ "loss" := 0 ]};
     past_iter_history := {[ "loss" := [0; 0] ]};
     saved_model_path := Some "out/checkpoints/best.model.pth";
     output_folder := Some "out" |}.

Definition checkpointed : result bool * State * World :=
  checkpoint "out" model optimizer train_data [item] None stdout_subscribers
    end_of_epoch world0.

End Examples.

(** * Properties *)
(** ** Bookkeeping of the iteration history *)

Section Bookkeeping.
Implicit Types (st : State) (key : string) (v : Q).

Lemma record_output_fields key v st :
  let st' := record_output key v st in
  epoch_history st' = epoch_history st ∧ iteration st' = iteration st ∧
  epoch st' = epoch st ∧ max_epochs st' = max_epochs st ∧
  epoch_length st' = epoch_length st ∧ seed st' = seed st ∧
  metrics st' = metrics st ∧ batch st' = batch st ∧ output st' = output st ∧
  saved_model_path st' = saved_model_path st ∧
  output_folder st' = output_folder st.
Proof.
  unfold record_output.
  destruct (iter_history st !! key) eqn:Hi; simpl;
    destruct (past_iter_history st !! key) eqn:Hp; simpl;
    rewrite ?Hi, ?lookup_insert_eq; simpl; repeat split; reflexivity.
Qed.

Lemma record_output_same key v st :
  wf_histories st →
  let st' := record_output key v st in
  wf_histories st' ∧
  ∃ l, iter_history st' !! key = Some l ∧
       store st' !! l = Some (values st key ++ [v]) ∧
       past_iter_history st' !! key = Some (entries st key ++ [l]).
Proof.
  intros [Hran Hinj]. unfold record_output, values, entries, deref.
  destruct (iter_history st !! key) as [l|] eqn:Hi.
  - assert (Hl : l < length (store st)) by eauto.
    destruct (lookup_lt_is_Some_2 _ _ Hl) as [vs Hvs].
    simpl. destruct (past_iter_history st !! key) as [ls|] eqn:Hp; simpl;
      rewrite Hi; simpl.
    + split.
      * split; simpl; intros; rewrite ?length_alter; eauto.
      * exists l. rewrite list_lookup_alter_eq, Hvs, lookup_alter_eq, Hp. done.
    + split.
      * split; simpl; intros; rewrite ?length_alter; eauto.
      * exists l. rewrite list_lookup_alter_eq, Hvs, lookup_alter_eq,
          lookup_insert_eq. done.
  - assert (Hfresh : ∀ k l, iter_history st !! k = Some l → l ≠ length (store st)).
    { intros k l Hk. apply Hran in Hk. lia. }
    assert (Hnew : (store st ++ [[]]) !! length (store st) = Some ([] : list Q)).
    { by rewrite lookup_app_r, Nat.sub_diag by lia. }
    assert (Hwf : ∀ st',
      iter_history st' = <[key:=length (store st)]> (iter_history st) →
      length (store st') = S (length (store st)) →
      wf_histories st').
    { intros st' Hih Hlen. split; rewrite Hih, ?Hlen.
      - intros k l. rewrite lookup_insert. case_decide; intros Hk.
        + injection Hk as <-. lia.
        + apply Hran in Hk. lia.
      - intros k1 k2 l. rewrite !lookup_insert.
        repeat case_decide; subst; try done; intros H1 H2.
        + injection H1 as <-. by apply Hfresh in H2.
        + injection H2 as <-. by apply Hfresh in H1.
        + eauto. }
    simpl. destruct (past_iter_history st !! key) as [ls|] eqn:Hp; simpl;
      rewrite lookup_insert_eq; simpl.
    + split.
      * apply Hwf; simpl; [done|].
        rewrite length_alter, length_app. simpl. lia.
      * exists (length (store st)).
        rewrite lookup_insert_eq, list_lookup_alter_eq, Hnew, lookup_alter_eq, Hp.
        done.
    + split.
      * apply Hwf; simpl; [done|].
        rewrite length_alter, length_app. simpl. lia.
      * exists (length (store st)).
        rewrite lookup_insert_eq, list_lookup_alter_eq, Hnew, lookup_alter_eq,
          lookup_insert_eq.
        done.
Qed.

Lemma record_output_other key v st key' :
  key ≠ key' → wf_histories st →
  let st' := record_output key v st in
  iter_history st' !! key' = iter_history st !! key' ∧
  values st' key' = values st key' ∧
  past_iter_history st' !! key' = past_iter_history st !! key'.
Proof.
  intros Hne [Hran Hinj]. unfold record_output, values, deref.
  destruct (iter_history st !! key) as [l|] eqn:Hi; simpl.
  - destruct (past_iter_history st !! key) as [ls|] eqn:Hp; simpl;
      rewrite Hi; simpl; rewrite lookup_alter_ne, ?lookup_insert_ne by done;
      (split; [done|]); (split; [|done]);
      destruct (iter_history st !! key') as [l'|] eqn:Hi'; try done;
      rewrite list_lookup_alter_ne; [done| |done|];
      intros ->; apply Hne; eauto.
  - destruct (past_iter_history st !! key) as [ls|] eqn:Hp; simpl;
      rewrite lookup_insert_eq; simpl;
      rewrite lookup_alter_ne, !lookup_insert_ne by done;
      (split; [done|]); (split; [|done]);
      destruct (iter_history st !! key') as [l'|] eqn:Hi'; try done;
      apply Hran in Hi';
      rewrite list_lookup_alter_ne, lookup_app_l by lia; done.
Qed.

(** What [add_to_iter_history] does to each key, present in the output
    or not. *)
Lemma add_outputs_spec (out : gmap string Q) st :
  wf_histories st →
  let st' := map_fold record_output st out in
  wf_histories st' ∧
  ∀ key,
    match out !! key with
    | Some v =>
        ∃ l, iter_history st' !! key = Some l ∧
             store st' !! l = Some (values st key ++ [v]) ∧
             past_iter_history st' !! key = Some (entries st key ++ [l])
    | None =>
        iter_history st' !! key = iter_history st !! key ∧
        values st' key = values st key ∧
        past_iter_history st' !! key = past_iter_history st !! key
    end.
Proof.
  intros Hwf. simpl.
  apply (map_fold_weak_ind (λ st' (m : gmap string Q),
    wf_histories st' ∧
    ∀ key,
      match m !! key with
      | Some v =>
          ∃ l, iter_history st' !! key = Some l ∧
               store st' !! l = Some (values st key ++ [v]) ∧
               past_iter_history st' !! key = Some (entries st key ++ [l])
      | None =>
          iter_history st' !! key = iter_history st !! key ∧
          values st' key = values st key ∧
          past_iter_history st' !! key = past_iter_history st !! key
      end)).
  - split; [done|]. intros key. by rewrite lookup_empty.
  - intros i x m r Hm [Hwfr IH].
    destruct (record_output_same i x r Hwfr) as [Hwf' (l & Hl1 & Hl2 & Hl3)].
    split; [done|]. intros key. rewrite lookup_insert. case_decide.
    + subst key. specialize (IH i). rewrite Hm in IH.
      destruct IH as (IH1 & IH2 & IH3).
      exists l. rewrite Hl1, Hl2, Hl3, IH2. unfold entries. by rewrite IH3.
    + destruct (record_output_other i x r key) as (H1 & H2 & H3); [done..|].
      specialize (IH key). destruct (m !! key) as [v|].
      * destruct IH as (l' & IH1 & IH2 & IH3). exists l'.
        rewrite H1, H3. split; [done|]. split; [|done].
        unfold values, deref in H2. rewrite H1, IH1, IH2 in H2.
        destruct (store (record_output i x r) !! l') eqn:E; simpl in H2;
          [by subst|].
        destruct Hwf' as [Hran _]. rewrite <- H1 in IH1.
        apply Hran in IH1. apply lookup_ge_None in E. lia.
      * destruct IH as (IH1 & IH2 & IH3). by rewrite H1, H2, H3.
Qed.

Lemma add_outputs_fields (out : gmap string Q) st :
  let st' := map_fold record_output st out in
  epoch_history st' = epoch_history st ∧ iteration st' = iteration st ∧
  epoch st' = epoch st ∧ max_epochs st' = max_epochs st ∧
  epoch_length st' = epoch_length st ∧ seed st' = seed st ∧
  metrics st' = metrics st ∧ batch st' = batch st ∧ output st' = output st ∧
  saved_model_path st' = saved_model_path st ∧
  output_folder st' = output_folder st.
Proof.
  simpl. apply (map_fold_weak_ind (λ st' (_ : gmap string Q),
    epoch_history st' = epoch_history st ∧ iteration st' = iteration st ∧
    epoch st' = epoch st ∧ max_epochs st' = max_epochs st ∧
    epoch_length st' = epoch_length st ∧ seed st' = seed st ∧
    metrics st' = metrics st ∧ batch st' = batch st ∧ output st' = output st ∧
    saved_model_path st' = saved_model_path st ∧
    output_folder st' = output_folder st)).
  - repeat split.
  - intros i x m r _ IH.
    pose proof (record_output_fields i x r) as H. simpl in H.
    destruct H as (?&?&?&?&?&?&?&?&?&?&?).
    destruct IH as (?&?&?&?&?&?&?&?&?&?&?).
    repeat split; congruence.
Qed.

Lemma values_after (out : gmap string Q) st key :
  wf_histories st →
  values (map_fold record_output st out) key =
  values st key ++ option_list (out !! key).
Proof.
  intros Hwf. destruct (add_outputs_spec out st Hwf) as [_ H].
  specialize (H key). destruct (out !! key) as [v|]; simpl.
  - destruct H as (l & H1 & H2 & _). unfold values at 1, deref.
    by rewrite H1, H2.
  - destruct H as (_ & H & _). by rewrite H, app_nil_r.
Qed.
End Bookkeeping.

Section IterHistory.
Implicit Types (st : State) (w : World) (key : string).

Lemma add_to_iter_history_eq st w :
  add_to_iter_history st w = (Ok tt, map_fold record_output st (output st), w).
Proof. reflexivity. Qed.

Lemma after_iterations_cons out outs st w :
  after_iterations (out :: outs) st w =
  after_iterations outs (map_fold record_output (set_output out st) out) w.
Proof. reflexivity. Qed.

(** The list object of a key that is already there is kept. *)
Lemma iter_history_kept (m : gmap string Q) st key l :
  iter_history st !! key = Some l →
  iter_history (map_fold record_output st m) !! key = Some l.
Proof.
  intros Hl. apply (map_fold_weak_ind (λ r (_ : gmap string Q),
    iter_history r !! key = Some l)); [exact Hl|].
  intros i x m' r _ Hr. unfold record_output.
  destruct (decide (i = key)) as [->|Hne].
  - rewrite Hr. simpl.
    destruct (past_iter_history r !! key); simpl; by rewrite Hr.
  - destruct (iter_history r !! i) eqn:Hi; simpl;
      destruct (past_iter_history r !! i); simpl;
      rewrite ?Hi, ?lookup_insert_eq; simpl;
      rewrite ?lookup_insert_ne by done; exact Hr.
Qed.

Lemma after_iterations_spec key w outs : ∀ vs st,
  wf_histories st →
  Forall2 (λ out v, out !! key = Some v) outs vs →
  wf_histories (after_iterations outs st w) ∧
  values (after_iterations outs st w) key = values st key ++ vs ∧
  ∀ l, iter_history st !! key = Some l →
       iter_history (after_iterations outs st w) !! key = Some l ∧
       entries (after_iterations outs st w) key =
         entries st key ++ replicate (length outs) l.
Proof.
  induction outs as [|out outs IH]; intros vs st Hwf Hall.
  - inversion Hall; subst. simpl. rewrite !app_nil_r. eauto.
  - inversion Hall as [|? v ? vs' Hv Hall']; subst.
    rewrite after_iterations_cons.
    set (st0 := set_output out st).
    assert (Hwf0 : wf_histories st0) by exact Hwf.
    destruct (add_outputs_spec out st0 Hwf0) as [Hwf1 Hkey].
    specialize (Hkey key). rewrite Hv in Hkey.
    destruct Hkey as (l1 & H1 & H2 & H3).
    destruct (IH vs' _ Hwf1 Hall') as (Hwf' & Hvals & Hent).
    split; [exact Hwf'|]. split.
    + rewrite Hvals. unfold values at 1, deref. rewrite H1, H2. simpl.
      change (values st0 key) with (values st key). by rewrite <- app_assoc.
    + intros l Hl.
      assert (l1 = l) as ->.
      { pose proof (iter_history_kept out st0 key l Hl) as Hk. congruence. }
      destruct (Hent l H1) as [Hl' He]. split; [exact Hl'|].
      rewrite He. unfold entries at 1. rewrite H3. simpl.
      change (entries st0 key) with (entries st key).
      by rewrite <- app_assoc.
Qed.
End IterHistory.

Lemma wf_histories_empty (st : State) :
  iter_history st = ∅ → wf_histories st.
Proof.
  intros H. split; intros *; rewrite H, lookup_empty; discriminate.
Qed.

(** C8: on an iteration-completed event whose output has [key],
    [add_to_iter_history] appends the value to the list
    [iter_history[key]] and then appends that very list, holding all of
    this epoch's values so far, to [past_iter_history[key]]; after [i]
    such events [past_iter_history[key]] has [i] more entries, each of
    them the list of [iter_history[key]]. *)
Theorem add_to_iter_history_appends (st : State) (w : World) (key : string) :
  wf_histories st →
  (∀ v, output st !! key = Some v →
     outcome_of (add_to_iter_history st w) = Ok tt ∧
     ∃ l, iter_history (state_of (add_to_iter_history st w)) !! key = Some l ∧
          store (state_of (add_to_iter_history st w)) !! l
            = Some (values st key ++ [v]) ∧
          past_iter_history (state_of (add_to_iter_history st w)) !! key
            = Some (entries st key ++ [l])) ∧
  (∀ outs vs, Forall2 (λ out v, out !! key = Some v) outs vs →
     length (entries (after_iterations outs st w) key)
       = length (entries st key) + length outs ∧
     (outs ≠ [] →
      ∃ l, iter_history (after_iterations outs st w) !! key = Some l ∧
           store (after_iterations outs st w) !! l = Some (values st key ++ vs) ∧
           entries (after_iterations outs st w) key
             = entries st key ++ replicate (length outs) l)).
Proof.
  intros Hwf. split.
  - intros v Hv. split; [reflexivity|].
    rewrite add_to_iter_history_eq. unfold state_of. simpl.
    destruct (add_outputs_spec (output st) st Hwf) as [_ H].
    specialize (H key). by rewrite Hv in H.
  - intros outs vs Hall.
    assert (Hne : outs ≠ [] →
      ∃ l, iter_history (after_iterations outs st w) !! key = Some l ∧
           store (after_iterations outs st w) !! l = Some (values st key ++ vs) ∧
           entries (after_iterations outs st w) key
             = entries st key ++ replicate (length outs) l).
    { destruct Hall as [|out v outs' vs' Hv Hall]; [done|]. intros _.
      rewrite after_iterations_cons.
      set (st0 := set_output out st).
      assert (Hwf0 : wf_histories st0) by exact Hwf.
      destruct (add_outputs_spec out st0 Hwf0) as [Hwf1 Hkey].
      specialize (Hkey key). rewrite Hv in Hkey.
      destruct Hkey as (l & H1 & H2 & H3).
      destruct (after_iterations_spec key w outs' vs' _ Hwf1 Hall)
        as ([Hran _] & Hvals & Hent).
      destruct (Hent l H1) as [Hl He]. exists l. split; [exact Hl|]. split.
      - pose proof (Hran _ _ Hl) as Hlt.
        destruct (lookup_lt_is_Some_2 _ _ Hlt) as [xs Hxs].
        unfold values at 1, deref in Hvals. rewrite Hl, Hxs in Hvals.
        simpl in Hvals. rewrite Hxs, Hvals. unfold values at 1, deref.
        rewrite H1, H2. simpl. change (values st0 key) with (values st key).
        by rewrite <- app_assoc.
      - rewrite He. unfold entries at 1. rewrite H3. simpl.
        change (entries st0 key) with (entries st key).
        by rewrite <- app_assoc. }
    split; [|exact Hne].
    destruct outs as [|out outs'].
    + simpl. lia.
    + destruct Hne as (l & _ & _ & ->); [done|].
      by rewrite length_app, length_replicate.
Qed.

(** ** One pass of an engine with the bookkeeping handlers *)

Lemma M_bind_unfold {A B} (m : M A) (k : A → M B) st w :
  (m ≫= k) st w =
  match m st w with
  | (Ok a, st', w') => k a st' w'
  | (Raise e, st', w') => (Raise e, st', w')
  end.
Proof. reflexivity. Qed.

Section Pass.
Context {Custom : Type} (engine : Engine Custom).
Variables (rt : Runtime) (dev : Torch.device).
Hypothesis Hstarted :
  event_handlers engine ITERATION_STARTED = [λ _, prepare_batch rt dev].
Hypothesis Hcompleted :
  event_handlers engine ITERATION_COMPLETED = [λ _, add_to_iter_history].

Lemma run_once_on_dataset_cons b data st w :
  run_once_on_dataset engine (b :: data) st w =
  let st0 := set_iteration (S (iteration st)) (set_batch b st) in
  match move_entries rt dev b with
  | Raise e => (Raise e, st0, w)
  | Ok b' =>
      match process_function engine (calls w) b' with
      | Raise e => (Raise e, set_batch b' st0, tick w)
      | Ok out =>
          run_once_on_dataset engine data
            (map_fold record_output (set_output out (set_batch b' st0)) out)
            (tick w)
      end
  end.
Proof.
  simpl. unfold fire_event. rewrite Hstarted, Hcompleted. simpl.
  unfold mbind, M_bind, mret, M_ret, modify, prepare_batch,
    call_process_function. simpl.
  destruct (move_entries rt dev b) as [b'|e]; simpl; [|reflexivity].
  destruct (process_function engine (calls w) b') as [out|e]; reflexivity.
Qed.

Lemma pass_ok data : ∀ c st w outs,
  calls w = c → wf_histories st →
  pass_outputs (move_entries rt dev) (process_function engine) c data = Ok outs →
  ∃ st' w',
    run_once_on_dataset engine data st w = (Ok tt, st', w') ∧
    wf_histories st' ∧
    epoch_history st' = epoch_history st ∧
    (∀ key, values st' key = values st key ++ key_values key outs) ∧
    (∀ key, is_Some (iter_history st' !! key) ↔
            is_Some (iter_history st !! key) ∨ key_values key outs ≠ []) ∧
    calls w' = c + length data ∧ trace w' = trace w.
Proof.
  induction data as [|b data IH]; intros c st w outs Hc Hwf Hout.
  - assert (outs = []) as -> by (simpl in Hout; congruence).
    exists st, w. simpl.
    split; [done|]. split; [done|]. split; [done|]. split.
    { intros. by rewrite app_nil_r. }
    split; [intros key; split; [by left|intros [?|?]; done]|].
  split; [lia|done].
  - rewrite run_once_on_dataset_cons. simpl in Hout |- *.
    destruct (move_entries rt dev b) as [b'|e]; simpl in Hout; [|done].
    rewrite Hc.
    destruct (process_function engine c b') as [out|e]; simpl in Hout; [|done].
    destruct (pass_outputs _ _ (S c) data) as [outs'|e] eqn:Hp;
      simpl in Hout; [|done].
    injection Hout as <-.
    set (st1 := set_output out (set_batch b'
                  (set_iteration (S (iteration st)) (set_batch b st)))).
    assert (Hwf1 : wf_histories st1) by exact Hwf.
    destruct (add_outputs_spec out st1 Hwf1) as [Hwf2 Hkeys].
    destruct (IH (S c) (map_fold record_output st1 out) (tick w) outs')
      as (st' & w' & Hrun & Hwf' & Heh & Hvals & Hdom & Hcalls & Htrace);
      [simpl; lia|done|done|].
    exists st', w'. split; [exact Hrun|]. split; [exact Hwf'|]. split.
    { rewrite Heh. by destruct (add_outputs_fields out st1) as [-> _]. }
    split.
    { intros key. rewrite Hvals, values_after by done.
      change (values st1 key) with (values st key).
      unfold key_values. simpl. destruct (out !! key); simpl;
        by rewrite <- ?app_assoc, ?app_nil_r. }
    split; [|split; [simpl; lia|exact Htrace]].
    intros key. rewrite Hdom. specialize (Hkeys key).
    change (iter_history st1) with (iter_history st) in Hkeys.
    unfold key_values. simpl. destruct (out !! key) as [v|]; simpl.
    + destruct Hkeys as (l & -> & _). split; [intros _; by right|eauto].
    + destruct Hkeys as (-> & _). tauto.
Qed.

Lemma pass_raise data : ∀ c st w e,
  calls w = c →
  pass_outputs (move_entries rt dev) (process_function engine) c data = Raise e →
  ∃ st' w',
    run_once_on_dataset engine data st w = (Raise e, st', w') ∧
    epoch_history st' = epoch_history st ∧ trace w' = trace w ∧
    saved_model_path st' = saved_model_path st.
Proof.
  induction data as [|b data IH]; intros c st w e Hc Hout; [done|].
  rewrite run_once_on_dataset_cons. simpl in Hout |- *.
  destruct (move_entries rt dev b) as [b'|e']; simpl in Hout.
  2:{ injection Hout as ->. eauto 10. }
  rewrite Hc.
  destruct (process_function engine c b') as [out|e']; simpl in Hout.
  2:{ injection Hout as ->. eauto 10. }
  destruct (pass_outputs _ _ (S c) data) as [outs'|e'] eqn:Hp;
    simpl in Hout; [done|].
  injection Hout as ->.
  set (st1 := set_output out (set_batch b'
                (set_iteration (S (iteration st)) (set_batch b st)))).
  destruct (IH (S c) (map_fold record_output st1 out) (tick w) e)
    as (st' & w' & Hrun & Heh & Htrace & Hsaved); [simpl; lia|done|].
  exists st', w'. split; [exact Hrun|].
  destruct (add_outputs_fields out st1) as (E1 &_&_&_&_&_&_&_&_& E2 &_).
  rewrite Heh, Htrace, Hsaved, E1, E2. done.
Qed.

(** The step function raises at the iteration after [data1]: the pass
    stops there, with one call for the failing iteration and none
    after it. *)
Lemma pass_step_raise data1 : ∀ c st w outs1 b b' data2 e,
  calls w = c →
  pass_outputs (move_entries rt dev) (process_function engine) c data1
    = Ok outs1 →
  move_entries rt dev b = Ok b' →
  process_function engine (c + length data1) b' = Raise e →
  ∃ st' w',
    run_once_on_dataset engine (data1 ++ b :: data2) st w = (Raise e, st', w') ∧
    epoch_history st' = epoch_history st ∧ trace w' = trace w ∧
    calls w' = c + length data1 + 1 ∧
    iteration st' = iteration st + length data1 + 1.
Proof.
  induction data1 as [|b1 data1 IH]; intros c st w outs1 b b' data2 e
    Hc Hp Hb He; simpl app; rewrite run_once_on_dataset_cons; simpl.
  - rewrite Hb, Hc. rewrite Nat.add_0_r in He. rewrite He.
    eexists _, _. split; [done|]. simpl. repeat split; lia.
  - simpl in Hp.
    destruct (move_entries rt dev b1) as [b1'|e1]; simpl in Hp; [|done].
    rewrite Hc.
    destruct (process_function engine c b1') as [out|e1]; simpl in Hp; [|done].
    destruct (pass_outputs _ _ (S c) data1) as [outs'|e1] eqn:Hp';
      simpl in Hp; [|done].
    set (st1 := set_output out (set_batch b1'
                  (set_iteration (S (iteration st)) (set_batch b1 st)))).
    destruct (IH (S c) (map_fold record_output st1 out) (tick w) outs'
                b b' data2 e)
      as (st' & w' & Hrun & Heh & Htrace & Hcalls & Hit);
      [simpl; lia|done|done|by rewrite <- He; f_equal; simpl; lia|].
    exists st', w'. split; [exact Hrun|].
    destruct (add_outputs_fields out st1) as (E1 & E2 & _).
    rewrite Heh, Htrace, Hcalls, Hit, E1, E2. simpl. repeat split; lia.
Qed.
End Pass.

(** ** The loop over epochs *)

Section Epochs.
Context {Custom : Type} (engine : Engine Custom).

Lemma run_epochs_add data n m : ∀ st w,
  run_epochs engine data (n + m) st w =
  match run_epochs engine data n st w with
  | (Ok _, st1, w1) => run_epochs engine data m st1 w1
  | (Raise e, st1, w1) => (Raise e, st1, w1)
  end.
Proof.
  induction n as [|n IH]; intros st w; [done|].
  simpl. rewrite !M_bind_unfold.
  destruct (run_epoch engine data st w) as [[[[]|e] st1] w1]; [|done].
  apply IH.
Qed.
End Epochs.

(** ** Appending the means of an iteration history *)

Lemma append_inj (p a b : string) : p +:+ a = p +:+ b → a = b.
Proof. induction p as [|c p IH]; simpl; [done|]. intros H. injection H. auto. Qed.

Lemma train_not_validation (a b : string) : "train/" +:+ a ≠ "validation/" +:+ b.
Proof. discriminate. Qed.

Section AppendMeans.
Variables (prefix : string) (src : State).
Implicit Types (eh : gmap string (list Q)).

Lemma append_means_lookup eh key :
  append_means prefix src eh !! (prefix +:+ key) =
  match iter_history src !! key with
  | Some l =>
      Some (default [] (eh !! (prefix +:+ key)) ++ [mean (deref src l)])
  | None => eh !! (prefix +:+ key)
  end.
Proof.
  unfold append_means.
  apply (map_fold_weak_ind (λ r (m : gmap string nat),
    r !! (prefix +:+ key) =
    match m !! key with
    | Some l =>
        Some (default [] (eh !! (prefix +:+ key)) ++ [mean (deref src l)])
    | None => eh !! (prefix +:+ key)
    end)).
  - by rewrite lookup_empty.
  - intros i l m r Hm IH. simpl. rewrite lookup_insert.
    destruct (decide (i = key)) as [->|Hne].
    + rewrite decide_True by done. rewrite lookup_insert_eq.
      by rewrite IH, Hm.
    + rewrite decide_False by (intros H%append_inj; done).
      by rewrite lookup_insert_ne.
Qed.

Lemma append_means_other eh k :
  (∀ key, k ≠ prefix +:+ key) →
  append_means prefix src eh !! k = eh !! k.
Proof.
  intros Hk. unfold append_means.
  apply (map_fold_weak_ind (λ r (_ : gmap string nat), r !! k = eh !! k));
    [done|].
  intros i l m r _ IH. simpl. rewrite lookup_insert_ne; [done|].
  intros H. by apply (Hk i).
Qed.

(** Every list keeps its entries and gets at most one more. *)
Lemma append_means_grows eh k :
  ∃ tl, default [] (append_means prefix src eh !! k)
          = default [] (eh !! k) ++ tl ∧ length tl ≤ 1.
Proof.
  unfold append_means.
  apply (map_fold_weak_ind (λ r (m : gmap string nat),
    (∃ tl, default [] (r !! k) = default [] (eh !! k) ++ tl ∧ length tl ≤ 1) ∧
    ∀ key, m !! key = None → r !! (prefix +:+ key) = eh !! (prefix +:+ key))).
  - split; [|done]. exists []. rewrite app_nil_r. split; [done|simpl; lia].
  - intros i l m r Hm [IH1 IH2]. simpl. split.
    + rewrite lookup_insert. case_decide.
      * subst k. exists [mean (deref src l)]. rewrite IH2 by done.
        split; [done|simpl; lia].
      * exact IH1.
    + intros key. rewrite lookup_insert. case_decide; [done|]. intros Hk.
      rewrite lookup_insert_ne by (intros H'%append_inj; done). auto.
Qed.
End AppendMeans.

(** ** Handlers that only observe *)

Lemma run_handlers_observer (hs : list Handler) :
  Forall observer hs → observer (run_handlers hs).
Proof.
  induction 1 as [|h hs Hh _ IH]; intros st w; [done|].
  simpl. rewrite M_bind_unfold.
  destruct (Hh st w) as [H1 H2].
  destruct (h st w) as [[[[]|e] st1] w1]; unfold state_of, world_of in H1, H2;
    simpl in H1, H2; subst.
  - destruct (IH st w1) as [H3 H4]. split; [exact H3|]. by rewrite H4.
  - done.
Qed.

Lemma log_epoch_to_stdout_observer : observer log_epoch_to_stdout.
Proof.
  intros st w. unfold log_epoch_to_stdout.
  destruct (_ ≫= _) as [s|e]; done.
Qed.

Lemma log_to_tensorboard_observer (output_folder : string) :
  observer (log_to_tensorboard output_folder).
Proof.
  intros st w. unfold log_to_tensorboard. rewrite M_bind_unfold. simpl.
  generalize (epoch_history st). intros m. revert w.
  apply (map_fold_weak_ind (λ (r : M unit) (_ : gmap string (list Q)),
    ∀ w, state_of (r st w) = st ∧ calls (world_of (r st w)) = calls w)).
  - done.
  - intros key l m' r _ IH w. rewrite M_bind_unfold.
    destruct (IH w) as [H1 H2].
    destruct (r st w) as [[[[]|e] st1] w1]; unfold state_of, world_of in H1, H2;
      simpl in H1, H2; subst; [|done].
    rewrite M_bind_unfold. unfold lift.
    destruct (last_item l); simpl; done.
Qed.

(** ** The validation pass *)

Section Validator.
Variables (rt : Runtime) (dev : Torch.device).
Variable val_func : nat → gmap string entry → result (gmap string Q).
Variable val_data : list (gmap string entry).

Local Abbreviation v :=
  (attach_bookkeeping rt (@new_engine Empty_set val_func) dev).

Lemma validator_run_empty w :
  val_data = [] →
  run v val_data 1 0 w =
  (Raise (ValueError
            "Input data has zero size. Please provide non-empty data"),
   initial_state val_data 1 0, w).
Proof. by intros ->. Qed.

Lemma validator_run_eq w :
  val_data ≠ [] →
  run v val_data 1 0 w =
  run_once_on_dataset v val_data
    (set_epoch 1 (initial_state val_data 1 0)) w.
Proof.
  intros Hne.
  assert (Hrun : run v val_data 1 0 w =
                 internal_run v val_data (initial_state val_data 1 0) w)
    by (unfold run; by destruct val_data).
  rewrite Hrun.
  unfold internal_run, run_epochs, run_epoch, fire_event. simpl.
  unfold mbind, M_bind, mret, M_ret, modify, get_state, book_keeping,
    clear_iter_history, modify. simpl.
  destruct (run_once_on_dataset v val_data _ w) as [[[[]|e] st1] w1];
    reflexivity.
Qed.

Lemma pass_raise_nonempty prep f c e :
  pass_outputs prep f c val_data = Raise e → val_data ≠ [].
Proof. by intros H ->. Qed.

Lemma validator_run_ok w outs :
  val_data ≠ [] →
  pass_outputs (move_entries rt dev) val_func (calls w) val_data = Ok outs →
  ∃ vstate w',
    run v val_data 1 0 w = (Ok tt, vstate, w') ∧
    (∀ key, values vstate key = key_values key outs) ∧
    (∀ key, is_Some (iter_history vstate !! key) ↔ key_values key outs ≠ []) ∧
    calls w' = calls w + length val_data ∧ trace w' = trace w.
Proof.
  intros Hne Hp. rewrite validator_run_eq by done.
  destruct (pass_ok v rt dev eq_refl eq_refl val_data (calls w)
              (set_epoch 1 (initial_state val_data 1 0)) w outs)
    as (st' & w' & Hrun & _ & _ & Hvals & Hdom & Hcalls & Htrace);
    [done|by apply wf_histories_empty|done|].
  exists st', w'. split; [done|]. split; [exact Hvals|].
  split; [|done]. intros key. rewrite Hdom. simpl. rewrite lookup_empty.
  split; [intros [[? [=]]|?]; done|by right].
Qed.

Lemma validator_run_raise w e :
  pass_outputs (move_entries rt dev) val_func (calls w) val_data = Raise e →
  ∃ vstate w',
    run v val_data 1 0 w = (Raise e, vstate, w') ∧ trace w' = trace w.
Proof.
  intros Hp. rewrite validator_run_eq by (by intros ->).
  destruct (pass_raise v rt dev eq_refl eq_refl val_data (calls w)
              (set_epoch 1 (initial_state val_data 1 0)) w e)
    as (st' & w' & Hrun & _ & Htrace & _); [done..|].
  eauto.
Qed.
End Validator.

(** ** The checkpoint handler *)

Section CheckpointFacts.
Variables (output_folder : string) (model : Model) (optimizer : Optimizer).
Variables (train_data : TrainData) (val_data : list (gmap string entry)).

(** One turn of the loop over the paths: the directory is made, then
    the two files are written if their directories exist. *)
Lemma save_checkpoints_cons metadata p paths st w :
  save_checkpoints output_folder model optimizer metadata (p :: paths) st w =
  let w1 := emit (MakeDirs (os_path_join output_folder ["checkpoints"])) w in
  let w2 := emit (ModelSave p (unwrap model) metadata) w1 in
  if dir_exists w1 (parentdir p) then
    if dir_exists w2 (parentdir (optimizer_path p)) then
      save_checkpoints output_folder model optimizer metadata paths st
        (emit (TorchSave (optimizer_path p) (state_dict optimizer)) w2)
    else
      (Raise (RuntimeError ("Parent directory " +:+
                            parentdir (optimizer_path p) +:+
                            " does not exist.")), st, w2)
  else
    (Raise (RuntimeError ("Parent directory " +:+ parentdir p +:+
                          " does not exist.")), st, w1).
Proof.
  cbn [save_checkpoints]. rewrite M_bind_unfold.
  unfold makedirs, perform. cbv beta iota zeta. rewrite M_bind_unfold.
  unfold torch_save at 1.
  destruct (dir_exists _ (parentdir p)); [|reflexivity].
  rewrite M_bind_unfold. unfold torch_save at 1.
  destruct (dir_exists _ (parentdir (optimizer_path p))); reflexivity.
Qed.

(** The writes of a loop that went through. *)
Lemma save_checkpoints_ok_inv metadata paths : ∀ st w st' w',
  save_checkpoints output_folder model optimizer metadata paths st w
    = (Ok tt, st', w') →
  st' = st ∧
  w' = {| trace := trace w ++
                   checkpoint_writes output_folder model optimizer metadata
                     paths;
          calls := calls w; epoch_time := epoch_time w;
          overall_time := overall_time w |}.
Proof.
  induction paths as [|p paths IH]; intros st w st' w'.
  - intros [= <- <-]. simpl. rewrite app_nil_r. by destruct w.
  - rewrite save_checkpoints_cons. cbv zeta.
    destruct (dir_exists _ (parentdir p)); [|done].
    destruct (dir_exists _ (parentdir (optimizer_path p))); [|done].
    intros H. apply IH in H as [-> ->]. split; [done|]. simpl.
    by rewrite <- !app_assoc.
Qed.

(** A loop that stopped at a write: it has called no step function
    and changed nothing in the run state. *)
Lemma save_checkpoints_raise_inv metadata paths : ∀ st w e st' w',
  save_checkpoints output_folder model optimizer metadata paths st w
    = (Raise e, st', w') →
  st' = st ∧ calls w' = calls w ∧ ∃ tl, trace w' = trace w ++ tl.
Proof.
  induction paths as [|p paths IH]; intros st w e st' w'; [done|].
  rewrite save_checkpoints_cons. cbv zeta.
  destruct (dir_exists _ (parentdir p)).
  2:{ intros [= <- <- <-]. simpl. eauto. }
  destruct (dir_exists _ (parentdir (optimizer_path p))).
  2:{ intros [= <- <- <-]. simpl. rewrite <- app_assoc. eauto. }
  intros H. apply IH in H as (-> & -> & tl & ->). simpl.
  rewrite <- !app_assoc. eauto.
Qed.

Lemma dir_exists_emit e w d :
  dir_exists w d = true → dir_exists (emit e w) d = true.
Proof.
  unfold dir_exists. simpl. intros [H|H]%orb_true_iff; apply orb_true_iff.
  - by left.
  - right. apply bool_decide_eq_true in H. apply bool_decide_eq_true.
    unfold made_dirs. rewrite omap_app, flat_map_app.
    apply elem_of_app. by left.
Qed.

Lemma ancestors_self d : d ≠ "" → d ∈ ancestors d.
Proof.
  unfold ancestors. destruct d as [|c d]; [done|]. intros _. simpl.
  by left.
Qed.

Lemma dir_exists_made w d :
  d ≠ "" → dir_exists (emit (MakeDirs d) w) d = true.
Proof.
  intros Hd. unfold dir_exists. simpl. apply orb_true_iff. right.
  apply bool_decide_eq_true. unfold made_dirs.
  rewrite omap_app, flat_map_app. apply elem_of_app. right. simpl.
  rewrite app_nil_r. by apply ancestors_self.
Qed.

(** The loop goes through when every file lies in the directory it
    makes. *)
Lemma save_checkpoints_ok metadata paths :
  os_path_join output_folder ["checkpoints"] ≠ "" →
  ∀ st w,
  Forall (λ p, parentdir p = os_path_join output_folder ["checkpoints"] ∧
               parentdir (optimizer_path p)
                 = os_path_join output_folder ["checkpoints"]) paths →
  save_checkpoints output_folder model optimizer metadata paths st w =
  (Ok tt, st,
   {| trace := trace w ++
               checkpoint_writes output_folder model optimizer metadata paths;
      calls := calls w; epoch_time := epoch_time w;
      overall_time := overall_time w |}).
Proof.
  intros Hd. induction paths as [|p paths IH]; intros st w Hall.
  - simpl. rewrite app_nil_r. by destruct w.
  - inversion Hall as [|? ? [Hp Ho] Hrest]; subst.
    rewrite save_checkpoints_cons. cbv zeta. rewrite Hp, Ho.
    rewrite dir_exists_made by done.
    rewrite dir_exists_emit by (by apply dir_exists_made).
    rewrite IH by done. simpl. by rewrite <- !app_assoc.
Qed.

Lemma validate_and_checkpoint_eq validator subs st w :
  validate_and_checkpoint output_folder model optimizer train_data val_data
    validator subs st w =
  match checkpoint output_folder model optimizer train_data val_data
          validator subs st w with
  | (Ok _, st1, w1) =>
      run_handlers (subs (Validation VALIDATION_COMPLETED)) st1 w1
  | (Raise e, st1, w1) => (Raise e, st1, w1)
  end.
Proof. reflexivity. Qed.

(** What a successful [checkpoint] went through. *)
Lemma checkpoint_inv validator subs st w is_best st1 w1 :
  checkpoint output_folder model optimizer train_data val_data validator
    subs st w = (Ok is_best, st1, w1) →
  ∃ sA wA sB wB,
    run_handlers (subs (Validation VALIDATION_STARTED)) st w = (Ok tt, sA, wA) ∧
    validation_step val_data validator sA wA = (Ok is_best, sB, wB) ∧
    let sC := set_epoch_history
                (append_means "train/" sB (epoch_history sB)) sB in
    st1 = set_output_folder (Some output_folder)
            (set_saved_model_path (last (output_paths output_folder is_best)) sC) ∧
    trace w1 = trace wB ++
               checkpoint_writes output_folder model optimizer
                 (make_metadata train_data sC)
                 (output_paths output_folder is_best) ∧
    calls w1 = calls wB.
Proof.
  unfold checkpoint. rewrite M_bind_unfold.
  destruct (run_handlers _ st w) as [[[[]|e] sA] wA] eqn:HA; [|done].
  rewrite M_bind_unfold.
  destruct (validation_step val_data validator sA wA)
    as [[[b|e] sB] wB] eqn:HB; [|done].
  unfold train_step. unfold mbind, M_bind, mret, M_ret, modify, get_state.
  cbv beta iota.
  destruct (save_checkpoints _ _ _ _ _ _ wB) as [[[[]|e] sC] wC] eqn:HC;
    [|done].
  apply save_checkpoints_ok_inv in HC as [-> ->].
  intros [= <- <- <-]. exists sA, wA, sB, wB. simpl. done.
Qed.

(** A [checkpoint] that failed: in a subscriber of
    [VALIDATION_STARTED], in the validation step, or at a write. *)
Lemma checkpoint_raise validator subs st w e st1 w1 :
  checkpoint output_folder model optimizer train_data val_data validator
    subs st w = (Raise e, st1, w1) →
  run_handlers (subs (Validation VALIDATION_STARTED)) st w = (Raise e, st1, w1) ∨
  (∃ sA wA, run_handlers (subs (Validation VALIDATION_STARTED)) st w
              = (Ok tt, sA, wA) ∧
            validation_step val_data validator sA wA = (Raise e, st1, w1)) ∨
  (∃ sA wA is_best sB wB,
     run_handlers (subs (Validation VALIDATION_STARTED)) st w
       = (Ok tt, sA, wA) ∧
     validation_step val_data validator sA wA = (Ok is_best, sB, wB) ∧
     st1 = set_epoch_history
             (append_means "train/" sB (epoch_history sB)) sB ∧
     save_checkpoints output_folder model optimizer
       (make_metadata train_data st1) (output_paths output_folder is_best)
       st1 wB = (Raise e, st1, w1)).
Proof.
  unfold checkpoint. rewrite M_bind_unfold.
  destruct (run_handlers _ st w) as [[[[]|e'] sA] wA] eqn:HA;
    [|intros [= <- <- <-]; by left].
  rewrite M_bind_unfold.
  destruct (validation_step val_data validator sA wA)
    as [[[b|e'] sB] wB] eqn:HB.
  - unfold train_step. unfold mbind, M_bind, mret, M_ret, modify, get_state.
    cbv beta iota.
    destruct (save_checkpoints _ _ _ _ _ _ wB) as [[[[]|e'] sC] wC] eqn:HC;
      [done|].
    intros [= <- <- <-]. right. right.
    pose proof HC as HC'. apply save_checkpoints_raise_inv in HC' as [-> _].
    eauto 10.
  - intros [= <- <- <-]. right. left. eauto.
Qed.

Lemma validation_step_none st w :
  validation_step val_data None st w = (Ok true, st, w).
Proof. reflexivity. Qed.

Section WithValidator.
Variables (rt : Runtime) (dev : Torch.device).
Variable val_func : nat → gmap string entry → result (gmap string Q).

Local Abbreviation v :=
  (attach_bookkeeping rt (@new_engine Empty_set val_func) dev).

Lemma validation_step_empty st w :
  val_data = [] →
  validation_step val_data (Some v) st w =
  (Raise (ValueError
            "Input data has zero size. Please provide non-empty data"),
   st, w).
Proof.
  intros Hnil. unfold validation_step, run_validator.
  unfold mbind, M_bind, mret, M_ret, modify, get_state, lift.
  by rewrite (validator_run_empty rt dev val_func val_data w Hnil).
Qed.

Lemma validation_step_ok st w outs :
  val_data ≠ [] →
  pass_outputs (move_entries rt dev) val_func (calls w) val_data = Ok outs →
  ∃ vstate w',
    validation_step val_data (Some v) st w =
      (resolve_is_best (append_means "validation/" vstate (epoch_history st)),
       set_epoch_history
         (append_means "validation/" vstate (epoch_history st)) st,
       w') ∧
    (∀ key, values vstate key = key_values key outs) ∧
    (∀ key, is_Some (iter_history vstate !! key) ↔ key_values key outs ≠ []) ∧
    calls w' = calls w + length val_data ∧ trace w' = trace w.
Proof.
  intros Hne Hp.
  destruct (validator_run_ok rt dev val_func val_data w outs Hne Hp)
    as (vstate & w' & Hrun & Hvals & Hdom & Hcalls & Htrace).
  exists vstate, w'. split; [|done].
  unfold validation_step, run_validator.
  unfold mbind, M_bind, mret, M_ret, modify, get_state, lift.
  rewrite Hrun. reflexivity.
Qed.

Lemma validation_step_raise st w e :
  pass_outputs (move_entries rt dev) val_func (calls w) val_data = Raise e →
  ∃ w', validation_step val_data (Some v) st w = (Raise e, st, w') ∧
        trace w' = trace w.
Proof.
  intros Hp.
  destruct (validator_run_raise rt dev val_func val_data w e Hp)
    as (vstate & w' & Hrun & Htrace).
  exists w'. split; [|done].
  unfold validation_step, run_validator.
  unfold mbind, M_bind, mret, M_ret, modify, get_state, lift.
  rewrite Hrun. reflexivity.
Qed.
End WithValidator.
End CheckpointFacts.

(** ** One epoch of training *)

Lemma has_prefix_dec (p k : string) :
  (∃ s, k = p +:+ s) ∨ (∀ s, k ≠ p +:+ s).
Proof.
  revert k. induction p as [|c p IH]; intros k; simpl.
  - left. by exists k.
  - destruct k as [|c' k]; [by right|].
    destruct (decide (c = c')) as [->|Hne].
    + destruct (IH k) as [[s ->]|Hno]; [left; by exists s|].
      right. intros s [= H]. by apply (Hno s).
    + right. intros s [= H _]. by apply Hne.
Qed.

Section Training.
Variables (rt : Runtime) (dev : Torch.device).
Variable train_func : nat → gmap string entry → result (gmap string Q).
Variable val_func : option (nat → gmap string entry → result (gmap string Q)).
Variable subs : TrainerEvents → list Handler.
Variables (output_folder : string) (model : Model) (optimizer : Optimizer).
Variables (train_data : TrainData) (data val_data : list (gmap string entry)).

Hypothesis Hsubs : ∀ ev, Forall observer (subs ev).

Local Abbreviation validator :=
  ((λ f, attach_bookkeeping rt (@new_engine Empty_set f) dev) <$> val_func).

Local Abbreviation trainer :=
  (add_validate_and_checkpoint output_folder model optimizer train_data
     val_data validator
     (with_custom_handlers
        (attach_bookkeeping rt (@new_engine TrainerEvents train_func) dev)
        subs)).

Local Abbreviation prep := (move_entries rt dev).

Local Abbreviation steps := (steps_per_epoch val_func data val_data).

Lemma run_epoch_eq st w :
  run_epoch trainer data st w =
  match run_once_on_dataset trainer data
          (set_iter_history ∅ (set_epoch (S (epoch st)) st)) w with
  | (Ok _, st1, w1) =>
      validate_and_checkpoint output_folder model optimizer train_data
        val_data validator subs st1 w1
  | (Raise e, st1, w1) => (Raise e, st1, w1)
  end.
Proof.
  unfold run_epoch, fire_event. simpl.
  unfold mbind, M_bind, mret, M_ret, modify, clear_iter_history. simpl.
  destruct (run_once_on_dataset trainer data _ w) as [[[[]|e] st1] w1];
    [|reflexivity].
  destruct (validate_and_checkpoint _ _ _ _ _ _ _ st1 w1)
    as [[[[]|e] st2] w2]; reflexivity.
Qed.

(** The epoch history after a validation step that succeeded. *)
Lemma validation_step_history sA wA is_best sB wB :
  validation_step val_data validator sA wA = (Ok is_best, sB, wB) →
  iter_history sB = iter_history sA ∧ store sB = store sA ∧
  calls wB = calls wA +
             match val_func with Some _ => length val_data | None => 0 end ∧
  trace wB = trace wA ∧
  (∀ k, (∀ key, k ≠ "validation/" +:+ key) →
        epoch_history sB !! k = epoch_history sA !! k) ∧
  (∀ k, ∃ tl, default [] (epoch_history sB !! k)
                = default [] (epoch_history sA !! k) ++ tl ∧ length tl ≤ 1) ∧
  match val_func with
  | Some vf =>
      ∃ vouts,
        pass_outputs prep vf (calls wA) val_data = Ok vouts ∧
        ∀ key, epoch_history sB !! ("validation/" +:+ key) =
               appended (epoch_history sA !! ("validation/" +:+ key))
                        (key_values key vouts)
  | None => epoch_history sB = epoch_history sA
  end.
Proof.
  destruct val_func as [vf|].
  - change (validation_step val_data _ sA wA) with
      (validation_step val_data
         (Some (attach_bookkeeping rt (new_engine vf) dev)) sA wA).
    assert (val_data = [] ∨ val_data ≠ []) as [Hnil|Hne]
      by (destruct val_data; [by left|by right]).
    { by rewrite (validation_step_empty val_data rt dev vf sA wA Hnil). }
    destruct (pass_outputs prep vf (calls wA) val_data) as [vouts|e] eqn:Hp.
    + destruct (validation_step_ok val_data rt dev vf sA wA vouts Hne Hp)
        as (vstate & w' & -> & Hvals & Hdom & Hcalls & Htrace).
      intros [= Hbest <- <-]. simpl.
      split; [done|]. split; [done|]. split; [done|]. split; [done|].
      split; [intros k Hk; by apply append_means_other|].
      split; [apply append_means_grows|].
      exists vouts. split; [done|]. intros key.
      rewrite append_means_lookup. specialize (Hvals key).
      specialize (Hdom key). unfold values in Hvals.
      destruct (iter_history vstate !! key) as [l|].
      * rewrite Hvals. unfold appended.
        destruct (key_values key vouts); [|done].
        exfalso. by apply Hdom.
      * rewrite <- Hvals. done.
    + destruct (validation_step_raise val_data rt dev vf sA wA e Hp)
        as (w' & -> & _). done.
  - change (validation_step val_data _ sA wA) with
      (validation_step val_data None sA wA).
    rewrite validation_step_none. intros [= <- <- <-].
    repeat split; try done; try lia.
    intros k. exists []. rewrite app_nil_r. split; [done|simpl; lia].
Qed.

(** A completed epoch: the two passes succeeded, and each appended the
    mean of every key it observed. *)
Lemma run_epoch_ok st w st' w' :
  run_epoch trainer data st w = (Ok tt, st', w') →
  ∃ outs,
    pass_outputs prep train_func (calls w) data = Ok outs ∧
    (∀ key, epoch_history st' !! ("train/" +:+ key) =
            appended (epoch_history st !! ("train/" +:+ key))
                     (key_values key outs)) ∧
    match val_func with
    | Some vf =>
        ∃ vouts,
          pass_outputs prep vf (calls w + length data) val_data = Ok vouts ∧
          ∀ key, epoch_history st' !! ("validation/" +:+ key) =
                 appended (epoch_history st !! ("validation/" +:+ key))
                          (key_values key vouts)
    | None =>
        ∀ key, epoch_history st' !! ("validation/" +:+ key) =
               epoch_history st !! ("validation/" +:+ key)
    end ∧
    (∀ k, ∃ tl, default [] (epoch_history st' !! k)
                  = default [] (epoch_history st !! k) ++ tl ∧ length tl ≤ 1) ∧
    calls w' = calls w + steps_per_epoch val_func data val_data.
Proof.
  rewrite run_epoch_eq.
  set (st0 := set_iter_history ∅ (set_epoch (S (epoch st)) st)).
  destruct (pass_outputs prep train_func (calls w) data) as [outs|e] eqn:Hp.
  2:{ destruct (pass_raise trainer rt dev eq_refl eq_refl data (calls w)
                  st0 w e eq_refl Hp) as (s & w0 & -> & _). done. }
  destruct (pass_ok trainer rt dev eq_refl eq_refl data (calls w) st0 w outs
              eq_refl (wf_histories_empty st0 eq_refl) Hp)
    as (st1 & w1 & -> & Hwf1 & Heh1 & Hvals1 & Hdom1 & Hcalls1 & _).
  rewrite validate_and_checkpoint_eq.
  destruct (checkpoint _ _ _ _ _ _ _ st1 w1) as [[[b|e] stc] wc] eqn:Hc;
    [|done].
  apply checkpoint_inv in Hc.
  destruct Hc as (sA & wA & sB & wB & HA & HB & Hstc & _ & Hcallsc).
  pose proof (run_handlers_observer _ (Hsubs (Validation VALIDATION_STARTED))
                st1 w1) as [HA1 HA2].
  rewrite HA in HA1, HA2. unfold state_of, world_of in HA1, HA2.
  simpl in HA1, HA2. subst sA.
  apply validation_step_history in HB.
  destruct HB as (Hih & Hstore & HcallsB & _ & Hother & Hlen & Hval).
  intros Hfinal.
  pose proof (run_handlers_observer _ (Hsubs (Validation VALIDATION_COMPLETED))
                stc wc) as [HF1 HF2].
  rewrite Hfinal in HF1, HF2. unfold state_of, world_of in HF1, HF2.
  simpl in HF1, HF2. subst st' stc. simpl.
  exists outs. split; [done|].
  assert (Htrain : ∀ key,
    append_means "train/" sB (epoch_history sB) !! ("train/" +:+ key) =
    appended (epoch_history st !! ("train/" +:+ key)) (key_values key outs)).
  { intros key. rewrite append_means_lookup.
    rewrite Hother by (intros k' H'; by apply (train_not_validation key k')).
    rewrite Heh1. change (epoch_history st0) with (epoch_history st).
    rewrite Hih. specialize (Hvals1 key). specialize (Hdom1 key).
    change (values st0 key) with (@nil Q) in Hvals1. simpl in Hvals1.
    change (iter_history st0 !! key) with
      ((∅ : gmap string nat) !! key) in Hdom1.
    rewrite lookup_empty in Hdom1.
    unfold values in Hvals1. unfold deref. rewrite Hstore.
    destruct (iter_history st1 !! key) as [l|].
    - unfold deref in Hvals1. rewrite Hvals1. unfold appended.
      destruct (key_values key outs); [|done].
      exfalso. assert (is_Some (Some l)) as HS by eauto.
      apply Hdom1 in HS as [[? [=]]|?]; done.
    - by rewrite <- Hvals1. }
  split; [exact Htrain|].
  assert (Hval' : ∀ key,
    append_means "train/" sB (epoch_history sB) !! ("validation/" +:+ key) =
    epoch_history sB !! ("validation/" +:+ key)).
  { intros key. apply append_means_other.
    intros k' H'. by apply (train_not_validation k' key). }
  split.
  { destruct val_func as [vf|].
    - destruct Hval as (vouts & Hvp & Hv). exists vouts.
      rewrite HA2, Hcalls1 in Hvp. split; [exact Hvp|].
      intros key. rewrite Hval', Hv, Heh1. done.
    - intros key. rewrite Hval', Hval, Heh1. done. }
  split.
  { intros k.
    destruct (has_prefix_dec "validation/" k) as [[key ->]|Hno].
    - rewrite Hval'. specialize (Hlen ("validation/" +:+ key)).
      rewrite Heh1 in Hlen. exact Hlen.
    - pose proof (append_means_grows "train/" sB (epoch_history sB) k) as H.
      rewrite (Hother k Hno), Heh1 in H. exact H. }
  rewrite HF2, Hcallsc, HcallsB, HA2, Hcalls1. unfold steps_per_epoch. lia.
Qed.

Lemma appended_default old vs :
  vs ≠ [] → default [] (appended old vs) = default [] old ++ [mean vs].
Proof. by destruct vs. Qed.

Lemma run_epochs_S n st w :
  run_epochs trainer data (S n) st w =
  match run_epoch trainer data st w with
  | (Ok _, st1, w1) => run_epochs trainer data n st1 w1
  | (Raise e, st1, w1) => (Raise e, st1, w1)
  end.
Proof.
  simpl. rewrite M_bind_unfold.
  by destruct (run_epoch trainer data st w) as [[[[]|e] st1] w1].
Qed.

(** [n] completed epochs: the history of every key observed in each of
    them has [n] more entries, the means of the epochs in order. *)
Lemma run_epochs_ok n : ∀ st w st' w',
  run_epochs trainer data n st w = (Ok tt, st', w') →
  calls w' = calls w + n * steps ∧
  (∀ k, ∃ tl, default [] (epoch_history st' !! k)
                = default [] (epoch_history st !! k) ++ tl ∧ length tl ≤ n) ∧
  (∀ key,
     (∀ j, j < n →
        key_values key (outputs_from prep train_func (calls w + j * steps) data)
          ≠ []) →
     default [] (epoch_history st' !! ("train/" +:+ key)) =
     default [] (epoch_history st !! ("train/" +:+ key)) ++
     map (λ j, mean (key_values key
                       (outputs_from prep train_func (calls w + j * steps) data)))
         (seq 0 n)) ∧
  (∀ vf key,
     val_func = Some vf →
     (∀ j, j < n →
        key_values key
          (outputs_from prep vf (calls w + j * steps + length data) val_data)
          ≠ []) →
     default [] (epoch_history st' !! ("validation/" +:+ key)) =
     default [] (epoch_history st !! ("validation/" +:+ key)) ++
     map (λ j, mean (key_values key
                       (outputs_from prep vf
                          (calls w + j * steps + length data) val_data)))
         (seq 0 n)).
Proof.
  induction n as [|n IH]; intros st w st' w'.
  - intros [= <- <-]. simpl. split; [lia|]. split.
    { intros k. exists []. rewrite app_nil_r. split; [done|simpl; lia]. }
    split; intros; by rewrite app_nil_r.
  - rewrite run_epochs_S.
    destruct (run_epoch trainer data st w) as [[[[]|e] st1] w1] eqn:He;
      [|done].
    intros Hrest. apply run_epoch_ok in He.
    destruct He as (outs & Hp & Htrain & Hval & Hlen & Hcalls).
    apply IH in Hrest. destruct Hrest as (Hcalls' & Hlen' & Htrain' & Hval').
    assert (Hshift : ∀ j, calls w1 + j * steps = calls w + S j * steps)
      by (intros; rewrite Hcalls; simpl; lia).
    split; [rewrite Hcalls', Hcalls; simpl; lia|].
    split.
    { intros k. destruct (Hlen k) as (tl1 & E1 & L1).
      destruct (Hlen' k) as (tl2 & E2 & L2). exists (tl1 ++ tl2).
      rewrite E2, E1, <- app_assoc, length_app. split; [done|lia]. }
    split.
    + intros key Hobs.
      rewrite Htrain'.
      2:{ intros j Hj. rewrite Hshift. apply Hobs. lia. }
      rewrite Htrain. simpl.
      assert (H0 : outputs_from prep train_func (calls w + 0) data = outs).
      { unfold outputs_from. by rewrite Nat.add_0_r, Hp. }
      rewrite appended_default.
      2:{ rewrite <- H0. replace (calls w + 0) with (calls w + 0 * steps)
            by lia. apply Hobs. lia. }
      rewrite <- app_assoc. simpl. rewrite H0. do 2 f_equal.
      rewrite <- seq_shift, map_map. apply map_ext. intros j.
      by rewrite Hshift.
    + intros vf key Hvf Hobs. rewrite Hvf in Hval.
      destruct Hval as (vouts & Hvp & Hval).
      rewrite (Hval' vf key Hvf).
      2:{ intros j Hj. rewrite Hshift. apply Hobs. lia. }
      rewrite Hval. simpl.
      assert (H0 : outputs_from prep vf (calls w + 0 + length data) val_data
                   = vouts).
      { unfold outputs_from. by rewrite Nat.add_0_r, Hvp. }
      rewrite appended_default.
      2:{ rewrite <- H0.
          replace (calls w + 0) with (calls w + 0 * steps) by lia.
          apply Hobs. lia. }
      rewrite <- app_assoc. simpl. rewrite H0. do 2 f_equal.
      rewrite <- seq_shift, map_map. apply map_ext. intros j.
      by rewrite Hshift.
Qed.

Lemma run_ok_nonempty {Custom} (engine : Engine Custom) N seed w st w' :
  run engine data N seed w = (Ok tt, st, w') → data ≠ [].
Proof. by intros H ->. Qed.

Lemma run_trainer_eq N seed w :
  data ≠ [] →
  run trainer data N seed w =
  match run_epochs trainer data N (initial_state data N seed) w with
  | (Ok _, st, w') => (Ok tt, st, w')
  | (Raise e, st, w') => (Raise e, st, w')
  end.
Proof.
  intros Hne.
  assert (Hrun : run trainer data N seed w =
                 internal_run trainer data (initial_state data N seed) w)
    by (unfold run; by destruct data).
  rewrite Hrun.
  unfold internal_run, fire_event. simpl.
  unfold mbind, M_bind, mret, M_ret, modify, get_state, book_keeping, modify.
  simpl. rewrite Nat.sub_0_r.
  change (set_past_iter_history ∅ _) with (initial_state data N seed).
  by destruct (run_epochs trainer data N _ w) as [[[[]|e] st1] w1].
Qed.

(** An epoch in which the step function raises after the iterations
    over [data1]. *)
Lemma run_epoch_step_raise st w data1 b data2 outs1 b' e :
  data = data1 ++ b :: data2 →
  pass_outputs prep train_func (calls w) data1 = Ok outs1 →
  prep b = Ok b' →
  train_func (calls w + length data1) b' = Raise e →
  ∃ st' w',
    run_epoch trainer data st w = (Raise e, st', w') ∧
    epoch_history st' = epoch_history st ∧ trace w' = trace w ∧
    calls w' = calls w + length data1 + 1.
Proof.
  intros Hdata Hp Hb He. rewrite run_epoch_eq, Hdata.
  destruct (pass_step_raise trainer rt dev eq_refl eq_refl data1 (calls w)
              (set_iter_history ∅ (set_epoch (S (epoch st)) st)) w
              outs1 b b' data2 e eq_refl Hp Hb He)
    as (st' & w' & -> & Heh & Htrace & Hcalls & _).
  exists st', w'. by rewrite Heh, Htrace, Hcalls.
Qed.

Lemma map_seq_lookup {A} (f : nat → A) N n :
  n < N → map f (seq 0 N) !! n = Some (f n).
Proof.
  intros Hn. change (map f (seq 0 N)) with (f <$> seq 0 N).
  by rewrite list_lookup_fmap, lookup_seq_lt.
Qed.

Lemma history_of_means (o : option (list Q)) (f : nat → Q) N :
  1 ≤ N → default [] o = map f (seq 0 N) →
  ∃ hist, o = Some hist ∧ length hist = N ∧
          ∀ n, n < N → hist !! n = Some (f n).
Proof.
  intros HN Ho. destruct o as [hist|]; simpl in Ho.
  - exists hist. subst hist. split; [done|].
    split; [by rewrite length_map, length_seq|]. apply map_seq_lookup.
  - destruct N; [lia|done].
Qed.

(** The epoch history of a run that completed [N] epochs. *)
Lemma training_history N seed w st w' :
  1 ≤ N →
  run trainer data N seed w = (Ok tt, st, w') →
  (∀ key,
     (∀ n, n < N →
        key_values key (outputs_from prep train_func (calls w + n * steps) data)
          ≠ []) →
     ∃ hist, epoch_history st !! ("train/" +:+ key) = Some hist ∧
             length hist = N ∧
             ∀ n, n < N →
               hist !! n = Some (mean (key_values key
                 (outputs_from prep train_func (calls w + n * steps) data)))) ∧
  (∀ vf key,
     val_func = Some vf →
     (∀ n, n < N →
        key_values key
          (outputs_from prep vf (calls w + n * steps + length data) val_data)
          ≠ []) →
     ∃ hist, epoch_history st !! ("validation/" +:+ key) = Some hist ∧
             length hist = N ∧
             ∀ n, n < N →
               hist !! n = Some (mean (key_values key
                 (outputs_from prep vf
                    (calls w + n * steps + length data) val_data)))) ∧
  (∀ m, m ≤ N →
     ∃ stm wm,
       run_epochs trainer data m (initial_state data N seed) w
         = (Ok tt, stm, wm) ∧
       ∀ k, default [] (epoch_history stm !! k)
              `prefix_of` default [] (epoch_history st !! k)).
Proof.
  intros HN Hok. pose proof (run_ok_nonempty _ _ _ _ _ _ Hok) as Hne.
  revert Hok. rewrite run_trainer_eq by done.
  destruct (run_epochs trainer data N _ w) as [[[[]|e] st1] w1] eqn:Hrun;
    [|done].
  intros [= <- <-].
  pose proof (run_epochs_ok N _ _ _ _ Hrun) as (_ & _ & Htrain & Hval).
  split; [|split].
  - intros key Hobs. apply history_of_means; [done|].
    rewrite (Htrain key Hobs). simpl. by rewrite lookup_empty.
  - intros vf key Hvf Hobs. apply history_of_means; [done|].
    rewrite (Hval vf key Hvf Hobs). simpl. by rewrite lookup_empty.
  - intros m Hm. replace N with (m + (N - m)) in Hrun at 1 by lia.
    rewrite run_epochs_add in Hrun.
    destruct (run_epochs trainer data m _ w) as [[[[]|e] stm] wm] eqn:Hm';
      [|done].
    exists stm, wm. split; [done|]. intros k.
    pose proof (run_epochs_ok _ _ _ _ _ Hrun) as (_ & Hgrow & _).
    destruct (Hgrow k) as (tl & -> & _). by exists tl.
Qed.

(** The run in which the step function raises in the epoch after [n]
    completed ones. *)
Lemma training_failure N seed w n st1 w1 data1 b data2 outs1 b' e :
  n < N →
  data = data1 ++ b :: data2 →
  run_epochs trainer data n (initial_state data N seed) w = (Ok tt, st1, w1) →
  pass_outputs prep train_func (calls w1) data1 = Ok outs1 →
  prep b = Ok b' →
  train_func (calls w1 + length data1) b' = Raise e →
  ∃ st' w',
    run trainer data N seed w = (Raise e, st', w') ∧
    epoch_history st' = epoch_history st1 ∧
    trace w' = trace w1 ∧
    calls w' = calls w1 + length data1 + 1 ∧
    (∀ k l, epoch_history st' !! k = Some l → length l ≤ n) ∧
    (∀ key,
       (∀ j, j < n →
          key_values key
            (outputs_from prep train_func (calls w + j * steps) data) ≠ []) →
       length (default [] (epoch_history st' !! ("train/" +:+ key))) = n).
Proof.
  intros Hn Hdata Hrun Hp Hb He.
  destruct (run_epoch_step_raise st1 w1 data1 b data2 outs1 b' e
              Hdata Hp Hb He) as (st' & w' & Hep & Heh & Htrace & Hcalls).
  exists st', w'. split.
  { rewrite run_trainer_eq by (rewrite Hdata; by destruct data1).
    replace N with (n + S (N - S n)) at 1 by lia.
    rewrite run_epochs_add, Hrun, run_epochs_S, Hep. done. }
  split; [done|]. split; [done|]. split; [done|].
  pose proof (run_epochs_ok n _ _ _ _ Hrun) as (_ & Hgrow & Htrain & _).
  split.
  - intros k l Hl. rewrite Heh in Hl. destruct (Hgrow k) as (tl & Hk & Htl).
    rewrite Hl in Hk. simpl in Hk. rewrite lookup_empty in Hk. simpl in Hk.
    by subst l.
  - intros key Hobs. rewrite Heh, (Htrain key Hobs). simpl.
    rewrite lookup_empty. simpl. by rewrite length_map, length_seq.
Qed.
End Training.

(** ** The smallest recorded loss *)

Lemma Qmin_pick_le m y : (Qmin_pick m y <= m)%Q ∧ (Qmin_pick m y <= y)%Q.
Proof.
  unfold Qmin_pick. destruct (Qle_bool m y) eqn:E.
  - apply Qle_bool_iff in E. split; [apply Qle_refl|done].
  - split; [|apply Qle_refl].
    destruct (Qlt_le_dec y m) as [H|H]; [by apply Qlt_le_weak|].
    apply Qle_bool_iff in H. congruence.
Qed.

Lemma foldl_min_spec (l : list Q) : ∀ x,
  (foldl Qmin_pick x l = x ∨ foldl Qmin_pick x l ∈ l) ∧
  (foldl Qmin_pick x l <= x)%Q ∧
  ∀ y, y ∈ l → (foldl Qmin_pick x l <= y)%Q.
Proof.
  induction l as [|a l IH]; intros x; simpl.
  - split; [by left|]. split; [apply Qle_refl|]. intros y Hy. by inversion Hy.
  - destruct (IH (Qmin_pick x a)) as (Hin & Hle & Hall).
    destruct (Qmin_pick_le x a) as [Hx Ha].
    split.
    { destruct Hin as [->|Hin].
      - unfold Qmin_pick. destruct (Qle_bool x a); [by left|].
        right. by left.
      - right. by right. }
    split; [by eapply Qle_trans|].
    intros y Hy. inversion Hy; subst; [by eapply Qle_trans|auto].
Qed.

Lemma min_spec (l : list Q) m :
  Py.min l = Some m → m ∈ l ∧ ∀ y, y ∈ l → (m <= y)%Q.
Proof.
  destruct l as [|x l]; [done|]. intros [= <-].
  destruct (foldl_min_spec l x) as (Hin & Hle & Hall). split.
  - destruct Hin as [->|Hin]; [by left|by right].
  - intros y Hy. inversion Hy; subst; auto.
Qed.

Lemma last_item_snoc {A} (l : list A) x : last_item (l ++ [x]) = Ok x.
Proof. unfold last_item. by rewrite last_snoc. Qed.

(** [cur == min(losses)] when [cur] is the value just appended. *)
Lemma resolve_is_best_appended eh old cur :
  eh !! "validation/loss" = Some (old ++ [cur]) →
  ∃ is_best, resolve_is_best eh = Ok is_best ∧
             (is_best = true ↔ ∀ y, y ∈ old ++ [cur] → (cur <= y)%Q).
Proof.
  intros Heh. unfold resolve_is_best. rewrite Heh, last_item_snoc. simpl.
  destruct (Py.min (old ++ [cur])) as [m|] eqn:Hm.
  2:{ by destruct old. }
  destruct (min_spec _ _ Hm) as [Hin Hall].
  exists (Qeq_bool cur m). split; [done|]. rewrite Qeq_bool_iff. split.
  - intros Heq y Hy. rewrite Heq. auto.
  - intros Hcur. apply Qle_antisym; [auto|].
    apply Hall. apply elem_of_app. right. by left.
Qed.

(** C1, amended: the checkpoint handler takes the epoch for the best
    one exactly when the validation loss it has just appended is the
    smallest recorded under [validation/loss], ties included; with no
    validator the epoch is taken for the best one; so it is, and nothing
    is raised, when the validator has gone over validation data that is
    not empty without reporting a [loss] and [validation/loss] is absent
    from the epoch history.  Over empty validation data the validator
    raises a [ValueError] before the handler resolves anything. *)
Theorem is_best_iff_minimum (rt : Runtime) (dev : Torch.device)
    (val_func : nat → gmap string entry → result (gmap string Q))
    (val_data : list (gmap string entry)) (st : State) (w : World) :
  validation_step val_data None st w = (Ok true, st, w) ∧
  (∀ eh : gmap string (list Q),
     eh !! "validation/loss" = None → resolve_is_best eh = Ok true) ∧
  (val_data = [] →
   validation_step val_data
     (Some (attach_bookkeeping rt (new_engine val_func) dev)) st w
   = (Raise (ValueError
               "Input data has zero size. Please provide non-empty data"),
      st, w)) ∧
  (val_data ≠ [] →
   ∀ outs,
     pass_outputs (move_entries rt dev) val_func (calls w) val_data = Ok outs →
     (key_values "loss" outs ≠ [] →
      ∃ is_best st' w',
        validation_step val_data
          (Some (attach_bookkeeping rt (new_engine val_func) dev)) st w
          = (Ok is_best, st', w') ∧
        epoch_history st' !! "validation/loss" =
          Some (default [] (epoch_history st !! "validation/loss") ++
                [mean (key_values "loss" outs)]) ∧
        (is_best = true ↔
         ∀ y, y ∈ default [] (epoch_history st !! "validation/loss") ++
                  [mean (key_values "loss" outs)] →
              (mean (key_values "loss" outs) <= y)%Q)) ∧
     (key_values "loss" outs = [] →
      epoch_history st !! "validation/loss" = None →
      ∃ st' w',
        validation_step val_data
          (Some (attach_bookkeeping rt (new_engine val_func) dev)) st w
          = (Ok true, st', w') ∧
        epoch_history st' !! "validation/loss" = None)).
Proof.
  split; [reflexivity|]. split.
  { intros eh Heh. unfold resolve_is_best. by rewrite Heh. }
  split; [apply validation_step_empty|].
  intros Hne outs Hp.
  destruct (validation_step_ok val_data rt dev val_func st w outs Hne Hp)
    as (vstate & w' & Hstep & Hvals & Hdom & _).
  assert (Hkey :
    append_means "validation/" vstate (epoch_history st) !! "validation/loss" =
    appended (epoch_history st !! "validation/loss") (key_values "loss" outs)).
  { change "validation/loss" with ("validation/" +:+ "loss").
    rewrite append_means_lookup. specialize (Hvals "loss").
    specialize (Hdom "loss"). unfold values in Hvals.
    destruct (iter_history vstate !! "loss") as [l|].
    - rewrite Hvals. unfold appended.
      destruct (key_values "loss" outs); [|done]. exfalso. by apply Hdom.
    - by rewrite <- Hvals. }
  split.
  - intros Hsome.
    assert (Happ : appended (epoch_history st !! "validation/loss")
                     (key_values "loss" outs) =
                   Some (default [] (epoch_history st !! "validation/loss") ++
                         [mean (key_values "loss" outs)])).
    { unfold appended. by destruct (key_values "loss" outs). }
    rewrite Happ in Hkey.
    destruct (resolve_is_best_appended _ _ _ Hkey) as (b & Hb & Hiff).
    exists b, (set_epoch_history
                 (append_means "validation/" vstate (epoch_history st)) st), w'.
    rewrite Hstep, Hb. done.
  - intros Hnil Hnone. rewrite Hnil, Hnone in Hkey. simpl in Hkey.
    exists (set_epoch_history
              (append_means "validation/" vstate (epoch_history st)) st), w'.
    rewrite Hstep. unfold resolve_is_best. rewrite Hkey. done.
Qed.

(** The claim as stated fails: with a validator and no validation data,
    [validation/loss] is absent from the epoch history, and the handler
    does not take the epoch for the best one: [validator.run] raises,
    and nothing is recorded or written. *)
Lemma empty_validation_data_raises :
  epoch_history Examples.end_of_epoch !! "validation/loss" = None ∧
  validation_step [] (Some Examples.validator) Examples.end_of_epoch
    Examples.world0 =
    (Raise (ValueError
              "Input data has zero size. Please provide non-empty data"),
     Examples.end_of_epoch, Examples.world0) ∧
  validate_and_checkpoint "out" Examples.model Examples.optimizer
    Examples.train_data [] (Some Examples.validator) Examples.no_subscribers
    Examples.end_of_epoch Examples.world0 =
    (Raise (ValueError
              "Input data has zero size. Please provide non-empty data"),
     Examples.end_of_epoch, Examples.world0).
Proof. split; [reflexivity|]. split; reflexivity. Qed.

(** ** Checkpoints and the validation-completed event *)

Lemma model_files_writes output_folder model optimizer metadata paths :
  model_files (checkpoint_writes output_folder model optimizer metadata paths)
    = paths.
Proof.
  induction paths as [|p paths IH]; [done|].
  unfold model_files in *. simpl. f_equal. exact IH.
Qed.

Lemma model_files_app tr1 tr2 :
  model_files (tr1 ++ tr2) = model_files tr1 ++ model_files tr2.
Proof. apply omap_app. Qed.

Lemma last_output_paths output_folder is_best :
  last (output_paths output_folder is_best) =
  Some (if is_best then best_path output_folder else latest_path output_folder).
Proof. by destruct is_best. Qed.

Lemma observed_states_observer hs : ∀ st w,
  Forall observer hs → Forall (λ s, s = st) (observed_states hs st w).
Proof.
  induction hs as [|h hs IH]; intros st w Hobs; simpl; [constructor|].
  inversion Hobs as [|? ? Hh Hhs]; subst. constructor; [done|].
  destruct (Hh st w) as [Hst _].
  destruct (h st w) as [[[[]|e] st1] w1]; [|constructor].
  unfold state_of in Hst. simpl in Hst. subst st1. by apply IH.
Qed.

(** C10: when the checkpoint handler has done its work, the run state
    holds [saved_model_path], the last path written (the best-model path
    when [is_best], the latest-model path otherwise), and
    [output_folder]; [VALIDATION_COMPLETED] is fired after that, on this
    state and with all files written, so its subscribers see both
    fields; if the work fails the event is not fired. *)
Theorem saved_model_path_recorded (folder : string) (model : Model)
    (optimizer : Optimizer) (train_data : TrainData)
    (val_data : list (gmap string entry)) (validator : option (Engine Empty_set))
    (subs : TrainerEvents → list Handler) (st : State) (w : World) :
  match checkpoint folder model optimizer train_data val_data validator
          subs st w with
  | (Ok is_best, st1, w1) =>
      saved_model_path st1 =
        Some (if is_best then best_path folder else latest_path folder) ∧
      output_folder st1 = Some folder ∧
      (∃ before,
         trace w1 = before ++
                    checkpoint_writes folder model optimizer
                      (make_metadata train_data st1)
                      (output_paths folder is_best)) ∧
      last (model_files (trace w1)) = saved_model_path st1 ∧
      validate_and_checkpoint folder model optimizer train_data val_data
        validator subs st w =
        run_handlers (subs (Validation VALIDATION_COMPLETED)) st1 w1 ∧
      head (observed_states (subs (Validation VALIDATION_COMPLETED)) st1 w1)
        = (λ _, st1) <$> head (subs (Validation VALIDATION_COMPLETED)) ∧
      (Forall observer (subs (Validation VALIDATION_COMPLETED)) →
       Forall (λ s, saved_model_path s = saved_model_path st1 ∧
                    output_folder s = Some folder)
              (observed_states (subs (Validation VALIDATION_COMPLETED)) st1 w1))
  | (Raise e, st1, w1) =>
      validate_and_checkpoint folder model optimizer train_data val_data
        validator subs st w = (Raise e, st1, w1)
  end.
Proof.
  rewrite validate_and_checkpoint_eq.
  destruct (checkpoint _ _ _ _ _ _ _ st w) as [[[b|e] st1] w1] eqn:Hc; [|done].
  apply checkpoint_inv in Hc.
  destruct Hc as (sA & wA & sB & wB & _ & _ & -> & Htrace & _). simpl.
  split; [apply last_output_paths|]. split; [done|]. split.
  { exists (trace wB). exact Htrace. }
  split.
  { rewrite Htrace, model_files_app, model_files_writes.
    rewrite last_app, last_output_paths. done. }
  split; [done|]. split.
  { by destruct (subs (Validation VALIDATION_COMPLETED)). }
  intros Hobs. eapply Forall_impl; [by apply observed_states_observer|].
  simpl. by intros s ->.
Qed.

(** C2, at an output folder whose name contains [model.pth]: the path
    the handler gives [torch.save] for the optimizer state is not the
    sibling of the model path but a path under another directory, one
    the handler never makes.  In a process that starts without that
    directory the first [torch.save] raises: the latest model has been
    written alone, no optimizer state and no best model are written,
    and [saved_model_path] is not set.  Only when the stray directory
    is found at the start does the handler go through, and then the
    optimizer states are written there, away from the models. *)
Example optimizer_state_not_beside_model :
  latest_path "runs/model.pth" = "runs/model.pth/checkpoints/latest.model.pth" ∧
  optimizer_path (latest_path "runs/model.pth")
    = "runs/optimizer.pth/checkpoints/latest.optimizer.pth" ∧
  outcome_of Examples.bad_folder =
    Raise (RuntimeError
             "Parent directory runs/optimizer.pth/checkpoints does not exist.") ∧
  made_dirs (trace (world_of Examples.bad_folder)) =
    ["runs/model.pth/checkpoints"] ∧
  model_files (trace (world_of Examples.bad_folder)) =
    ["runs/model.pth/checkpoints/latest.model.pth"] ∧
  optimizer_files (trace (world_of Examples.bad_folder)) = [] ∧
  saved_model_path (state_of Examples.bad_folder) = None ∧
  outcome_of Examples.bad_folder_stray_dir = Ok tt ∧
  model_files (trace (world_of Examples.bad_folder_stray_dir)) =
    ["runs/model.pth/checkpoints/latest.model.pth";
     "runs/model.pth/checkpoints/best.model.pth"] ∧
  optimizer_files (trace (world_of Examples.bad_folder_stray_dir)) =
    ["runs/optimizer.pth/checkpoints/latest.optimizer.pth";
     "runs/optimizer.pth/checkpoints/best.optimizer.pth"].
Proof. vm_compute. done. Qed.

(** ** The epoch summary *)

Lemma log_epoch_to_stdout_no_train_loss st w :
  epoch_history st !! "train/loss" = None →
  log_epoch_to_stdout st w = (Raise (KeyError "train/loss"), st, w).
Proof.
  intros H. unfold log_epoch_to_stdout, getitem. rewrite H. done.
Qed.

(** C9: the summary handler raises a [KeyError] whenever the epoch
    history has no [train/loss], whatever it holds for
    [validation/loss]: the lookup of [train/loss] is not guarded. *)
Theorem stdout_requires_train_loss (st : State) (w : World) :
  epoch_history st !! "train/loss" = None →
  log_epoch_to_stdout st w = (Raise (KeyError "train/loss"), st, w) ∧
  trace (world_of (log_epoch_to_stdout st w)) = trace w.
Proof.
  intros H. by rewrite log_epoch_to_stdout_no_train_loss.
Qed.

(** C6, amended: with no [validation/loss] in the epoch history, and
    with an entry for [train/loss] and the two fields the checkpoint
    handler records, the summary handler does not raise: it logs the
    summary with [N/A] for the validation loss. *)
Theorem stdout_tolerates_missing_validation_loss (st : State) (w : World)
    (losses : list Q) (train_loss : Q) (path folder : string) :
  epoch_history st !! "validation/loss" = None →
  epoch_history st !! "train/loss" = Some losses →
  last losses = Some train_loss →
  saved_model_path st = Some path →
  output_folder st = Some folder →
  log_epoch_to_stdout st w =
    (Ok tt, st,
     emit (LoggingInfo
             (summary (epoch st) (max_epochs st) train_loss "N/A"
                (format_hms (epoch_time w)) (format_hms (overall_time w))
                path folder)) w).
Proof.
  intros Hv Ht Hl Hp Hf. unfold log_epoch_to_stdout, getitem, last_item.
  rewrite Hv, Ht, Hp, Hf. simpl. by rewrite Hl.
Qed.

(** ** Warming the cache *)

Lemma cache_step (n : nat) b (items : list (gmap string entry)) st w :
  run_once_on_dataset
    (add_event_handler (@new_engine Empty_set dummy_process) ITERATION_STARTED
       (λ _, every n log_progress)) (b :: items) st w =
  run_once_on_dataset
    (add_event_handler (@new_engine Empty_set dummy_process) ITERATION_STARTED
       (λ _, every n log_progress)) items
    (set_output ∅ (set_iteration (S (iteration st)) (set_batch b st)))
    (tick (if S (iteration st) `mod` n =? 0
           then emit (LoggingInfo (progress_message (S (iteration st))
                                     (epoch_length st))) w
           else w)).
Proof.
  cbn [run_once_on_dataset]. unfold fire_event. simpl.
  unfold every, log_progress, perform, get_state, modify,
    call_process_function.
  unfold mbind, M_bind, mret, M_ret. cbn -[Nat.modulo].
  by destruct (S (iteration st) `mod` n =? 0).
Qed.

Lemma cache_pass (n : nat) (items : list (gmap string entry)) : ∀ st w,
  ∃ st' w',
    run_once_on_dataset
      (add_event_handler (@new_engine Empty_set dummy_process) ITERATION_STARTED
         (λ _, every n log_progress)) items st w = (Ok tt, st', w') ∧
    iteration st' = iteration st + length items ∧
    epoch_length st' = epoch_length st ∧
    calls w' = calls w + length items ∧
    trace w' = trace w ++
      map (λ i, LoggingInfo (progress_message i (epoch_length st)))
          (filter (λ i, i `mod` n = 0) (seq (S (iteration st)) (length items))).
Proof.
  induction items as [|b items IH]; intros st w.
  - exists st, w. simpl. rewrite app_nil_r. repeat split; lia.
  - rewrite cache_step.
    edestruct IH as (st' & w' & -> & Hit & Hlen & Hcalls & Htrace).
    exists st', w'. split; [done|].
    rewrite Hit, Hlen, Hcalls, Htrace. simpl.
    destruct (S (iteration st) `mod` n =? 0) eqn:E.
    + apply Nat.eqb_eq in E. rewrite filter_cons_True by done. simpl.
      rewrite <- app_assoc. simpl. repeat split; lia.
    + apply Nat.eqb_neq in E. rewrite filter_cons_False by done.
      repeat split; lia.
Qed.

(** The run of the cache engine over data that is not empty. *)
Lemma cache_run (n : nat) (items : list (gmap string entry)) (w : World) :
  items ≠ [] →
  ∃ st' w',
    run (cache_engine n) items 1 0 w = (Ok tt, st', w') ∧
    calls w' = calls w + length items ∧
    trace w' = trace w ++
      map (λ i, LoggingInfo (progress_message i (length items)))
          (logged_iterations n (length items)).
Proof.
  intros Hne.
  destruct (cache_pass n items (set_epoch 1 (initial_state items 1 0)) w)
    as (st' & w' & Hrun & _ & _ & Hcalls & Htrace).
  exists st', w'. split; [|done].
  assert (Hr : run (cache_engine n) items 1 0 w =
               internal_run (cache_engine n) items (initial_state items 1 0) w)
    by (unfold run; by destruct items).
  rewrite Hr.
  unfold internal_run, run_epochs, run_epoch, fire_event, cache_engine. simpl.
  unfold mbind, M_bind, mret, M_ret, modify, get_state. simpl.
  simpl in Hrun. by rewrite Hrun.
Qed.

Lemma log_interval_pos len f n : log_interval len f = Ok n → 1 ≤ n.
Proof.
  unfold log_interval, mbind, result_bind, bind.
  destruct (float_of_int _); [|done].
  destruct (int_of_float _); [|done].
  intros [= <-]. lia.
Qed.

(** C4, amended: over a dataset that is not empty, [cache_dataset] goes
    through the dataset once, leaving the items as they are, and logs a
    progress message at every multiple of
    [max(int(length * frequency), 1)] items, the product being the
    float product and [int] dropping its fractional part; over 100
    items with frequency 0.1 the interval is 10 and 10 messages are
    logged; in the end [cache_populated] is set. *)
Theorem cache_dataset_logs_every_interval (ds : Dataset) (f : float)
    (w : World) (n : nat) :
  items ds ≠ [] →
  log_interval (length (items ds)) f = Ok n →
  ∃ w',
    cache_dataset ds f w =
      (Ok {| items := items ds; cache_populated := true |}, w') ∧
    calls w' = calls w + length (items ds) ∧
    trace w' = trace w ++
      map (λ i, LoggingInfo (progress_message i (length (items ds))))
          (logged_iterations n (length (items ds))) ∧
    1 ≤ n ∧
    (length (items ds) = 100 → f = Finite (1 # 10) →
     n = 10 ∧
     length (log_lines (trace w')) = length (log_lines (trace w)) + 10).
Proof.
  intros Hne Hn.
  destruct (cache_run n (items ds) w Hne) as (st' & w' & Hrun & Hcalls & Htrace).
  exists w'. split.
  { unfold cache_dataset. by rewrite Hn, Hrun. }
  split; [exact Hcalls|]. split; [exact Htrace|].
  split; [by eapply log_interval_pos|].
  intros Hlen ->. rewrite Hlen in Hn.
  assert (n = 10) as -> by (vm_compute in Hn; congruence).
  split; [done|].
  rewrite Htrace. unfold log_lines. rewrite omap_app, length_app.
  f_equal. rewrite Hlen. vm_compute. reflexivity.
Qed.

(** The claim as stated fails: over 3 items with frequency 1/2 the
    interval is [int(1.5) = 1], not [ceil(1.5) = 2], and 3 messages are
    logged where an interval of 2 would give 1; and over an empty
    dataset the engine refuses to run, so that nothing is iterated and
    [cache_populated] is not set. *)
Lemma cache_dataset_interval_is_not_ceil :
  log_interval 3 (Finite (1 # 2)) = Ok 1 ∧
  log_interval_spec 3 (1 # 2) = 2 ∧
  length (log_lines (trace (cache_dataset (Examples.dataset 3)
                              (Finite (1 # 2)) Examples.world0).2)) = 3 ∧
  length (logged_iterations (log_interval_spec 3 (1 # 2)) 3) = 1 ∧
  cache_dataset (Examples.dataset 0) (Finite (1 # 10)) Examples.world0 =
    (Raise (ValueError
              "Input data has zero size. Please provide non-empty data"),
     Examples.world0).
Proof. vm_compute. done. Qed.

(** The product is the float product: over 100 items with frequency
    0.29 it is 28.999999999999996 and the interval is 28, where the
    exact product is 29. *)
Example log_interval_rounds_the_product :
  log_interval 100 (Finite (29 # 100)) = Ok 28 ∧
  int (inject_Z 100 * (29 # 100)) = 29%Z.
Proof. vm_compute. done. Qed.

(** ** Devices *)

Lemma move_entries_fold (rt : Runtime) (dev : Torch.device)
    (batch m : gmap string entry) :
  let r := map_fold (λ key e (acc : result (gmap string entry)),
                       batch ← acc ;
                       e' ← prepare_entry rt dev e ;
                       Ok (<[key := e']> batch))
                    (Ok batch) m in
  (∀ batch', r = Ok batch' →
     ∀ key, batch' !! key =
            match m !! key with
            | Some e => Some (prepared dev e)
            | None => batch !! key
            end) ∧
  (bool_decide (device_type dev = "cpu") || device_present rt dev = true →
   is_ok r = true).
Proof.
  simpl.
  apply (map_fold_weak_ind (λ (r : result (gmap string entry))
                              (m : gmap string entry),
    (∀ batch', r = Ok batch' →
       ∀ key, batch' !! key =
              match m !! key with
              | Some e => Some (prepared dev e)
              | None => batch !! key
              end) ∧
    (bool_decide (device_type dev = "cpu") || device_present rt dev = true →
     is_ok r = true))).
  - split; [|done]. intros batch' [= <-] key. by rewrite lookup_empty.
  - intros i e m' r Hm [IH1 IH2]. split.
    + intros batch'. destruct r as [b|err]; [|done]. simpl.
      unfold mbind, result_bind, bind.
      destruct (prepare_entry rt dev e) as [e'|err] eqn:He; [|done].
      intros [= <-] key. rewrite !lookup_insert.
      destruct (decide (i = key)) as [->|Hne].
      * f_equal. destruct e as [t|s]; simpl in He.
        -- unfold mbind, result_bind, bind, tensor_to in He.
           destruct (_ || _) in He; [|done]. by injection He as <-.
        -- by injection He as <-.
      * by apply IH1.
    + intros Hok. specialize (IH2 Hok).
      destruct r as [b|err]; [|done]. simpl.
      unfold mbind, result_bind, bind.
      destruct e as [t|s]; simpl; [|done].
      unfold mbind, result_bind, bind, tensor_to. by rewrite Hok.
Qed.

Lemma prepare_batch_ok (rt : Runtime) (dev : Torch.device) st w st' w' :
  prepare_batch rt dev st w = (Ok tt, st', w') →
  w' = w ∧ ∀ key, batch st' !! key = prepared dev <$> batch st !! key.
Proof.
  unfold prepare_batch.
  destruct (move_entries rt dev (batch st)) as [b|e] eqn:Hm; [|done].
  intros [= <- <-]. split; [done|]. intros key. simpl.
  destruct (move_entries_fold rt dev (batch st) (batch st)) as [H _].
  rewrite (H b Hm key). by destruct (batch st !! key).
Qed.

Lemma prepare_batch_total (rt : Runtime) (dev : Torch.device) st w :
  bool_decide (device_type dev = "cpu") || device_present rt dev = true →
  ∃ st', prepare_batch rt dev st w = (Ok tt, st', w).
Proof.
  intros Hok. unfold prepare_batch.
  destruct (move_entries_fold rt dev (batch st) (batch st)) as [_ H].
  specialize (H Hok). unfold move_entries.
  destruct (map_fold _ _ _) as [b|e]; [eauto|done].
Qed.

(** On a device that is neither the CPU nor present, the move fails at
    the first tensor of the batch. *)
Lemma move_entries_absent (rt : Runtime) (dev : Torch.device)
    (batch : gmap string entry) :
  bool_decide (device_type dev = "cpu") || device_present rt dev = false →
  (∃ key t, batch !! key = Some (Tensor t)) →
  ∃ e, move_entries rt dev batch = Raise e.
Proof.
  intros Hno (key & t & Hkey). unfold move_entries.
  generalize (Ok batch : result (gmap string entry)). intros r0.
  revert key t Hkey.
  apply (map_fold_weak_ind (λ (r : result (gmap string entry))
                              (m : gmap string entry),
    ∀ key t, m !! key = Some (Tensor t) → ∃ e, r = Raise e)).
  - intros key t. by rewrite lookup_empty.
  - intros i e m r Hm IH key t. rewrite lookup_insert.
    destruct r as [b|err]; [|eauto]. simpl.
    unfold mbind, result_bind, bind.
    destruct (decide (i = key)) as [->|Hne].
    + intros [= ->]. simpl. unfold mbind, result_bind, bind, tensor_to.
      rewrite Hno. eauto.
    + intros Hk. destruct (IH key t Hk) as [e' [=]].
Qed.

(** C5, amended: for a device string that [torch.device] accepts,
    [create_train_and_validation_engines] does not raise.  When
    [torch.cuda.is_available()] is false the device it resolves is the
    CPU, whatever was asked for, and [prepare_batch] then never raises;
    when it is true the device asked for is kept without a look at
    whether it is there, and [prepare_batch] raises at a batch with a
    tensor when it is not.  Whenever [prepare_batch] has run, every
    tensor of the batch is a float tensor on the resolved device and
    the other entries are as they were. *)
Theorem device_falls_back_to_cpu (rt : Runtime)
    (train_func : nat → gmap string entry → result (gmap string Q))
    (val_func : option (nat → gmap string entry → result (gmap string Q)))
    (device : string) (dev : Torch.device) :
  torch_device device = Ok dev →
  ∃ resolved trainer validator,
    resolved = (if cuda_is_available rt then dev else cpu) ∧
    resolve_device rt device = Ok resolved ∧
    create_train_and_validation_engines rt train_func val_func device
      = Ok (trainer, validator) ∧
    event_handlers trainer ITERATION_STARTED = [λ _, prepare_batch rt resolved] ∧
    (∀ v, validator = Some v →
          event_handlers v ITERATION_STARTED = [λ _, prepare_batch rt resolved]) ∧
    (∀ st w st' w',
       prepare_batch rt resolved st w = (Ok tt, st', w') →
       (∀ key, batch st' !! key = prepared resolved <$> batch st !! key) ∧
       (∀ key t, batch st' !! key = Some (Tensor t) →
                 tensor_device t = resolved ∧ tensor_dtype t = Float32)) ∧
    (cuda_is_available rt = false →
     resolved = cpu ∧
     ∀ st w, ∃ st', prepare_batch rt resolved st w = (Ok tt, st', w)) ∧
    (cuda_is_available rt = true →
     resolved = dev ∧
     (bool_decide (device_type dev = "cpu") || device_present rt dev = false →
      ∀ st w key t, batch st !! key = Some (Tensor t) →
        ∃ e, prepare_batch rt resolved st w = (Raise e, st, w))).
Proof.
  intros Hdev.
  assert (Hres : resolve_device rt device =
                 Ok (if cuda_is_available rt then dev else cpu)).
  { unfold resolve_device. rewrite Hdev. simpl.
    by destruct (cuda_is_available rt). }
  eexists _, _, _. split; [reflexivity|]. split; [exact Hres|].
  split.
  { unfold create_train_and_validation_engines. rewrite Hres. reflexivity. }
  split; [reflexivity|]. split.
  { intros v Hv. destruct val_func; simpl in Hv; [|done].
    by injection Hv as <-. }
  split; [|split].
  - intros st w st' w' Hprep. apply prepare_batch_ok in Hprep as [_ Hb].
    split; [exact Hb|]. intros key t Ht. rewrite Hb in Ht.
    destruct (batch st !! key) as [[t0|s]|]; simpl in Ht; [|done..].
    by injection Ht as <-.
  - intros Hcuda. rewrite Hcuda. split; [done|]. intros st w.
    by apply prepare_batch_total.
  - intros Hcuda. rewrite Hcuda. split; [done|].
    intros Hno st w key t Hkey.
    destruct (move_entries_absent rt dev (batch st) Hno) as [e He]; [eauto|].
    exists e. unfold prepare_batch. by rewrite He.
Qed.

(** The claim as stated fails: on a machine with one GPU, a second GPU
    that is asked for is not there, yet the device is not replaced by
    the CPU, and [prepare_batch] raises at the first batch; and on a
    machine without CUDA, asking for a device by a name that is no
    device type makes the factory raise instead of falling back. *)
Lemma requested_device_absent_raises :
  cuda_is_available Examples.one_gpu = true ∧
  device_present Examples.one_gpu (Device "cuda" (Some 1)) = false ∧
  resolve_device Examples.one_gpu "cuda:1" = Ok (Device "cuda" (Some 1)) ∧
  is_ok (create_train_and_validation_engines Examples.one_gpu
           Examples.train_func None "cuda:1") = true ∧
  prepare_batch Examples.one_gpu (Device "cuda" (Some 1)) Examples.mid_epoch
    Examples.world0 =
    (Raise (RuntimeError "device not available"), Examples.mid_epoch,
     Examples.world0) ∧
  resolve_device Examples.cpu_only "gpu" =
    Raise (RuntimeError "Invalid device string") ∧
  is_ok (create_train_and_validation_engines Examples.cpu_only
           Examples.train_func None "gpu") = false.
Proof. repeat split; vm_compute; reflexivity. Qed.

(** ** Whole runs *)

Lemma training_setup_inv (rt : Runtime)
    (train_func : nat → gmap string entry → result (gmap string Q))
    (val_func : option (nat → gmap string entry → result (gmap string Q)))
    (device : string) (dev : Torch.device)
    (subs : TrainerEvents → list Handler) (folder : string) (model : Model)
    (optimizer : Optimizer) (train_data : TrainData)
    (val_data : list (gmap string entry)) (trainer : Engine TrainerEvents) :
  training_setup rt train_func val_func device subs folder model optimizer
    train_data val_data = Ok trainer →
  resolve_device rt device = Ok dev →
  trainer =
  add_validate_and_checkpoint folder model optimizer train_data val_data
    ((λ f, attach_bookkeeping rt (@new_engine Empty_set f) dev) <$> val_func)
    (with_custom_handlers
       (attach_bookkeeping rt (@new_engine TrainerEvents train_func) dev) subs).
Proof.
  unfold training_setup, create_train_and_validation_engines.
  intros Hsetup Hres. rewrite Hres in Hsetup. simpl in Hsetup.
  injection Hsetup as <-. by destruct val_func.
Qed.

(** C3: in a run that completes [N ≥ 1] epochs, the epoch history under
    [train/key], for a key observed in every epoch, has exactly [N]
    entries, the [n]-th being the mean of the values of the key over the
    iterations of epoch [n]; the same holds under [validation/key] when
    there is a validator; and the history is never reset: what it holds
    after [m] epochs is still there, at the front, at the end. *)
Theorem epoch_history_one_mean_per_epoch (rt : Runtime)
    (train_func : nat → gmap string entry → result (gmap string Q))
    (val_func : option (nat → gmap string entry → result (gmap string Q)))
    (device : string) (dev : Torch.device)
    (subs : TrainerEvents → list Handler) (folder : string) (model : Model)
    (optimizer : Optimizer) (train_data : TrainData)
    (data val_data : list (gmap string entry)) (trainer : Engine TrainerEvents)
    (N seed : nat) (w : World) (st : State) (w' : World) :
  training_setup rt train_func val_func device subs folder model optimizer
    train_data val_data = Ok trainer →
  resolve_device rt device = Ok dev →
  (∀ ev, Forall observer (subs ev)) →
  1 ≤ N →
  run trainer data N seed w = (Ok tt, st, w') →
  (∀ key,
     (∀ n, n < N →
        key_values key
          (outputs_from (move_entries rt dev) train_func
             (calls w + n * steps_per_epoch val_func data val_data) data) ≠ []) →
     ∃ hist, epoch_history st !! ("train/" +:+ key) = Some hist ∧
             length hist = N ∧
             ∀ n, n < N →
               hist !! n = Some (mean (key_values key
                 (outputs_from (move_entries rt dev) train_func
                    (calls w + n * steps_per_epoch val_func data val_data)
                    data)))) ∧
  (∀ vf key,
     val_func = Some vf →
     (∀ n, n < N →
        key_values key
          (outputs_from (move_entries rt dev) vf
             (calls w + n * steps_per_epoch val_func data val_data + length data)
             val_data) ≠ []) →
     ∃ hist, epoch_history st !! ("validation/" +:+ key) = Some hist ∧
             length hist = N ∧
             ∀ n, n < N →
               hist !! n = Some (mean (key_values key
                 (outputs_from (move_entries rt dev) vf
                    (calls w + n * steps_per_epoch val_func data val_data
                       + length data)
                    val_data)))) ∧
  (∀ m, m ≤ N →
     ∃ stm wm,
       run_epochs trainer data m (initial_state data N seed) w
         = (Ok tt, stm, wm) ∧
       ∀ k, default [] (epoch_history stm !! k)
              `prefix_of` default [] (epoch_history st !! k)).
Proof.
  intros Hsetup Hres Hsubs HN Hrun.
  rewrite (training_setup_inv _ _ _ _ _ _ _ _ _ _ _ _ Hsetup Hres) in Hrun |- *.
  by apply (training_history rt dev train_func val_func subs folder model
              optimizer train_data data val_data Hsubs N seed w st w').
Qed.

(** C7: when the step function raises at some iteration of the epoch
    that follows [n] completed ones, the run ends with that exception,
    the step function having been called once for the failing iteration
    and not again; nothing is written and nothing is appended for the
    unfinished epoch: the epoch history is the one the [n] completed
    epochs left, with at most [n] entries per key and exactly [n] for
    the keys observed in each of them. *)
Theorem step_failure_aborts_run (rt : Runtime)
    (train_func : nat → gmap string entry → result (gmap string Q))
    (val_func : option (nat → gmap string entry → result (gmap string Q)))
    (device : string) (dev : Torch.device)
    (subs : TrainerEvents → list Handler) (folder : string) (model : Model)
    (optimizer : Optimizer) (train_data : TrainData)
    (val_data : list (gmap string entry)) (trainer : Engine TrainerEvents)
    (N seed n : nat) (w : World) (st1 : State) (w1 : World)
    (data1 : list (gmap string entry)) (b : gmap string entry)
    (data2 : list (gmap string entry)) (outs1 : list (gmap string Q))
    (b' : gmap string entry) (e : exn) :
  training_setup rt train_func val_func device subs folder model optimizer
    train_data val_data = Ok trainer →
  resolve_device rt device = Ok dev →
  (∀ ev, Forall observer (subs ev)) →
  n < N →
  run_epochs trainer (data1 ++ b :: data2) n
    (initial_state (data1 ++ b :: data2) N seed) w = (Ok tt, st1, w1) →
  pass_outputs (move_entries rt dev) train_func (calls w1) data1 = Ok outs1 →
  move_entries rt dev b = Ok b' →
  train_func (calls w1 + length data1) b' = Raise e →
  ∃ st' w',
    run trainer (data1 ++ b :: data2) N seed w = (Raise e, st', w') ∧
    epoch_history st' = epoch_history st1 ∧
    trace w' = trace w1 ∧
    calls w' = calls w1 + length data1 + 1 ∧
    (∀ k l, epoch_history st' !! k = Some l → length l ≤ n) ∧
    (∀ key,
       (∀ j, j < n →
          key_values key
            (outputs_from (move_entries rt dev) train_func
               (calls w + j * steps_per_epoch val_func (data1 ++ b :: data2)
                                val_data)
               (data1 ++ b :: data2)) ≠ []) →
       length (default [] (epoch_history st' !! ("train/" +:+ key))) = n).
Proof.
  intros Hsetup Hres Hsubs Hn Hrun Hp Hb He.
  rewrite (training_setup_inv _ _ _ _ _ _ _ _ _ _ _ _ Hsetup Hres) in Hrun |- *.
  by apply (training_failure rt dev train_func val_func subs folder model
              optimizer train_data (data1 ++ b :: data2) val_data Hsubs N seed
              w n st1 w1 data1 b data2 outs1 b' e).
Qed.

(** ** The statements at concrete runs *)

Lemma triple_eta {A} (r : result A * State * World) :
  r = (outcome_of r, state_of r, world_of r).
Proof. by destruct r as [[? ?] ?]. Qed.

Lemma wf_mid_epoch : wf_histories Examples.mid_epoch.
Proof.
  split; simpl.
  - intros key l [_ <-]%lookup_singleton_Some. simpl. lia.
  - intros key1 key2 l [<- _]%lookup_singleton_Some
      [<- _]%lookup_singleton_Some. done.
Qed.

Lemma is_best_iff_minimum_witness :
  (∃ st' w',
     validation_step [Examples.item] (Some Examples.validator)
       Examples.third_epoch (Examples.world_at 8) = (Ok false, st', w') ∧
     epoch_history st' !! "validation/loss"
       = Some [(9 # 10)%Q; (1 # 2)%Q; (3 # 5)%Q]) ∧
  (∃ st' w',
     validation_step [Examples.item] (Some Examples.validator)
       Examples.third_epoch (Examples.world_at 9) = (Ok true, st', w') ∧
     epoch_history st' !! "validation/loss"
       = Some [(9 # 10)%Q; (1 # 2)%Q; (2 # 5)%Q]).
Proof.
  split.
  - destruct (is_best_iff_minimum Examples.cpu_only cpu Examples.val_func
                [Examples.item] Examples.third_epoch (Examples.world_at 8))
      as (_ & _ & _ & H).
    destruct (H ltac:(done) [{[ "loss" := (6 # 10)%Q ]}]) as [Hsome _].
    { vm_compute. reflexivity. }
    destruct Hsome as (is_best & st' & w' & Hstep & Heh & Hiff).
    { vm_compute. discriminate. }
    assert (is_best = false) as ->.
    { destruct is_best; [|done]. exfalso.
      destruct Hiff as [Hiff _].
      specialize (Hiff eq_refl (1 # 2)%Q).
      assert (Hle : (mean (key_values "loss" [{[ "loss" := (6 # 10)%Q ]}])
                     <= 1 # 2)%Q).
      { apply Hiff. simpl. right. left. }
      vm_compute in Hle. by apply Hle. }
    exists st', w'. split; [exact Hstep|]. rewrite Heh. vm_compute. reflexivity.
  - destruct (is_best_iff_minimum Examples.cpu_only cpu Examples.val_func
                [Examples.item] Examples.third_epoch (Examples.world_at 9))
      as (_ & _ & _ & H).
    destruct (H ltac:(done) [{[ "loss" := (4 # 10)%Q ]}]) as [Hsome _].
    { vm_compute. reflexivity. }
    destruct Hsome as (is_best & st' & w' & Hstep & Heh & Hiff).
    { vm_compute. discriminate. }
    assert (is_best = true) as ->.
    { apply Hiff. intros y Hy. simpl in Hy.
      apply elem_of_cons in Hy as [->|Hy]; [vm_compute; discriminate|].
      apply elem_of_cons in Hy as [->|Hy]; [vm_compute; discriminate|].
      apply list_elem_of_singleton in Hy as ->. apply Qle_refl. }
    exists st', w'. split; [exact Hstep|]. rewrite Heh. vm_compute. reflexivity.
Defined.

Lemma saved_model_path_recorded_witness :
  outcome_of Examples.checkpointed = Ok true ∧
  saved_model_path (state_of Examples.checkpointed)
    = Some "out/checkpoints/best.model.pth" ∧
  Forall (λ s, saved_model_path s = saved_model_path (state_of Examples.checkpointed) ∧
               output_folder s = Some "out")
         (observed_states [log_epoch_to_stdout]
            (state_of Examples.checkpointed) (world_of Examples.checkpointed)).
Proof.
  assert (Ho : outcome_of Examples.checkpointed = Ok true)
    by (vm_compute; reflexivity).
  pose proof (triple_eta Examples.checkpointed) as Hc. rewrite Ho in Hc.
  pose proof (saved_model_path_recorded "out" Examples.model
                Examples.optimizer Examples.train_data [Examples.item] None
                Examples.stdout_subscribers Examples.end_of_epoch
                Examples.world0) as H.
  change (checkpoint "out" Examples.model Examples.optimizer
            Examples.train_data [Examples.item] None
            Examples.stdout_subscribers Examples.end_of_epoch Examples.world0)
    with Examples.checkpointed in H.
  rewrite Hc in H. cbv beta iota in H.
  destruct H as (Hp & _ & _ & _ & _ & _ & Hobs).
  split; [exact Ho|]. split; [exact Hp|].
  apply Hobs.
  change (Forall observer [log_epoch_to_stdout]).
  constructor; [apply log_epoch_to_stdout_observer|constructor].
Defined.

Lemma dataset_nonempty n : items (Examples.dataset (S n)) ≠ [].
Proof. done. Qed.

Lemma cache_dataset_logs_every_interval_witness :
  ∃ w',
    cache_dataset (Examples.dataset 100) (Finite (1 # 10)) Examples.world0 =
      (Ok {| items := items (Examples.dataset 100); cache_populated := true |},
       w') ∧
    length (log_lines (trace w')) = 10.
Proof.
  assert (Hn : log_interval (length (items (Examples.dataset 100)))
                 (Finite (1 # 10)) = Ok 10) by (vm_compute; reflexivity).
  destruct (cache_dataset_logs_every_interval (Examples.dataset 100)
              (Finite (1 # 10)) Examples.world0 10 (dataset_nonempty 99) Hn)
    as (w' & Hrun & _ & _ & _ & Hten).
  exists w'. split; [exact Hrun|].
  apply (Hten (length_replicate 100 Examples.item) eq_refl).
Defined.

Lemma device_falls_back_to_cpu_witness :
  torch_device "cuda" = Ok (Device "cuda" None) ∧
  resolve_device Examples.cpu_only "cuda" = Ok cpu.
Proof.
  split; [reflexivity|].
  destruct (device_falls_back_to_cpu Examples.cpu_only Examples.train_func
              None "cuda" (Device "cuda" None) eq_refl)
    as (resolved & _ & _ & -> & Hres & _).
  exact Hres.
Defined.

Lemma stdout_tolerates_missing_validation_loss_witness :
  epoch_history Examples.no_validation_loss !! "validation/loss" = None ∧
  outcome_of (log_epoch_to_stdout Examples.no_validation_loss Examples.world0)
    = Ok tt ∧
  length (trace (world_of (log_epoch_to_stdout Examples.no_validation_loss
                             Examples.world0))) = 1.
Proof.
  split; [reflexivity|].
  rewrite (stdout_tolerates_missing_validation_loss
             Examples.no_validation_loss Examples.world0
             [(583591 # 1000000)%Q] (583591 # 1000000)%Q
             "out/checkpoints/best.model.pth" "out"
             eq_refl eq_refl eq_refl eq_refl eq_refl).
  split; reflexivity.
Defined.

Lemma stdout_requires_train_loss_witness :
  epoch_history Examples.no_train_loss !! "train/loss" = None ∧
  log_epoch_to_stdout Examples.no_train_loss Examples.world0 =
    (Raise (KeyError "train/loss"), Examples.no_train_loss, Examples.world0).
Proof.
  split; [reflexivity|].
  apply (stdout_requires_train_loss Examples.no_train_loss Examples.world0
           eq_refl).
Defined.

Lemma add_to_iter_history_appends_witness :
  wf_histories Examples.mid_epoch ∧
  output Examples.mid_epoch !! "loss" = Some (1 # 4)%Q ∧
  ∃ l, store (state_of (add_to_iter_history Examples.mid_epoch Examples.world0))
         !! l = Some [(1 # 2)%Q; (1 # 4)%Q] ∧
       past_iter_history
         (state_of (add_to_iter_history Examples.mid_epoch Examples.world0))
         !! "loss" = Some [0; l].
Proof.
  split; [exact wf_mid_epoch|]. split; [reflexivity|].
  destruct (add_to_iter_history_appends Examples.mid_epoch Examples.world0
              "loss" wf_mid_epoch) as [Hone _].
  destruct (Hone (1 # 4)%Q eq_refl) as (_ & l & _ & Hstore & Hpast).
  exists l. split; [exact Hstore|exact Hpast].
Defined.

Lemma no_subscribers_observe ev : Forall observer (Examples.no_subscribers ev).
Proof. constructor. Qed.

Lemma epoch_history_one_mean_per_epoch_witness :
  outcome_of Examples.scenario_C = Ok tt ∧
  (∃ hist, epoch_history (state_of Examples.scenario_C) !! "train/loss"
             = Some hist ∧ length hist = 5) ∧
  (∃ hist, epoch_history (state_of Examples.scenario_C) !! "validation/loss"
             = Some hist ∧ length hist = 5 ∧ hist !! 2 = Some (3 # 5)%Q).
Proof.
  assert (Ho : outcome_of Examples.scenario_C = Ok tt)
    by (vm_compute; reflexivity).
  pose proof (triple_eta Examples.scenario_C) as Hrun. rewrite Ho in Hrun.
  destruct (epoch_history_one_mean_per_epoch Examples.cpu_only
              Examples.train_func (Some Examples.val_func) "cuda" cpu
              Examples.no_subscribers "out" Examples.model Examples.optimizer
              Examples.train_data [Examples.item; Examples.item]
              [Examples.item] Examples.scenario_C_trainer 5 0 Examples.world0
              (state_of Examples.scenario_C) (world_of Examples.scenario_C)
              eq_refl eq_refl no_subscribers_observe ltac:(lia) Hrun)
    as (Htrain & Hval & _).
  split; [exact Ho|]. split.
  - destruct (Htrain "loss") as (hist & Hh & Hl & _).
    { intros n Hn. do 5 (destruct n as [|n]; [vm_compute; discriminate|]). lia. }
    exists hist. split; [exact Hh|exact Hl].
  - destruct (Hval Examples.val_func "loss" eq_refl) as (hist & Hh & Hl & Hn).
    { intros n Hn. do 5 (destruct n as [|n]; [vm_compute; discriminate|]). lia. }
    exists hist. split; [exact Hh|]. split; [exact Hl|].
    rewrite (Hn 2) by lia. vm_compute. reflexivity.
Defined.

Lemma step_failure_aborts_run_witness :
  outcome_of Examples.scenario_D_first_epoch = Ok tt ∧
  Examples.failing_func 14 (prepared cpu <$> Examples.item)
    = Raise (UserError "step failed") ∧
  ∃ st' w',
    Examples.scenario_D = (Raise (UserError "step failed"), st', w') ∧
    epoch_history st' = epoch_history (state_of Examples.scenario_D_first_epoch) ∧
    calls w' = 15 ∧
    length (default [] (epoch_history st' !! "train/loss")) = 1.
Proof.
  assert (Ho : outcome_of Examples.scenario_D_first_epoch = Ok tt)
    by (vm_compute; reflexivity).
  pose proof (triple_eta Examples.scenario_D_first_epoch) as Hrun.
  rewrite Ho in Hrun.
  split; [exact Ho|]. split; [reflexivity|].
  destruct (step_failure_aborts_run Examples.cpu_only Examples.failing_func
              None "cpu" cpu Examples.no_subscribers "out" Examples.model
              Examples.optimizer Examples.train_data [Examples.item]
              Examples.scenario_D_trainer 3 0 1 Examples.world0
              (state_of Examples.scenario_D_first_epoch)
              (world_of Examples.scenario_D_first_epoch)
              (replicate 6 Examples.item) Examples.item [Examples.item]
              (replicate 6 {[ "loss" := (1 # 2)%Q ]})
              (prepared cpu <$> Examples.item)
              (UserError "step failed")
              eq_refl eq_refl no_subscribers_observe ltac:(lia) Hrun)
    as (st' & w' & Hfail & Heh & _ & Hcalls & _ & Hlen).
  - vm_compute. reflexivity.
  - vm_compute. reflexivity.
  - vm_compute. reflexivity.
  - exists st', w'. split; [exact Hfail|]. split; [exact Heh|]. split.
    + rewrite Hcalls. vm_compute. reflexivity.
    + apply (Hlen "loss"). intros j Hj.
      destruct j as [|j]; [vm_compute; discriminate|lia].
Defined.

(** The claim as stated fails: a run whose training step reports no key
    named [loss] never gets a [validation/loss] either, and the summary
    handler raises at the end of its first epoch. *)
Lemma stdout_raises_without_train_loss :
  epoch_history (state_of Examples.l1_run) !! "validation/loss" = None ∧
  outcome_of Examples.l1_run = Raise (KeyError "train/loss") ∧
  outcome_of (log_epoch_to_stdout (state_of Examples.l1_run)
                (world_of Examples.l1_run)) = Raise (KeyError "train/loss").
Proof. vm_compute. done. Qed.

(** Scenario C of the specification: with validation losses
    [0.9, 0.5, 0.6, 0.4, 0.4] the best model is written at epochs 1, 2, 4
    and 5, the latest at every epoch. *)
Example scenario_C_checkpoints :
  model_files (trace (world_of Examples.scenario_C)) =
    ["out/checkpoints/latest.model.pth"; "out/checkpoints/best.model.pth";
     "out/checkpoints/latest.model.pth"; "out/checkpoints/best.model.pth";
     "out/checkpoints/latest.model.pth";
     "out/checkpoints/latest.model.pth"; "out/checkpoints/best.model.pth";
     "out/checkpoints/latest.model.pth"; "out/checkpoints/best.model.pth"].
Proof. vm_compute. reflexivity. Qed.

(** * Further properties of the trainer *)

(** ** The checkpoint handler at its edges *)


(** X3: when the validator, over validation data that is not empty,
    reports no [loss] in an epoch but
    [validation/loss] holds values of earlier epochs, nothing is appended
    under that key and the epoch is judged by the last value recorded:
    it is taken for the best one exactly when that value is the
    smallest on record. *)
Theorem stale_validation_loss_decides_is_best (rt : Runtime)
    (dev : Torch.device)
    (val_func : nat → gmap string entry → result (gmap string Q))
    (val_data : list (gmap string entry)) (st : State) (w : World)
    (outs : list (gmap string Q)) (old : list Q) (x : Q) :
  val_data ≠ [] →
  pass_outputs (move_entries rt dev) val_func (calls w) val_data = Ok outs →
  key_values "loss" outs = [] →
  epoch_history st !! "validation/loss" = Some (old ++ [x]) →
  ∃ is_best st' w',
    validation_step val_data
      (Some (attach_bookkeeping rt (new_engine val_func) dev)) st w
      = (Ok is_best, st', w') ∧
    epoch_history st' !! "validation/loss" = Some (old ++ [x]) ∧
    (is_best = true ↔ ∀ y, y ∈ old ++ [x] → (x <= y)%Q).
Proof.
  intros Hne Hp Hnil Hold.
  destruct (validation_step_ok val_data rt dev val_func st w outs Hne Hp)
    as (vstate & w' & Hstep & Hvals & Hdom & _).
  assert (Hkey :
    append_means "validation/" vstate (epoch_history st) !! "validation/loss"
      = Some (old ++ [x])).
  { change "validation/loss" with ("validation/" +:+ "loss").
    rewrite append_means_lookup. specialize (Hdom "loss").
    destruct (iter_history vstate !! "loss") as [l|]; [|exact Hold].
    exfalso. apply Hdom; [eauto|exact Hnil]. }
  destruct (resolve_is_best_appended _ _ _ Hkey) as (b & Hb & Hiff).
  exists b, (set_epoch_history
               (append_means "validation/" vstate (epoch_history st)) st), w'.
  rewrite Hstep, Hb. done.
Qed.

(** ** Iteration histories across an epoch boundary *)

Lemma record_outputs_fresh (out : gmap string Q) (st0 : State) :
  iter_history st0 = ∅ →
  (∀ key l, iter_history (map_fold record_output st0 out) !! key = Some l →
            length (store st0) ≤ l) ∧
  (∀ l, l < length (store st0) →
        store (map_fold record_output st0 out) !! l = store st0 !! l).
Proof.
  intros Hempty.
  cut ((∀ key l, iter_history (map_fold record_output st0 out) !! key = Some l →
                 length (store st0) ≤ l) ∧
       length (store st0) ≤ length (store (map_fold record_output st0 out)) ∧
       (∀ l, l < length (store st0) →
             store (map_fold record_output st0 out) !! l = store st0 !! l)).
  { intros (H1 & _ & H3). done. }
  apply (map_fold_weak_ind (λ r (_ : gmap string Q),
    (∀ key l, iter_history r !! key = Some l → length (store st0) ≤ l) ∧
    length (store st0) ≤ length (store r) ∧
    (∀ l, l < length (store st0) → store r !! l = store st0 !! l))).
  - split; [|done]. intros key l. rewrite Hempty, lookup_empty. discriminate.
  - intros i x m r _ (Hloc & Hlen & Hold). unfold record_output.
    destruct (iter_history r !! i) as [l|] eqn:Hi; simpl.
    + destruct (past_iter_history r !! i); simpl; rewrite Hi; simpl;
        (split; [exact Hloc|]); rewrite length_alter; (split; [exact Hlen|]);
        intros l' Hl'; pose proof (Hloc _ _ Hi);
        rewrite list_lookup_alter_ne by lia; auto.
    + destruct (past_iter_history r !! i); simpl;
        rewrite lookup_insert_eq; simpl;
        (split; [intros key l0; rewrite lookup_insert; case_decide;
                 [intros [= <-]; lia|apply Hloc]|]);
        rewrite length_alter, length_app; simpl; (split; [lia|]);
        intros l' Hl'; rewrite list_lookup_alter_ne, lookup_app_l by lia; auto.
Qed.

(** X4: at the start of an epoch [clear_iter_history] empties the
    iteration history and nothing else: the past iteration history and
    its lists stay.  The first value a key gets afterwards goes into a
    new list, so the lists of earlier epochs are never written again,
    and that new list is what is appended to the past iteration
    history. *)
Theorem epoch_start_keeps_past_lists (st : State) (w : World)
    (out : gmap string Q) (key : string) (v : Q) :
  out !! key = Some v →
  iter_history (state_of (clear_iter_history st w)) = ∅ ∧
  past_iter_history (state_of (clear_iter_history st w)) = past_iter_history st ∧
  store (state_of (clear_iter_history st w)) = store st ∧
  (∀ l, l < length (store st) →
     store (state_of (add_to_iter_history
                        (set_output out (state_of (clear_iter_history st w))) w))
       !! l = store st !! l) ∧
  ∃ l, length (store st) ≤ l ∧
       iter_history (state_of (add_to_iter_history
                        (set_output out (state_of (clear_iter_history st w))) w))
         !! key = Some l ∧
       store (state_of (add_to_iter_history
                        (set_output out (state_of (clear_iter_history st w))) w))
         !! l = Some [v] ∧
       past_iter_history (state_of (add_to_iter_history
                        (set_output out (state_of (clear_iter_history st w))) w))
         !! key = Some (entries st key ++ [l]).
Proof.
  intros Hv. split; [done|]. split; [done|]. split; [done|].
  set (st1 := set_output out (state_of (clear_iter_history st w))).
  rewrite add_to_iter_history_eq. unfold state_of at 1 2 3 4. simpl.
  change (output st1) with out.
  destruct (record_outputs_fresh out st1 eq_refl) as [Hloc Hold].
  split; [exact Hold|].
  destruct (add_outputs_spec out st1 (wf_histories_empty st1 eq_refl))
    as [_ Hkey].
  specialize (Hkey key). rewrite Hv in Hkey.
  destruct Hkey as (l & H1 & H2 & H3). exists l.
  split; [by apply (Hloc key)|]. split; [exact H1|]. split; [exact H2|exact H3].
Qed.

(** ** How many progress messages *)

Lemma div_succ (n len : nat) :
  1 ≤ n →
  S len `div` n = len `div` n + (if decide (S len `mod` n = 0) then 1 else 0).
Proof.
  intros Hn.
  pose proof (Nat.div_mod_eq len n) as E.
  pose proof (Nat.mod_upper_bound len n ltac:(lia)) as B.
  destruct (decide (S (len `mod` n) = n)) as [Heq|Hne].
  - assert (Hq : S len `div` n = S (len `div` n)).
    { symmetry. apply (Nat.div_unique _ _ _ 0); lia. }
    assert (Hr : S len `mod` n = 0).
    { symmetry. apply (Nat.mod_unique _ _ (S (len `div` n))); lia. }
    rewrite Hq, Hr. rewrite decide_True by done. lia.
  - assert (Hq : S len `div` n = len `div` n).
    { symmetry. apply (Nat.div_unique _ _ _ (S (len `mod` n))); lia. }
    assert (Hr : S len `mod` n = S (len `mod` n)).
    { symmetry. apply (Nat.mod_unique _ _ (len `div` n)); lia. }
    rewrite Hq, Hr. rewrite decide_False by done. lia.
Qed.

Lemma logged_iterations_count (n len : nat) :
  1 ≤ n → length (logged_iterations n len) = len `div` n.
Proof.
  intros Hn. unfold logged_iterations. induction len as [|len IH].
  - simpl. by rewrite Nat.Div0.div_0_l.
  - rewrite seq_S, filter_app, length_app, IH, div_succ by done. f_equal.
    simpl. destruct (decide (S len `mod` n = 0)).
    + by rewrite filter_cons_True.
    + by rewrite filter_cons_False.
Qed.

(** X5: [cache_dataset] raises what the computation of the interval
    raises and, over an empty dataset, the [ValueError] of the engine,
    in both cases with nothing logged and [cache_populated] not set;
    over a dataset of [len > 0] items it logs [len // interval] progress
    messages, none when the interval is longer than the dataset, and
    sets [cache_populated]. *)
Theorem cache_dataset_message_count (ds : Dataset) (f : float) (w : World) :
  match log_interval (length (items ds)) f with
  | Raise e => cache_dataset ds f w = (Raise e, w)
  | Ok n =>
      (items ds = [] →
       cache_dataset ds f w =
         (Raise (ValueError
                   "Input data has zero size. Please provide non-empty data"),
          w)) ∧
      (items ds ≠ [] →
       (cache_dataset ds f w).1
         = Ok {| items := items ds; cache_populated := true |} ∧
       length (log_lines (trace (cache_dataset ds f w).2)) =
         length (log_lines (trace w)) + length (items ds) `div` n ∧
       (length (items ds) < n →
        log_lines (trace (cache_dataset ds f w).2) = log_lines (trace w)))
  end.
Proof.
  destruct (log_interval (length (items ds)) f) as [n|e] eqn:Hint.
  2:{ unfold cache_dataset. by rewrite Hint. }
  split.
  { intros Hnil. unfold cache_dataset. by rewrite Hint, Hnil. }
  intros Hne.
  destruct (cache_run n (items ds) w Hne) as (st' & w' & Hrun & _ & Htrace).
  assert (Hcache : cache_dataset ds f w =
            (Ok {| items := items ds; cache_populated := true |}, w')).
  { unfold cache_dataset. by rewrite Hint, Hrun. }
  rewrite Hcache. simpl. split; [done|].
  assert (Hn : 1 ≤ n) by (by eapply log_interval_pos).
  assert (Hlines : log_lines (trace w') =
            log_lines (trace w) ++
            map (λ i, progress_message i (length (items ds)))
                (logged_iterations n (length (items ds)))).
  { rewrite Htrace. unfold log_lines. rewrite omap_app. f_equal.
    generalize (logged_iterations n (length (items ds))).
    intros l. induction l as [|i l IH]; [done|]. simpl. f_equal. exact IH. }
  split.
  - by rewrite Hlines, length_app, length_map, logged_iterations_count.
  - intros Hlt. rewrite Hlines.
    pose proof (logged_iterations_count n (length (items ds)) Hn) as Hc.
    rewrite Nat.div_small in Hc by done.
    destruct (logged_iterations _ _); [by rewrite app_nil_r|done].
Qed.

(** ** Reporting *)

Lemma log_to_tensorboard_spec (folder : string) (st : State) (w : World) :
  (∀ key l, epoch_history st !! key = Some l → l ≠ []) →
  ∃ scalars,
    log_to_tensorboard folder st w =
      (Ok tt, st,
       {| trace := trace w ++ scalars; calls := calls w;
          epoch_time := epoch_time w; overall_time := overall_time w |}) ∧
    length scalars = size (epoch_history st) ∧
    ∀ e, e ∈ scalars ↔
         ∃ key l v, epoch_history st !! key = Some l ∧ last l = Some v ∧
                    e = AddScalar (os_path_join folder ["tensorboard"]) key v
                          (epoch st).
Proof.
  unfold log_to_tensorboard. rewrite M_bind_unfold. simpl.
  generalize (epoch_history st). intros m. revert w.
  apply (map_fold_weak_ind (λ (r : M unit) (m : gmap string (list Q)),
    ∀ w, (∀ key l, m !! key = Some l → l ≠ []) →
    ∃ scalars,
      r st w =
        (Ok tt, st,
         {| trace := trace w ++ scalars; calls := calls w;
            epoch_time := epoch_time w; overall_time := overall_time w |}) ∧
      length scalars = size m ∧
      ∀ e, e ∈ scalars ↔
           ∃ key l v, m !! key = Some l ∧ last l = Some v ∧
                      e = AddScalar (join2 folder "tensorboard") key v (epoch st))).
  - intros w _. exists []. rewrite app_nil_r. split; [by destruct w|].
    split; [by rewrite map_size_empty|]. intros e. split.
    + intros He. by apply elem_of_nil in He.
    + intros (key & l & v & Hk & _). by rewrite lookup_empty in Hk.
  - intros i l m' r Hi IH w Hne.
    destruct (IH w) as (scalars & Hr & Hlen & Hmem).
    { intros key l' Hk. apply (Hne key). rewrite lookup_insert_ne; [done|].
      intros ->. by rewrite Hi in Hk. }
    assert (Hl : l ≠ []) by (apply (Hne i); by rewrite lookup_insert_eq).
    destruct (last l) as [v|] eqn:Hlast.
    2:{ by apply last_None in Hlast. }
    exists (scalars ++ [AddScalar (join2 folder "tensorboard") i v (epoch st)]).
    split.
    { rewrite M_bind_unfold, Hr. rewrite M_bind_unfold. unfold lift, last_item.
      rewrite Hlast. unfold perform, emit. simpl. by rewrite <- app_assoc. }
    split.
    { rewrite length_app, Hlen, map_size_insert_None by done. simpl. lia. }
    intros e. rewrite elem_of_app, list_elem_of_singleton, Hmem. split.
    + intros [(key & l' & v' & Hk & Hv & ->)| ->].
      * exists key, l', v'. rewrite lookup_insert_ne; [done|].
        intros ->. by rewrite Hi in Hk.
      * exists i, l, v. by rewrite lookup_insert_eq.
    + intros (key & l' & v' & Hk & Hv & ->).
      rewrite lookup_insert in Hk. case_decide.
      * right. injection Hk as <-. subst key. congruence.
      * left. eauto 10.
Qed.

(** X6: [log_to_tensorboard] writes one scalar for every key of the
    epoch history, no more: the last value recorded under the key,
    tagged with the key and the current epoch, to the writer of
    [output_folder/tensorboard]; it leaves the run state as it is. *)
Theorem tensorboard_logs_last_value_of_every_key (folder : string)
    (st : State) (w : World) :
  (∀ key l, epoch_history st !! key = Some l → l ≠ []) →
  ∃ scalars,
    log_to_tensorboard folder st w =
      (Ok tt, st,
       {| trace := trace w ++ scalars; calls := calls w;
          epoch_time := epoch_time w; overall_time := overall_time w |}) ∧
    length scalars = size (epoch_history st) ∧
    ∀ e, e ∈ scalars ↔
         ∃ key l v, epoch_history st !! key = Some l ∧ last l = Some v ∧
                    e = AddScalar (os_path_join folder ["tensorboard"]) key v
                          (epoch st).
Proof. apply log_to_tensorboard_spec. Qed.

(** X7: the handlers of [VALIDATION_COMPLETED] run in the order in which
    they were added.  With the stdout handler added first, an epoch
    history without [train/loss] ends the event with a [KeyError] before
    any scalar is written; added the other way round, the scalars of the
    epoch are written and then the [KeyError] is raised. *)
Theorem reporting_runs_in_registration_order (folder : string)
    (trainer : Engine TrainerEvents) (st : State) (w : World) :
  custom_handlers trainer (Validation VALIDATION_COMPLETED) = [] →
  epoch_history st !! "train/loss" = None →
  (∀ key l, epoch_history st !! key = Some l → l ≠ []) →
  run_handlers
    (custom_handlers (add_tensorboard_handler folder (add_stdout_handler trainer))
       (Validation VALIDATION_COMPLETED)) st w
    = (Raise (KeyError "train/loss"), st, w) ∧
  ∃ w',
    run_handlers
      (custom_handlers (add_stdout_handler (add_tensorboard_handler folder trainer))
         (Validation VALIDATION_COMPLETED)) st w
      = (Raise (KeyError "train/loss"), st, w') ∧
    length (trace w') = length (trace w) + size (epoch_history st).
Proof.
  intros Hnone Htrain Hne.
  unfold add_tensorboard_handler, add_stdout_handler, add_custom_handler.
  simpl. rewrite Hnone. simpl. split.
  - rewrite M_bind_unfold. by rewrite log_epoch_to_stdout_no_train_loss.
  - destruct (log_to_tensorboard_spec folder st w Hne)
      as (scalars & Hr & Hlen & _).
    eexists. rewrite M_bind_unfold, Hr. rewrite M_bind_unfold.
    rewrite log_epoch_to_stdout_no_train_loss by done.
    split; [reflexivity|]. simpl. by rewrite length_app, Hlen.
Qed.

(** ** Preparing a batch twice *)

Lemma move_entries_no_tensor (rt : Runtime) (dev : Torch.device)
    (batch m : gmap string entry) :
  bool_decide (device_type dev = "cpu") || device_present rt dev = false →
  ∀ batch',
    map_fold (λ key e (acc : result (gmap string entry)),
                batch ← acc ;
                e' ← prepare_entry rt dev e ;
                Ok (<[key := e']> batch))
             (Ok batch) m = Ok batch' →
    ∀ key e, m !! key = Some e → is_tensor e = false.
Proof.
  intros Hno.
  apply (map_fold_weak_ind (λ (r : result (gmap string entry))
                              (m : gmap string entry),
    ∀ batch', r = Ok batch' →
      ∀ key e, m !! key = Some e → is_tensor e = false)).
  - intros batch' _ key e. by rewrite lookup_empty.
  - intros i e m' r Hm IH batch'. destruct r as [b|err]; [|done]. simpl.
    unfold mbind, result_bind, bind.
    destruct (prepare_entry rt dev e) as [e'|err] eqn:He; [|done].
    intros _ key e0. rewrite lookup_insert.
    destruct (decide (i = key)) as [->|Hne].
    + intros [= <-]. destruct e as [t|s]; [|done]. simpl in He.
      unfold mbind, result_bind, bind, tensor_to in He.
      by rewrite Hno in He.
    + by apply (IH b).
Qed.

Lemma prepared_idempotent (dev : Torch.device) (e : entry) :
  prepared dev (prepared dev e) = prepared dev e.
Proof. by destruct e. Qed.

(** X8: [prepare_batch] keeps the keys of the batch and the entries that
    are not tensors, and preparing a prepared batch changes nothing and
    does not fail. *)
Theorem prepare_batch_idempotent (rt : Runtime) (dev : Torch.device)
    (st : State) (w : World) (st1 : State) (w1 : World) :
  prepare_batch rt dev st w = (Ok tt, st1, w1) →
  prepare_batch rt dev st1 w1 = (Ok tt, st1, w1) ∧
  dom (batch st1) = dom (batch st) ∧
  (∀ key s, batch st !! key = Some (Other s) →
            batch st1 !! key = Some (Other s)).
Proof.
  intros Hprep. pose proof Hprep as Hp0.
  apply prepare_batch_ok in Hprep as [-> Hb].
  assert (Hfmap : batch st1 = prepared dev <$> batch st).
  { apply map_eq. intros key. by rewrite Hb, lookup_fmap. }
  split; [|split].
  - assert (Hmove : move_entries rt dev (batch st1) = Ok (batch st1)).
    { destruct (move_entries rt dev (batch st1)) as [b|e] eqn:Hm.
      - f_equal. apply map_eq. intros key.
        destruct (move_entries_fold rt dev (batch st1) (batch st1)) as [H _].
        rewrite (H b Hm key), Hb.
        destruct (batch st !! key); simpl; [|done].
        by rewrite prepared_idempotent.
      - exfalso.
        destruct (bool_decide (device_type dev = "cpu") || device_present rt dev)
          eqn:Hok.
        + destruct (move_entries_fold rt dev (batch st1) (batch st1))
            as [_ H]. specialize (H Hok). unfold move_entries in Hm.
          by rewrite Hm in H.
        + unfold prepare_batch in Hp0.
          destruct (move_entries rt dev (batch st)) as [b0|e0] eqn:Hm0;
            [|done].
          assert (batch st1 = batch st) as Heq.
          { rewrite Hfmap. apply map_eq. intros key. rewrite lookup_fmap.
            destruct (batch st !! key) as [e1|] eqn:Hk; [|done]. simpl.
            pose proof (move_entries_no_tensor rt dev (batch st) (batch st)
                          Hok b0 Hm0 key e1 Hk) as Ht.
            by destruct e1. }
          rewrite Heq in Hm. congruence. }
    unfold prepare_batch. rewrite Hmove. by destruct st1.
  - rewrite Hfmap. apply dom_fmap_L.
  - intros key s Hk. by rewrite Hb, Hk.
Qed.

(** ** The shape of the epoch history *)

Lemma appended_nonempty (old : option (list Q)) (vs l : list Q) :
  (∀ l0, old = Some l0 → l0 ≠ []) → appended old vs = Some l → l ≠ [].
Proof.
  intros Hold. unfold appended. destruct vs as [|v vs]; [apply Hold|].
  intros [= <-]. by destruct (default [] old).
Qed.

Section HistoryShape.
Variables (rt : Runtime) (dev : Torch.device).
Variable train_func : nat → gmap string entry → result (gmap string Q).
Variable val_func : option (nat → gmap string entry → result (gmap string Q)).
Variable subs : TrainerEvents → list Handler.
Variables (output_folder : string) (model : Model) (optimizer : Optimizer).
Variables (train_data : TrainData) (data val_data : list (gmap string entry)).

Hypothesis Hsubs : ∀ ev, Forall observer (subs ev).

Local Abbreviation validator :=
  ((λ f, attach_bookkeeping rt (@new_engine Empty_set f) dev) <$> val_func).

Local Abbreviation trainer :=
  (add_validate_and_checkpoint output_folder model optimizer train_data
     val_data validator
     (with_custom_handlers
        (attach_bookkeeping rt (@new_engine TrainerEvents train_func) dev)
        subs)).

(** Keys that are not qualified are left alone by an epoch. *)
Lemma run_epoch_other_keys st w st' w' k :
  run_epoch trainer data st w = (Ok tt, st', w') →
  (∀ key, k ≠ "train/" +:+ key) →
  (∀ key, k ≠ "validation/" +:+ key) →
  epoch_history st' !! k = epoch_history st !! k.
Proof.
  rewrite run_epoch_eq.
  set (st0 := set_iter_history ∅ (set_epoch (S (epoch st)) st)).
  destruct (pass_outputs (move_entries rt dev) train_func (calls w) data)
    as [outs|e] eqn:Hp.
  2:{ destruct (pass_raise trainer rt dev eq_refl eq_refl data (calls w)
                  st0 w e eq_refl Hp) as (s & w0 & -> & _). done. }
  destruct (pass_ok trainer rt dev eq_refl eq_refl data (calls w) st0 w outs
              eq_refl (wf_histories_empty st0 eq_refl) Hp)
    as (st1 & w1 & -> & _ & Heh1 & _).
  rewrite validate_and_checkpoint_eq.
  destruct (checkpoint _ _ _ _ _ _ _ st1 w1) as [[[b|e] stc] wc] eqn:Hc;
    [|done].
  apply checkpoint_inv in Hc.
  destruct Hc as (sA & wA & sB & wB & HA & HB & Hstc & _).
  pose proof (run_handlers_observer _ (Hsubs (Validation VALIDATION_STARTED))
                st1 w1) as [HA1 _].
  rewrite HA in HA1. unfold state_of in HA1. simpl in HA1. subst sA.
  apply (validation_step_history rt dev val_func val_data) in HB.
  destruct HB as (_ & _ & _ & _ & Hother & _).
  intros Hfinal Htrain Hval.
  pose proof (run_handlers_observer _ (Hsubs (Validation VALIDATION_COMPLETED))
                stc wc) as [HF1 _].
  rewrite Hfinal in HF1. unfold state_of in HF1. simpl in HF1.
  subst st' stc. simpl.
  rewrite append_means_other by done.
  rewrite (Hother k Hval), Heh1. done.
Qed.

Lemma run_epoch_qualified st w st' w' :
  run_epoch trainer data st w = (Ok tt, st', w') →
  qualified_history (bool_decide (is_Some val_func)) (epoch_history st) →
  qualified_history (bool_decide (is_Some val_func)) (epoch_history st').
Proof.
  intros Hrun Hq k l Hk.
  pose proof (run_epoch_other_keys _ _ _ _ k Hrun) as Hother.
  apply (run_epoch_ok rt dev train_func val_func subs output_folder model
           optimizer train_data data val_data Hsubs) in Hrun.
  destruct Hrun as (outs & _ & Htrain & Hval & _).
  destruct (has_prefix_dec "train/" k) as [[key ->]|Hnt].
  { split; [|left; eauto]. rewrite Htrain in Hk.
    eapply appended_nonempty; [|exact Hk].
    intros l0 Hl0. by apply (Hq _ _ Hl0). }
  destruct (has_prefix_dec "validation/" k) as [[key ->]|Hnv].
  { destruct val_func as [vf|].
    - destruct Hval as (vouts & _ & Hval). split.
      + rewrite Hval in Hk. eapply appended_nonempty; [|exact Hk].
        intros l0 Hl0. by apply (Hq _ _ Hl0).
      + right. split; [done|eauto].
    - rewrite Hval in Hk. by apply (Hq _ _ Hk). }
  rewrite (Hother Hnt Hnv) in Hk. by apply (Hq _ _ Hk).
Qed.

Lemma run_epochs_qualified n : ∀ st w st' w',
  run_epochs trainer data n st w = (Ok tt, st', w') →
  qualified_history (bool_decide (is_Some val_func)) (epoch_history st) →
  qualified_history (bool_decide (is_Some val_func)) (epoch_history st').
Proof.
  induction n as [|n IH]; intros st w st' w'.
  - by intros [= <- <-].
  - rewrite run_epochs_S.
    destruct (run_epoch trainer data st w) as [[[[]|e] st1] w1] eqn:He;
      [|done].
    intros Hrest Hq. eapply IH; [exact Hrest|].
    by eapply run_epoch_qualified.
Qed.

Lemma training_shape N seed w st w' :
  run trainer data N seed w = (Ok tt, st, w') →
  qualified_history (bool_decide (is_Some val_func)) (epoch_history st) ∧
  calls w' = calls w + N * steps_per_epoch val_func data val_data.
Proof.
  intros Hok. pose proof (run_ok_nonempty data _ _ _ _ _ _ Hok) as Hne.
  revert Hok. rewrite run_trainer_eq by done.
  destruct (run_epochs trainer data N _ w) as [[[[]|e] st1] w1] eqn:Hrun;
    [|done].
  intros [= <- <-]. split.
  - eapply run_epochs_qualified; [exact Hrun|].
    intros k l. simpl. by rewrite lookup_empty.
  - by apply (run_epochs_ok rt dev train_func val_func subs output_folder
                model optimizer train_data data val_data Hsubs) in Hrun
      as (Hcalls & _).
Qed.
End HistoryShape.

(** X9: in a run that completes, every key of the epoch history is
    qualified by [train/], or by [validation/] when a validator was
    given (with none, no [validation/] key appears), and no list of the
    history is empty; so [log_to_tensorboard] does not raise on the
    state the run ends in. *)
Theorem epoch_history_keys_are_qualified (rt : Runtime)
    (train_func : nat → gmap string entry → result (gmap string Q))
    (val_func : option (nat → gmap string entry → result (gmap string Q)))
    (device : string) (dev : Torch.device)
    (subs : TrainerEvents → list Handler) (folder : string) (model : Model)
    (optimizer : Optimizer) (train_data : TrainData)
    (data val_data : list (gmap string entry)) (trainer : Engine TrainerEvents)
    (N seed : nat) (w : World) (st : State) (w' : World) :
  training_setup rt train_func val_func device subs folder model optimizer
    train_data val_data = Ok trainer →
  resolve_device rt device = Ok dev →
  (∀ ev, Forall observer (subs ev)) →
  run trainer data N seed w = (Ok tt, st, w') →
  qualified_history (bool_decide (is_Some val_func)) (epoch_history st) ∧
  ∀ folder' w0, outcome_of (log_to_tensorboard folder' st w0) = Ok tt.
Proof.
  intros Hsetup Hres Hsubs Hrun.
  rewrite (training_setup_inv _ _ _ _ _ _ _ _ _ _ _ _ Hsetup Hres) in Hrun.
  apply (training_shape rt dev train_func val_func subs folder model optimizer
           train_data data val_data Hsubs) in Hrun as [Hq _].
  split; [exact Hq|]. intros folder' w0.
  destruct (log_to_tensorboard_spec folder' st w0) as (scalars & -> & _);
    [|done].
  intros key l Hl. by apply (Hq _ _ Hl).
Qed.

(** X10: a run that completes [N] epochs has called the training step
    once per batch and epoch, and the validation step once per
    validation batch and epoch: the validator goes over the whole
    validation data exactly once after every epoch of training. *)
Theorem steps_taken_by_a_run (rt : Runtime)
    (train_func : nat → gmap string entry → result (gmap string Q))
    (val_func : option (nat → gmap string entry → result (gmap string Q)))
    (device : string) (dev : Torch.device)
    (subs : TrainerEvents → list Handler) (folder : string) (model : Model)
    (optimizer : Optimizer) (train_data : TrainData)
    (data val_data : list (gmap string entry)) (trainer : Engine TrainerEvents)
    (N seed : nat) (w : World) (st : State) (w' : World) :
  training_setup rt train_func val_func device subs folder model optimizer
    train_data val_data = Ok trainer →
  resolve_device rt device = Ok dev →
  (∀ ev, Forall observer (subs ev)) →
  run trainer data N seed w = (Ok tt, st, w') →
  calls w' = calls w +
             N * (length data +
                  match val_func with
                  | Some _ => length val_data
                  | None => 0
                  end).
Proof.
  intros Hsetup Hres Hsubs Hrun.
  rewrite (training_setup_inv _ _ _ _ _ _ _ _ _ _ _ _ Hsetup Hres) in Hrun.
  by apply (training_shape rt dev train_func val_func subs folder model
              optimizer train_data data val_data Hsubs) in Hrun as [_ Hcalls].
Qed.

(** ** Where the optimizer state goes *)

Lemma append_cons (c : ascii) (a b : string) :
  String c a +:+ b = String c (a +:+ b).
Proof. reflexivity. Qed.

Lemma string_app_assoc (a b c : string) : (a +:+ b) +:+ c = a +:+ (b +:+ c).
Proof.
  induction a as [|x a IH]; [done|]. rewrite !append_cons. by rewrite IH.
Qed.

Lemma string_app_nil_r (a : string) : a +:+ "" = a.
Proof.
  induction a as [|x a IH]; [done|]. rewrite append_cons. by rewrite IH.
Qed.

Lemma prefix_iff (p s : string) :
  String.prefix p s = true ↔ ∃ r, s = p +:+ r.
Proof.
  revert s. induction p as [|c p IH]; intros s.
  - split; [intros _; by exists s|by destruct s].
  - destruct s as [|c' s]; [split; [done|intros [r [=]]]|].
    cbn [String.prefix].
    destruct (Ascii.ascii_dec c c') as [->|Hne].
    + rewrite IH. split; intros [r Hr]; exists r.
      * rewrite append_cons. congruence.
      * rewrite append_cons in Hr. congruence.
    + split; [done|]. intros [r Hr]. rewrite append_cons in Hr.
      injection Hr as Hr _. exfalso. by apply Hne.
Qed.

(** Two ways of cutting the same string in two. *)
Lemma string_app_eq_app (b : string) : ∀ old t r,
  b +:+ t = old +:+ r →
  (∃ m, old = b +:+ m ∧ t = m +:+ r) ∨ (∃ m, b = old +:+ m ∧ r = m +:+ t).
Proof.
  induction b as [|c b IH]; intros old t r H.
  - left. by exists old.
  - destruct old as [|c' old].
    + right. by exists (String c b).
    + rewrite !append_cons in H. injection H as -> H.
      destruct (IH _ _ _ H) as [[m [-> ->]]|[m [-> ->]]].
      * left. by exists m.
      * right. by exists m.
Qed.

Lemma char_of_app (c : ascii) (o1 o2 : string) :
  c ∈ list_ascii_of_string (o1 +:+ String c o2).
Proof.
  induction o1 as [|x o1 IH]; [by left|].
  rewrite append_cons. by right.
Qed.

(** Where no match starts, [replace] copies. *)
Lemma replace_go_copies (old new t : string) (s : string) :
  (∀ a b, s = a +:+ b → b ≠ "" → String.prefix old (b +:+ t) = false) →
  replace_go old new 0 (s +:+ t) = s +:+ replace_go old new 0 t.
Proof.
  induction s as [|c s IH]; intros Hfree; [done|].
  rewrite !append_cons. cbn [replace_go].
  rewrite <- append_cons.
  rewrite (Hfree "" (String c s)) by done.
  f_equal. apply IH. intros a b -> Hb. by apply (Hfree (String c a) b).
Qed.

Lemma replace_after_folder (old new folder : string) (c : ascii) (t : string) :
  ¬ occurs old folder →
  c ∉ list_ascii_of_string old →
  str_replace (folder +:+ String c t) old new =
  folder +:+ str_replace (String c t) old new.
Proof.
  intros Hocc Hc. unfold str_replace. apply replace_go_copies.
  intros a b -> Hb.
  destruct (String.prefix old (b +:+ String c t)) eqn:Hp; [|done].
  exfalso. apply prefix_iff in Hp as [r Hr].
  destruct (string_app_eq_app _ _ _ _ Hr) as [[m [Hold Ht]]|[m [Hbm _]]].
  - destruct m as [|c' m].
    + apply Hocc. exists a, "". rewrite Hold. by rewrite !string_app_nil_r.
    + rewrite append_cons in Ht. injection Ht as <- _. apply Hc. rewrite Hold.
      apply char_of_app.
  - apply Hocc. exists a, m. by rewrite Hbm.
Qed.

Lemma endswith_sep_app (a : string) (c : ascii) (b : string) :
  endswith_sep (a +:+ String c b) = endswith_sep (String c b).
Proof.
  induction a as [|x a IH]; [done|].
  rewrite append_cons. cbn [endswith_sep]. rewrite IH.
  destruct a as [|y a]; [done|]. by rewrite append_cons.
Qed.

(** The two paths of [output_paths], as the folder followed by a fixed
    tail. *)
Lemma checkpoint_path_tail (folder name : string) :
  startswith_sep name = false →
  os_path_join folder ["checkpoints"; name]
    = folder +:+
      (if bool_decide (folder = "") || endswith_sep folder
       then "checkpoints/" +:+ name else "/checkpoints/" +:+ name).
Proof.
  intros Hname.
  change (os_path_join folder ["checkpoints"; name])
    with (join2 (join2 folder "checkpoints") name).
  assert (Hinner : join2 folder "checkpoints" =
            folder +:+ (if bool_decide (folder = "") || endswith_sep folder
                        then "checkpoints" else "/checkpoints")).
  { unfold join2. change (startswith_sep "checkpoints") with false.
    cbv iota. by destruct (bool_decide (folder = "") || endswith_sep folder). }
  rewrite Hinner. unfold join2 at 1. rewrite Hname.
  assert (Hend : ∀ t, endswith_sep (folder +:+ String "c" t) = endswith_sep (String "c" t))
    by (intros; apply endswith_sep_app).
  assert (Hnonempty : ∀ t : string, t ≠ "" → bool_decide (folder +:+ t = "") = false).
  { intros t Ht. apply bool_decide_eq_false. destruct folder; [done|].
    by rewrite append_cons. }
  destruct (bool_decide (folder = "") || endswith_sep folder).
  - rewrite Hnonempty by done. rewrite endswith_sep_app.
    change (endswith_sep "checkpoints") with false. cbv iota. simpl orb.
    cbv iota. rewrite !string_app_assoc. reflexivity.
  - rewrite Hnonempty by done. rewrite endswith_sep_app.
    change (endswith_sep "/checkpoints") with false. simpl orb.
    cbv iota. rewrite !string_app_assoc. reflexivity.
Qed.

Lemma optimizer_path_sibling (folder : string) :
  ¬ occurs "model.pth" folder →
  optimizer_path (latest_path folder)
    = join2 (os_path_join folder ["checkpoints"]) "latest.optimizer.pth" ∧
  optimizer_path (best_path folder)
    = join2 (os_path_join folder ["checkpoints"]) "best.optimizer.pth".
Proof.
  intros Hocc. unfold optimizer_path, latest_path, best_path.
  change (join2 (os_path_join folder ["checkpoints"]) "latest.optimizer.pth")
    with (os_path_join folder ["checkpoints"; "latest.optimizer.pth"]).
  change (join2 (os_path_join folder ["checkpoints"]) "best.optimizer.pth")
    with (os_path_join folder ["checkpoints"; "best.optimizer.pth"]).
  assert (Hslash : "/"%char ∉ list_ascii_of_string "model.pth").
  { intros H. vm_compute in H.
    repeat (apply elem_of_cons in H as [H|H]; [done|]).
    by apply elem_of_nil in H. }
  assert (Hc : "c"%char ∉ list_ascii_of_string "model.pth").
  { intros H. vm_compute in H.
    repeat (apply elem_of_cons in H as [H|H]; [done|]).
    by apply elem_of_nil in H. }
  rewrite !checkpoint_path_tail by done.
  destruct (bool_decide (folder = "") || endswith_sep folder); split.
  - change ("checkpoints/" +:+ "latest.model.pth")
      with (String "c" "heckpoints/latest.model.pth").
    rewrite replace_after_folder by done. f_equal.
  - change ("checkpoints/" +:+ "best.model.pth")
      with (String "c" "heckpoints/best.model.pth").
    rewrite replace_after_folder by done. f_equal.
  - change ("/checkpoints/" +:+ "latest.model.pth")
      with (String "/" "checkpoints/latest.model.pth").
    rewrite replace_after_folder by done. f_equal.
  - change ("/checkpoints/" +:+ "best.model.pth")
      with (String "/" "checkpoints/best.model.pth").
    rewrite replace_after_folder by done. f_equal.
Qed.

(** X11: for an output folder whose name does not contain [model.pth],
    the optimizer state of each checkpoint is written beside the model,
    in the checkpoints directory the handler creates: to
    [latest.optimizer.pth] and [best.optimizer.pth]. *)
Theorem optimizer_state_beside_model (folder : string) :
  ¬ occurs "model.pth" folder →
  optimizer_path (latest_path folder)
    = join2 (os_path_join folder ["checkpoints"]) "latest.optimizer.pth" ∧
  optimizer_path (best_path folder)
    = join2 (os_path_join folder ["checkpoints"]) "best.optimizer.pth".
Proof. apply optimizer_path_sibling. Qed.

(** ** Writing into the checkpoints directory *)

Lemma parentdir_go_file (d name : string) :
  parentdir_go name = None →
  parentdir_go (d +:+ String "/" name) = Some d.
Proof.
  intros Hname. induction d as [|c d IH].
  - change ("" +:+ String "/" name) with (String "/" name).
    cbn [parentdir_go]. by rewrite Hname.
  - rewrite append_cons. cbn [parentdir_go]. by rewrite IH.
Qed.

Lemma checkpoints_dir (folder : string) :
  os_path_join folder ["checkpoints"] ≠ "" ∧
  ∀ name, startswith_sep name = false → parentdir_go name = None →
    parentdir (join2 (os_path_join folder ["checkpoints"]) name)
      = os_path_join folder ["checkpoints"].
Proof.
  assert (Hd : os_path_join folder ["checkpoints"] =
            folder +:+ (if bool_decide (folder = "") || endswith_sep folder
                        then "checkpoints" else "/checkpoints")).
  { change (os_path_join folder ["checkpoints"])
      with (join2 folder "checkpoints").
    unfold join2. change (startswith_sep "checkpoints") with false.
    cbv iota. by destruct (bool_decide (folder = "") || endswith_sep folder). }
  assert (Hne : os_path_join folder ["checkpoints"] ≠ "").
  { rewrite Hd. destruct folder; [|by rewrite append_cons].
    by destruct (bool_decide ("" = "") || endswith_sep ""). }
  split; [exact Hne|]. intros name Hs Hname.
  assert (Hend : endswith_sep (os_path_join folder ["checkpoints"]) = false).
  { rewrite Hd. destruct (bool_decide (folder = "") || endswith_sep folder).
    - change "checkpoints" with (String "c" "heckpoints").
      by rewrite endswith_sep_app.
    - change "/checkpoints" with (String "/" "checkpoints").
      by rewrite endswith_sep_app. }
  unfold join2. rewrite Hs, Hend.
  rewrite (bool_decide_eq_false_2 _ Hne). cbv iota. simpl orb. cbv iota.
  unfold parentdir.
  change ("/" +:+ name) with (String "/" name).
  by rewrite parentdir_go_file.
Qed.

(** The writes of a checkpoint go through when the folder's name does
    not contain [model.pth]. *)
Lemma save_checkpoints_beside (folder : string) (model : Model)
    (optimizer : Optimizer) (metadata : Metadata) (is_best : bool)
    (st : State) (w : World) :
  ¬ occurs "model.pth" folder →
  save_checkpoints folder model optimizer metadata
    (output_paths folder is_best) st w =
  (Ok tt, st,
   {| trace := trace w ++
               checkpoint_writes folder model optimizer metadata
                 (output_paths folder is_best);
      calls := calls w; epoch_time := epoch_time w;
      overall_time := overall_time w |}).
Proof.
  intros Hocc.
  destruct (checkpoints_dir folder) as [Hne Hdir].
  destruct (optimizer_path_sibling folder Hocc) as [Hl Hb].
  apply save_checkpoints_ok; [exact Hne|].
  assert (Hlatest :
    parentdir (latest_path folder) = os_path_join folder ["checkpoints"] ∧
    parentdir (optimizer_path (latest_path folder))
      = os_path_join folder ["checkpoints"]).
  { rewrite Hl. split; by apply Hdir. }
  assert (Hbest :
    parentdir (best_path folder) = os_path_join folder ["checkpoints"] ∧
    parentdir (optimizer_path (best_path folder))
      = os_path_join folder ["checkpoints"]).
  { rewrite Hb. split; by apply Hdir. }
  unfold output_paths. destruct is_best; simpl; repeat constructor; tauto.
Qed.

(** X1: with no validator, nothing subscribed to [VALIDATION_STARTED]
    (no function of the module subscribes to it) and an output folder
    whose name does not contain [model.pth], the checkpoint handler does
    not fail before firing [VALIDATION_COMPLETED]: every epoch is taken
    for the best one, both the latest and the best model are written,
    in that order, [saved_model_path] is the best-model path, and no
    entry under [validation/] is touched. *)
Theorem no_validator_every_epoch_is_best (folder : string) (model : Model)
    (optimizer : Optimizer) (train_data : TrainData)
    (val_data : list (gmap string entry))
    (subs : TrainerEvents → list Handler) (st : State) (w : World) :
  subs (Validation VALIDATION_STARTED) = [] →
  ¬ occurs "model.pth" folder →
  ∃ st1 w1,
    checkpoint folder model optimizer train_data val_data None subs st w
      = (Ok true, st1, w1) ∧
    model_files (trace w1) =
      model_files (trace w) ++ [latest_path folder; best_path folder] ∧
    saved_model_path st1 = Some (best_path folder) ∧
    calls w1 = calls w ∧
    (∀ key, epoch_history st1 !! ("validation/" +:+ key)
            = epoch_history st !! ("validation/" +:+ key)).
Proof.
  intros Hsubs Hocc.
  destruct (checkpoint folder model optimizer train_data val_data None subs
              st w) as [[[b|e] st1] w1] eqn:Hc.
  - apply checkpoint_inv in Hc.
    destruct Hc as (sA & wA & sB & wB & HA & HB & -> & Htrace & Hcalls).
    rewrite Hsubs in HA. injection HA as <- <-.
    rewrite validation_step_none in HB. injection HB as <- <- <-.
    eexists _, w1. split; [reflexivity|]. split.
    { rewrite Htrace, model_files_app, model_files_writes. done. }
    split; [done|]. split; [done|].
    intros key. simpl. apply append_means_other.
    intros k' H'. by apply (train_not_validation k' key).
  - apply checkpoint_raise in Hc. rewrite Hsubs in Hc.
    destruct Hc as [Hc|[(sA & wA & HA & HB)|
                        (sA & wA & b & sB & wB & HA & HB & _ & HC)]]; [done| |].
    + injection HA as <- <-. by rewrite validation_step_none in HB.
    + by rewrite save_checkpoints_beside in HC.
Qed.

(** ** Keys the output does not have *)

(** X12: [add_to_iter_history] touches the keys of the output only: for
    any other key the list of the iteration history, its values and the
    entry of the past iteration history are as before, and so is the
    epoch history. *)
Theorem add_to_iter_history_other_keys (st : State) (w : World) (key : string) :
  wf_histories st →
  output st !! key = None →
  iter_history (state_of (add_to_iter_history st w)) !! key
    = iter_history st !! key ∧
  values (state_of (add_to_iter_history st w)) key = values st key ∧
  past_iter_history (state_of (add_to_iter_history st w)) !! key
    = past_iter_history st !! key ∧
  epoch_history (state_of (add_to_iter_history st w)) = epoch_history st ∧
  wf_histories (state_of (add_to_iter_history st w)).
Proof.
  intros Hwf Hkey. rewrite add_to_iter_history_eq. unfold state_of. simpl.
  destruct (add_outputs_spec (output st) st Hwf) as [Hwf' H].
  specialize (H key). rewrite Hkey in H. destruct H as (H1 & H2 & H3).
  destruct (add_outputs_fields (output st) st) as [Heh _].
  done.
Qed.

(** ** The further properties at concrete inputs *)

Lemma out_has_no_model_suffix : ¬ occurs "model.pth" "out".
Proof.
  intros (a & b & H).
  destruct a as [|c1 [|c2 [|c3 [|c4 a]]]]; rewrite ?append_cons in H;
    try discriminate; repeat (injection H as _ H); discriminate.
Qed.

Lemma no_validator_every_epoch_is_best_witness :
  ∃ st1 w1,
    checkpoint "out" Examples.model Examples.optimizer Examples.train_data
      [Examples.item] None Examples.no_subscribers Examples.end_of_epoch
      Examples.world0 = (Ok true, st1, w1) ∧
    model_files (trace w1) =
      ["out/checkpoints/latest.model.pth"; "out/checkpoints/best.model.pth"].
Proof.
  destruct (no_validator_every_epoch_is_best "out" Examples.model
              Examples.optimizer Examples.train_data [Examples.item]
              Examples.no_subscribers Examples.end_of_epoch Examples.world0
              eq_refl out_has_no_model_suffix)
    as (st1 & w1 & Hc & Hfiles & _).
  exists st1, w1. split; [exact Hc|exact Hfiles].
Defined.


Lemma stale_validation_loss_decides_is_best_witness :
  ∃ st' w',
    validation_step [Examples.item]
      (Some (attach_bookkeeping Examples.cpu_only
               (new_engine Examples.accuracy_func) cpu))
      Examples.third_epoch Examples.world0 = (Ok true, st', w') ∧
    epoch_history st' !! "validation/loss" = Some [(9 # 10)%Q; (1 # 2)%Q].
Proof.
  destruct (stale_validation_loss_decides_is_best Examples.cpu_only cpu
              Examples.accuracy_func [Examples.item] Examples.third_epoch
              Examples.world0 [{[ "accuracy" := (3 # 4)%Q ]}]
              [(9 # 10)%Q] (1 # 2)%Q)
    as (is_best & st' & w' & Hstep & Heh & Hiff).
  - done.
  - vm_compute. reflexivity.
  - reflexivity.
  - reflexivity.
  - assert (is_best = true) as ->.
    { apply Hiff. intros y Hy. simpl in Hy.
      apply elem_of_cons in Hy as [->|Hy]; [done|].
      apply list_elem_of_singleton in Hy as ->. apply Qle_refl. }
    exists st', w'. split; [exact Hstep|exact Heh].
Defined.

Lemma epoch_start_keeps_past_lists_witness :
  output Examples.mid_epoch !! "loss" = Some (1 # 4)%Q ∧
  ∃ l, 1 ≤ l ∧
       store (state_of (add_to_iter_history
                (set_output (output Examples.mid_epoch)
                   (state_of (clear_iter_history Examples.mid_epoch
                                Examples.world0)))
                Examples.world0)) !! l = Some [(1 # 4)%Q].
Proof.
  split; [reflexivity|].
  destruct (epoch_start_keeps_past_lists Examples.mid_epoch Examples.world0
              (output Examples.mid_epoch) "loss" (1 # 4)%Q eq_refl)
    as (_ & _ & _ & _ & l & Hl & _ & Hstore & _).
  exists l. split; [exact Hl|exact Hstore].
Defined.

Lemma nonempty_no_validation_loss :
  ∀ key l, epoch_history Examples.no_validation_loss !! key = Some l → l ≠ [].
Proof.
  intros key l H. unfold Examples.no_validation_loss in H.
  cbn [epoch_history] in H.
  apply lookup_singleton_Some in H as [_ <-]. done.
Qed.

Lemma nonempty_no_train_loss :
  ∀ key l, epoch_history Examples.no_train_loss !! key = Some l → l ≠ [].
Proof.
  intros key l H. unfold Examples.no_train_loss in H.
  cbn [epoch_history] in H.
  apply lookup_singleton_Some in H as [_ <-]. done.
Qed.

Lemma tensorboard_logs_last_value_of_every_key_witness :
  ∃ scalars,
    outcome_of (log_to_tensorboard "out" Examples.no_validation_loss
                  Examples.world0) = Ok tt ∧
    trace (world_of (log_to_tensorboard "out" Examples.no_validation_loss
                       Examples.world0)) = scalars ∧
    length scalars = 1.
Proof.
  destruct (tensorboard_logs_last_value_of_every_key "out"
              Examples.no_validation_loss Examples.world0
              nonempty_no_validation_loss) as (scalars & -> & Hlen & _).
  exists scalars. split; [reflexivity|]. split; [reflexivity|].
  rewrite Hlen. reflexivity.
Defined.

Lemma reporting_runs_in_registration_order_witness :
  run_handlers
    (custom_handlers
       (add_tensorboard_handler "out"
          (add_stdout_handler (new_engine Examples.l1_func)))
       (Validation VALIDATION_COMPLETED))
    Examples.no_train_loss Examples.world0
  = (Raise (KeyError "train/loss"), Examples.no_train_loss, Examples.world0).
Proof.
  apply (reporting_runs_in_registration_order "out"
           (new_engine Examples.l1_func) Examples.no_train_loss Examples.world0
           eq_refl eq_refl nonempty_no_train_loss).
Defined.

Lemma prepare_batch_idempotent_witness :
  ∃ st1,
    prepare_batch Examples.cpu_only cpu Examples.mid_epoch Examples.world0
      = (Ok tt, st1, Examples.world0) ∧
    prepare_batch Examples.cpu_only cpu st1 Examples.world0
      = (Ok tt, st1, Examples.world0).
Proof.
  destruct (prepare_batch_total Examples.cpu_only cpu Examples.mid_epoch
              Examples.world0 eq_refl) as [st1 Hp].
  exists st1. split; [exact Hp|].
  apply (prepare_batch_idempotent Examples.cpu_only cpu Examples.mid_epoch
           Examples.world0 st1 Examples.world0 Hp).
Defined.

Lemma epoch_history_keys_are_qualified_witness :
  outcome_of Examples.scenario_C = Ok tt ∧
  qualified_history true (epoch_history (state_of Examples.scenario_C)).
Proof.
  assert (Ho : outcome_of Examples.scenario_C = Ok tt)
    by (vm_compute; reflexivity).
  pose proof (triple_eta Examples.scenario_C) as Hrun. rewrite Ho in Hrun.
  split; [exact Ho|].
  apply (epoch_history_keys_are_qualified Examples.cpu_only
           Examples.train_func (Some Examples.val_func) "cuda" cpu
           Examples.no_subscribers "out" Examples.model Examples.optimizer
           Examples.train_data [Examples.item; Examples.item]
           [Examples.item] Examples.scenario_C_trainer 5 0 Examples.world0
           (state_of Examples.scenario_C) (world_of Examples.scenario_C)
           eq_refl eq_refl no_subscribers_observe Hrun).
Defined.

Lemma steps_taken_by_a_run_witness :
  outcome_of Examples.scenario_C = Ok tt ∧
  calls (world_of Examples.scenario_C) = 15.
Proof.
  assert (Ho : outcome_of Examples.scenario_C = Ok tt)
    by (vm_compute; reflexivity).
  pose proof (triple_eta Examples.scenario_C) as Hrun. rewrite Ho in Hrun.
  split; [exact Ho|].
  apply (steps_taken_by_a_run Examples.cpu_only
           Examples.train_func (Some Examples.val_func) "cuda" cpu
           Examples.no_subscribers "out" Examples.model Examples.optimizer
           Examples.train_data [Examples.item; Examples.item]
           [Examples.item] Examples.scenario_C_trainer 5 0 Examples.world0
           (state_of Examples.scenario_C) (world_of Examples.scenario_C)
           eq_refl eq_refl no_subscribers_observe Hrun).
Defined.

Lemma optimizer_state_beside_model_witness :
  optimizer_path (latest_path "out") = "out/checkpoints/latest.optimizer.pth".
Proof.
  destruct (optimizer_state_beside_model "out" out_has_no_model_suffix)
    as [H _].
  exact H.
Defined.

Lemma add_to_iter_history_other_keys_witness :
  output Examples.mid_epoch !! "accuracy" = None ∧
  values (state_of (add_to_iter_history Examples.mid_epoch Examples.world0))
    "accuracy" = [].
Proof.
  split; [reflexivity|].
  destruct (add_to_iter_history_other_keys Examples.mid_epoch Examples.world0
              "accuracy" wf_mid_epoch eq_refl) as (_ & H & _).
  exact H.
Defined.

Lemma cache_dataset_message_count_witness :
  log_interval 7 (Finite (1 # 2)) = Ok 3 ∧
  length (log_lines (trace (cache_dataset (Examples.dataset 7)
                              (Finite (1 # 2)) Examples.world0).2)) = 2.
Proof.
  assert (Hn : log_interval (length (items (Examples.dataset 7)))
                 (Finite (1 # 2)) = Ok 3) by (vm_compute; reflexivity).
  split; [exact Hn|].
  pose proof (cache_dataset_message_count (Examples.dataset 7)
                (Finite (1 # 2)) Examples.world0) as H.
  rewrite Hn in H. destruct H as [_ H].
  destruct (H (dataset_nonempty 6)) as (_ & Hc & _).
  rewrite Hc. reflexivity.
Defined.
